(** * Shukia stock analyzer: a model of [mysql-connector.py]

    The script is glue around two external collaborators, a MySQL server
    reached through [mysql.connector] and the market-data provider reached
    through [yfinance].  The model keeps the Python control flow (loops,
    [try]/[except]/[finally], the visibility of loop variables after a
    loop) and makes every external call an explicit step on a [world]
    that holds the database, the connection handle, the scripted answers of
    the collaborators and a journal of the effects performed. *)

From Stdlib Require Import ZArith QArith Qabs Lia Bool.
From Stdlib Require Import SpecFloat.
From Stdlib Require Import Ascii Sorted Permutation.
From stdpp Require Import gmap strings list fin_maps pretty.

Local Open Scope string_scope.
Local Open Scope list_scope.
Local Open Scope Z_scope.

(** ** Python floats

    Prices are Python [float]s, i.e. IEEE 754 binary64 values.  They are
    represented by the Standard Library's [spec_float] at precision 53
    and maximal exponent 1024. *)

Module PyFloat.

Definition prec : Z := 53.
Definition emax : Z := 1024.

Definition float := spec_float.

(** [float(n)] for an integer literal. *)
Definition of_Z (n : Z) : float := binary_normalize prec emax n 0 false.

Definition sub : float -> float -> float := SFsub prec emax.
Definition mul : float -> float -> float := SFmul prec emax.
Definition div : float -> float -> float := SFdiv prec emax.

(** [a > b], [a == b] and [b == 0.0] on floats. *)
Definition gt (a b : float) : bool := SFltb b a.
Definition eqb (a b : float) : bool := SFeqb a b.
Definition is_zero (a : float) : bool :=
  match a with S754_zero _ => true | _ => false end.

(** Rounding of the quotient [n / d] of two integers to the nearest
    integer, ties to even. *)
Definition div_half_even (n d : Z) : Z :=
  let q := n / d in
  let r := n mod d in
  match 2 * r ?= d with
  | Lt => q
  | Gt => q + 1
  | Eq => if Z.even q then q else q + 1
  end.

(** [round(x, 2)]: CPython prints the exact binary value with two
    digits after the point (correctly rounded, ties to even) and reads
    the decimal string back as the nearest double.  Zeros, infinities
    and NaN round to themselves, and so does any value that is already
    an integer. *)
Definition round2 (x : float) : float :=
  match x with
  | S754_finite s m e =>
      if 0 <=? e then x
      else
        match div_half_even (Zpos m * 100) (2 ^ (- e)) with
        | Zpos q => div (S754_finite s q 0) (S754_finite false 100 0)
        | _ => S754_zero s
        end
  | _ => x
  end.

End PyFloat.

(** ** Data model *)

(** [datetime.date] and [datetime.time] values. *)
Record date := { year : Z; month : Z; day : Z }.
Record time := { hour : Z; minute : Z; second : Z }.

(** One minute bar as the provider returns it: the index [Datetime] and
    the columns the script reads. *)
Record bar := {
  bar_date : date;
  bar_time : time;
  bar_Open : PyFloat.float;
  bar_Close : PyFloat.float;
  bar_Volume : Z
}.

(** A row of the DataFrame handed to [save_stock_details]: the provider's
    columns plus the [ticker], [date] and [time] columns that
    [get_stock_data] adds. *)
Record df_row := {
  Datetime : date * time;
  Open : PyFloat.float;
  Close : PyFloat.float;
  Volume : Z;
  ticker : string;
  date_col : date;
  time_col : time
}.

Definition DataFrame := list df_row.

(** A row of [StockDetails], in the column order of the INSERT. *)
Record detail_row := {
  sd_ticker : string;
  sd_date : date;
  open_price : PyFloat.float;
  close_price : PyFloat.float;
  volume : Z;
  percentage_change : PyFloat.float;
  profit_loss : string
}.

(** A MySQL exact-value number: [unscaled / 10 ^ scale]. *)
Record decimal := { unscaled : Z; scale : Z }.

Definition decimal_value (d : decimal) : Q :=
  unscaled d # Z.to_pos (10 ^ scale d).

(** The non-key columns of a [ProfitStatistics] row. *)
Record stat_row := {
  total_days : Z;
  profit_days : Z;
  loss_days : Z;
  profit_probability : decimal;
  last_calculated : date
}.

(** Modelled from the spec: the CREATE TABLE statements are not part of
    the script.  StockDetails is an append-only table of the seven inserted
    columns; ProfitStatistics has a UNIQUE key on [ticker], so it holds at
    most one row per ticker and is kept as a map from the ticker to the
    other columns, which are stored as the SELECT computes them. *)
Record tables := {
  StockDetails : list detail_row;
  ProfitStatistics : gmap string stat_row
}.

(** ** Exceptions *)

Inductive exn :=
| Error (msg : string)               (* mysql.connector.Error and subclasses *)
| Exception (msg : string)           (* a plain [Exception(...)] *)
| ZeroDivisionError (msg : string)
| UnboundLocalError (msg : string)   (* a NameError *)
| EOFError (msg : string)            (* input() at the end of stdin *)
| ProviderError (msg : string).      (* whatever yfinance raises *)

(** [str(e)]. *)
Definition str (e : exn) : string :=
  match e with
  | Error m | Exception m | ZeroDivisionError m
  | UnboundLocalError m | EOFError m | ProviderError m => m
  end.

(** [except Error] matches the connector's errors only; every class above
    derives from [Exception]. *)
Definition is_Error (e : exn) : bool :=
  match e with Error _ => true | _ => false end.

Definition is_NameError (e : exn) : bool :=
  match e with UnboundLocalError _ => true | _ => false end.

(** ** The world outside the interpreter *)

Inductive statement :=
| InsertStockDetails (values : detail_row)
| UpsertProfitStatistics.

Inductive event :=
| Connect                       (* mysql.connector.connect(...) *)
| Sleep (seconds : Z)           (* time.sleep *)
| LogInfo (msg : string)
| LogError (msg : string)
| Cursor                        (* connection.cursor() *)
| Execute (stmt : statement)    (* cursor.execute *)
| Commit
| Rollback
| CursorClose
| History (tkr : string).       (* stock.history(period="1d", interval="1m") *)

(** Answer of a database call: it returns, or raises [Error(msg)]. *)
Inductive answer := Succeeds | Fails (msg : string).

(** Answer of the provider: a table of bars (possibly empty) or an
    exception. *)
Inductive provider_answer :=
| Bars (rows : list bar)
| HistoryRaises (msg : string).

Inductive handle := MySQLConnection.

(** [durable] is the committed content of the database and [session] what
    the open connection sees, that is [durable] plus its uncommitted work
    (the connector leaves autocommit off).  [connects], [pings],
    [executes], [commits], [cursors] and [rollbacks] script the answers of
    [mysql.connector.connect], [is_connected], [cursor.execute], [commit],
    [connection.cursor] and [rollback] in call order; a call made after
    its script ran out succeeds.  [alive] is what the handle answered when
    it was last asked [is_connected()]: a handle that is not connected
    refuses [connection.cursor()] whatever the script says.  [history]
    gives the provider's answer to the n-th request, [curdate] is what
    CURDATE() evaluates to, and [journal] records the calls in the order
    they happen.  [cursor.close()] is taken not to fail. *)
Record world := {
  durable : tables;
  session : tables;
  connection : option handle;
  connects : list answer;
  pings : list bool;
  executes : list answer;
  commits : list answer;
  cursors : list answer;
  rollbacks : list answer;
  alive : bool;
  history : nat -> string -> provider_answer;
  fetches : nat;
  curdate : date;
  journal : list event
}.

Definition set_durable (t : tables) (w : world) : world :=
  {| durable := t; session := session w; connection := connection w;
     connects := connects w; pings := pings w; executes := executes w;
     commits := commits w; cursors := cursors w;
     rollbacks := rollbacks w; alive := alive w;
     history := history w; fetches := fetches w;
     curdate := curdate w; journal := journal w |}.

Definition set_session (t : tables) (w : world) : world :=
  {| durable := durable w; session := t; connection := connection w;
     connects := connects w; pings := pings w; executes := executes w;
     commits := commits w; cursors := cursors w;
     rollbacks := rollbacks w; alive := alive w;
     history := history w; fetches := fetches w;
     curdate := curdate w; journal := journal w |}.

Definition set_connection (c : option handle) (w : world) : world :=
  {| durable := durable w; session := session w; connection := c;
     connects := connects w; pings := pings w; executes := executes w;
     commits := commits w; cursors := cursors w;
     rollbacks := rollbacks w; alive := alive w;
     history := history w; fetches := fetches w;
     curdate := curdate w; journal := journal w |}.

Definition set_connects (s : list answer) (w : world) : world :=
  {| durable := durable w; session := session w; connection := connection w;
     connects := s; pings := pings w; executes := executes w;
     commits := commits w; cursors := cursors w;
     rollbacks := rollbacks w; alive := alive w;
     history := history w; fetches := fetches w;
     curdate := curdate w; journal := journal w |}.

Definition set_pings (s : list bool) (w : world) : world :=
  {| durable := durable w; session := session w; connection := connection w;
     connects := connects w; pings := s; executes := executes w;
     commits := commits w; cursors := cursors w;
     rollbacks := rollbacks w; alive := alive w;
     history := history w; fetches := fetches w;
     curdate := curdate w; journal := journal w |}.

Definition set_executes (s : list answer) (w : world) : world :=
  {| durable := durable w; session := session w; connection := connection w;
     connects := connects w; pings := pings w; executes := s;
     commits := commits w; cursors := cursors w;
     rollbacks := rollbacks w; alive := alive w;
     history := history w; fetches := fetches w;
     curdate := curdate w; journal := journal w |}.

Definition set_commits (s : list answer) (w : world) : world :=
  {| durable := durable w; session := session w; connection := connection w;
     connects := connects w; pings := pings w; executes := executes w;
     commits := s; cursors := cursors w;
     rollbacks := rollbacks w; alive := alive w;
     history := history w; fetches := fetches w;
     curdate := curdate w; journal := journal w |}.

Definition set_cursors (s : list answer) (w : world) : world :=
  {| durable := durable w; session := session w; connection := connection w;
     connects := connects w; pings := pings w; executes := executes w;
     commits := commits w; cursors := s;
     rollbacks := rollbacks w; alive := alive w;
     history := history w; fetches := fetches w;
     curdate := curdate w; journal := journal w |}.

Definition set_rollbacks (s : list answer) (w : world) : world :=
  {| durable := durable w; session := session w; connection := connection w;
     connects := connects w; pings := pings w; executes := executes w;
     commits := commits w; cursors := cursors w;
     rollbacks := s; alive := alive w;
     history := history w; fetches := fetches w;
     curdate := curdate w; journal := journal w |}.

Definition set_alive (b : bool) (w : world) : world :=
  {| durable := durable w; session := session w; connection := connection w;
     connects := connects w; pings := pings w; executes := executes w;
     commits := commits w; cursors := cursors w;
     rollbacks := rollbacks w; alive := b;
     history := history w; fetches := fetches w;
     curdate := curdate w; journal := journal w |}.

Definition set_fetches (n : nat) (w : world) : world :=
  {| durable := durable w; session := session w; connection := connection w;
     connects := connects w; pings := pings w; executes := executes w;
     commits := commits w; cursors := cursors w;
     rollbacks := rollbacks w; alive := alive w;
     history := history w; fetches := n;
     curdate := curdate w; journal := journal w |}.

Definition set_curdate (d : date) (w : world) : world :=
  {| durable := durable w; session := session w; connection := connection w;
     connects := connects w; pings := pings w; executes := executes w;
     commits := commits w; cursors := cursors w;
     rollbacks := rollbacks w; alive := alive w;
     history := history w; fetches := fetches w;
     curdate := d; journal := journal w |}.

Definition record (ev : event) (w : world) : world :=
  {| durable := durable w; session := session w; connection := connection w;
     connects := connects w; pings := pings w; executes := executes w;
     commits := commits w; cursors := cursors w;
     rollbacks := rollbacks w; alive := alive w;
     history := history w; fetches := fetches w;
     curdate := curdate w; journal := journal w ++ [ev] |}.

(** ** Computations that may raise *)

Inductive outcome (A : Type) :=
| Return (a : A)
| Raise (e : exn).
Arguments Return {A} a.
Arguments Raise {A} e.

Definition py (A : Type) : Type := world -> outcome A * world.

Definition ret {A} (a : A) : py A := fun w => (Return a, w).

Definition raise {A} (e : exn) : py A := fun w => (Raise e, w).

Definition bind {A B} (m : py A) (k : A -> py B) : py B :=
  fun w =>
    match m w with
    | (Return a, w1) => k a w1
    | (Raise e, w1) => (Raise e, w1)
    end.

Notation "x <- c1 ;; c2" := (bind c1 (fun x => c2))
  (at level 100, c1 at next level, right associativity).
Notation "c1 ;; c2" := (bind c1 (fun _ => c2))
  (at level 100, right associativity).

(** [try: body  except <class> as e: handler e]. *)
Definition try_except {A} (catches : exn -> bool)
    (body : py A) (handler : exn -> py A) : py A :=
  fun w =>
    match body w with
    | (Return a, w1) => (Return a, w1)
    | (Raise e, w1) => if catches e then handler e w1 else (Raise e, w1)
    end.

(** [try: body  finally: cleanup]: the cleanup runs on every exit and the
    pending result stands unless the cleanup itself raises. *)
Definition try_finally {A} (body : py A) (cleanup : py unit) : py A :=
  fun w =>
    match body w with
    | (o, w1) =>
        match cleanup w1 with
        | (Return _, w2) => (o, w2)
        | (Raise e, w2) => (Raise e, w2)
        end
    end.

Definition effect (ev : event) : py unit := fun w => (Return tt, record ev w).

Definition logging_info (msg : string) : py unit := effect (LogInfo msg).
Definition logging_error (msg : string) : py unit := effect (LogError msg).
Definition time_sleep (s : Z) : py unit := effect (Sleep s).

(** The next scripted answer; a script that ran out answers [default]. *)
Definition next {A} (default : A) (script : list A) : A * list A :=
  match script with
  | [] => (default, [])
  | a :: rest => (a, rest)
  end.

(** ** The aggregate statement of [update_profit_statistics]

    MySQL evaluates the SELECT on the rows the session sees and feeds every
    result row to the INSERT ... ON DUPLICATE KEY UPDATE. *)
Module Sql.

(** Division by [/] of two exact values whose dividend has scale 0: the
    result is a DECIMAL with [div_precision_increment] = 4 fractional
    digits, rounded half up (the operands here are counts, never
    negative). *)
Definition div_precision_increment : Z := 4.

Definition div (a b : Z) : decimal :=
  {| unscaled :=
       (2 * (a * 10 ^ div_precision_increment) + b) / (2 * b);
     scale := div_precision_increment |}.

(** Product of a DECIMAL and an integer literal. *)
Definition mul (d : decimal) (n : Z) : decimal :=
  {| unscaled := unscaled d * n; scale := scale d |}.

(** The rows of one GROUP BY group. *)
Definition group (t : string) (rows : list detail_row) : list detail_row :=
  filter (fun r => sd_ticker r = t) rows.

(** COUNT( * ). *)
Definition count (g : list detail_row) : Z := Z.of_nat (length g).

(** SUM(CASE WHEN profit_loss = label THEN 1 ELSE 0 END). *)
Definition sum_case (label : string) (g : list detail_row) : Z :=
  Z.of_nat (length (filter (fun r => profit_loss r = label) g)).

(** The select list, evaluated on one group. *)
Definition select_row (today : date) (g : list detail_row) : stat_row :=
  {| total_days := count g;
     profit_days := sum_case "profit" g;
     loss_days := sum_case "loss" g;
     profit_probability := mul (div (sum_case "profit" g) (count g)) 100;
     last_calculated := today |}.

(** SELECT ... FROM StockDetails GROUP BY ticker: one row per distinct
    ticker. *)
Definition select_grouped (today : date) (rows : list detail_row)
  : list (string * stat_row) :=
  map (fun t => (t, select_row today (group t rows)))
      (remove_dups (map sd_ticker rows)).

(** INSERT ... ON DUPLICATE KEY UPDATE of one row: a new ticker gets a
    row, an existing ticker has all five value columns overwritten. *)
Definition upsert (ps : gmap string stat_row) (kv : string * stat_row)
  : gmap string stat_row :=
  <[fst kv := snd kv]> ps.

Definition insert_select (today : date) (t : tables) : tables :=
  {| StockDetails := StockDetails t;
     ProfitStatistics :=
       foldl upsert (ProfitStatistics t)
             (select_grouped today (StockDetails t)) |}.

(** INSERT INTO StockDetails ... VALUES (...). *)
Definition insert_values (v : detail_row) (t : tables) : tables :=
  {| StockDetails := StockDetails t ++ [v];
     ProfitStatistics := ProfitStatistics t |}.

End Sql.

(** ** Calls into the connector, the provider and the clock *)

(** [mysql.connector.connect(...)]: returns a fresh handle, whose session
    starts from the committed state, or raises [Error]. *)
Definition mysql_connector_connect : py handle :=
  fun w =>
    let w1 := record Connect w in
    match next Succeeds (connects w1) with
    | (Succeeds, rest) =>
        (Return MySQLConnection,
         set_alive true (set_session (durable w1) (set_connects rest w1)))
    | (Fails msg, rest) => (Raise (Error msg), set_connects rest w1)
    end.

(** [self.connection.is_connected()]. *)
Definition is_connected : py bool :=
  fun w =>
    match next true (pings w) with
    | (b, rest) => (Return b, set_alive b (set_pings rest w))
    end.

(** [self.connection.cursor()]: returns a cursor, or raises [Error].  The
    connector checks the connection first, and a handle that is not
    connected is refused with the message below. *)
Definition connection_cursor : py unit :=
  fun w =>
    let w1 := record Cursor w in
    if alive w1 then
      match next Succeeds (cursors w1) with
      | (Succeeds, rest) => (Return tt, set_cursors rest w1)
      | (Fails msg, rest) => (Raise (Error msg), set_cursors rest w1)
      end
    else (Raise (Error "MySQL Connection not available."), w1).

Definition run_statement (stmt : statement) (w : world) : tables :=
  match stmt with
  | InsertStockDetails v => Sql.insert_values v (session w)
  | UpsertProfitStatistics => Sql.insert_select (curdate w) (session w)
  end.

(** [cursor.execute(query, values)]: a failing statement changes nothing. *)
Definition cursor_execute (stmt : statement) : py unit :=
  fun w =>
    let w1 := record (Execute stmt) w in
    match next Succeeds (executes w1) with
    | (Succeeds, rest) =>
        (Return tt, set_session (run_statement stmt w1) (set_executes rest w1))
    | (Fails msg, rest) => (Raise (Error msg), set_executes rest w1)
    end.

(** [self.connection.commit()]: makes the session's work durable, or
    raises and leaves the committed state as it was. *)
Definition connection_commit : py unit :=
  fun w =>
    let w1 := record Commit w in
    match next Succeeds (commits w1) with
    | (Succeeds, rest) =>
        (Return tt, set_durable (session w1) (set_commits rest w1))
    | (Fails msg, rest) => (Raise (Error msg), set_commits rest w1)
    end.

(** [self.connection.rollback()]: drops the session's uncommitted work,
    or raises [Error] and leaves the session as it is. *)
Definition connection_rollback : py unit :=
  fun w =>
    let w1 := record Rollback w in
    match next Succeeds (rollbacks w1) with
    | (Succeeds, rest) =>
        (Return tt, set_session (durable w1) (set_rollbacks rest w1))
    | (Fails msg, rest) => (Raise (Error msg), set_rollbacks rest w1)
    end.

Definition cursor_close : py unit := effect CursorClose.

(** [yf.Ticker(ticker).history(period="1d", interval="1m")]. *)
Definition stock_history (tkr : string) : py (list bar) :=
  fun w =>
    let w1 := set_fetches (S (fetches w)) (record (History tkr) w) in
    match history w (fetches w) tkr with
    | Bars rows => (Return rows, w1)
    | HistoryRaises msg => (Raise (ProviderError msg), w1)
    end.

(** ** class DatabaseManager *)

Definition max_retries : nat := 3.
Definition retry_delay : Z := 5.

(** The body of [for attempt in range(max_retries)] in [connect], over the
    attempts still to make.  [return] leaves the loop and the function;
    when the loop runs out the function ends and returns [None]. *)
Fixpoint connect_attempts (attempts : list nat) : py unit :=
  match attempts with
  | [] => ret tt
  | attempt :: rest =>
      alive <-
        try_except is_Error
          (c <- mysql_connector_connect ;;
           (fun w => (Return tt, set_connection (Some c) w)) ;;
           connected <- is_connected ;;
           if connected
           then logging_info "Successfully connected to MySQL database" ;;
                ret true
           else ret false)
          (fun e =>
             logging_error
               ("Attempt " +:+ pretty (attempt + 1)%nat +:+ " failed: " +:+ str e) ;;
             if (attempt <? max_retries - 1)%nat
             then time_sleep retry_delay ;; ret false
             else raise (Exception
                      "Failed to connect to database after maximum retries")) ;;
      if alive then ret tt else connect_attempts rest
  end.

Definition connect : py unit := connect_attempts (seq 0 max_retries).

(** [self.connection is None or not self.connection.is_connected()]. *)
Definition connection_unusable : py bool :=
  fun w =>
    match connection w with
    | None => (Return true, w)
    | Some _ => (c <- is_connected ;; ret (negb c)) w
    end.

Definition reconnect_if_needed : py unit :=
  stale <- connection_unusable ;;
  if stale then connect else ret tt.

(** Lines 70-81: the tuple bound to the INSERT's placeholders.  Python's
    float division raises when the divisor is zero. *)
Definition insert_values_of (row : df_row) : py detail_row :=
  if PyFloat.is_zero (Open row)
  then raise (ZeroDivisionError "float division by zero")
  else
    let percentage_change :=
      PyFloat.mul
        (PyFloat.div (PyFloat.sub (Close row) (Open row)) (Open row))
        (PyFloat.of_Z 100) in
    let profit_loss :=
      if PyFloat.gt (Close row) (Open row) then "profit" else "loss" in
    ret {| sd_ticker := ticker row;
           sd_date := date_col row;
           open_price := Open row;
           close_price := Close row;
           volume := Volume row;
           percentage_change := PyFloat.round2 percentage_change;
           profit_loss := profit_loss |}.

(** [for _, row in df.iterrows(): ...].  The result is the binding of the
    variable [row] when the loop ends: the last row, or nothing if the
    loop body never ran. *)
Fixpoint iterrows (df : DataFrame) (row : option df_row) : py (option df_row) :=
  match df with
  | [] => ret row
  | r :: rest =>
      values <- insert_values_of r ;;
      cursor_execute (InsertStockDetails values) ;;
      iterrows rest (Some r)
  end.

(** The statement shared by the two methods below:

      try:
          cursor = self.connection.cursor()
          body
      except Error as e:
          handler
      finally:
          cursor.close()

    The local name [cursor] is bound once [cursor()] has returned.  When
    [cursor()] raises, the handler runs and the [finally] clause then reads
    a name that was never bound: it raises [UnboundLocalError], which
    replaces the exception on its way out. *)
Definition with_cursor {A} (body : py A) (handler : exn -> py A) : py A :=
  fun w =>
    match connection_cursor w with
    | (Return _, w1) =>
        try_finally (try_except is_Error body handler) cursor_close w1
    | (Raise e, w1) =>
        try_finally (try_except is_Error (raise e) handler)
          (raise (UnboundLocalError
             "cannot access local variable 'cursor' where it is not associated with a value"))
          w1
    end.

Definition save_stock_details (df : DataFrame) : py unit :=
  reconnect_if_needed ;;
  with_cursor
    (row <- iterrows df None ;;
     connection_commit ;;
     match row with
     | Some r =>
         logging_info ("Successfully saved stock details for " +:+ ticker r)
     | None =>
         raise (UnboundLocalError
           "cannot access local variable 'row' where it is not associated with a value")
     end)
    (fun e =>
       logging_error ("Error saving stock details: " +:+ str e) ;;
       connection_rollback ;;
       raise e).

Definition update_profit_statistics : py unit :=
  reconnect_if_needed ;;
  with_cursor
    (cursor_execute UpsertProfitStatistics ;;
     connection_commit ;;
     logging_info "Successfully updated profit statistics")
    (fun e =>
       logging_error ("Error updating profit statistics: " +:+ str e) ;;
       connection_rollback ;;
       raise e).

(** ** class StockAnalyzer *)

Definition with_columns (tkr : string) (b : bar) : df_row :=
  {| Datetime := (bar_date b, bar_time b);
     Open := bar_Open b;
     Close := bar_Close b;
     Volume := bar_Volume b;
     ticker := tkr;
     date_col := bar_date b;
     time_col := bar_time b |}.

Definition get_stock_data (tkr : string) : py (option DataFrame) :=
  try_except (fun _ => true)
    (df <- stock_history tkr ;;
     match df with
     | [] => ret None
     | _ :: _ => ret (Some (map (with_columns tkr) df))
     end)
    (fun e =>
       logging_error ("Error fetching data for " +:+ tkr +:+ ": " +:+ str e) ;;
       ret None).

(** [for ticker in tickers: ...] of [analyze_stocks]. *)
Fixpoint for_each_ticker (tickers : list string) : py unit :=
  match tickers with
  | [] => ret tt
  | tkr :: rest =>
      df <- get_stock_data tkr ;;
      match df with
      | Some df => save_stock_details df
      | None => ret tt
      end ;;
      for_each_ticker rest
  end.

Definition analysis (tickers : list string) : py (bool * string) :=
  for_each_ticker tickers ;;
  update_profit_statistics ;;
  ret (true, "Analysis completed successfully").

Definition analyze_stocks (tickers : list string) : py (bool * string) :=
  try_except (fun _ => true)
    (analysis tickers)
    (fun e =>
       let error_msg := "Analysis failed: " +:+ str e in
       logging_error error_msg ;;
       ret (false, error_msg)).

(** ** Vocabulary of the properties *)

(** The tuple built from a row whose [Open] is not zero. *)
Definition values_of (row : df_row) : detail_row :=
  {| sd_ticker := ticker row;
     sd_date := date_col row;
     open_price := Open row;
     close_price := Close row;
     volume := Volume row;
     percentage_change :=
       PyFloat.round2
         (PyFloat.mul
            (PyFloat.div (PyFloat.sub (Close row) (Open row)) (Open row))
            (PyFloat.of_Z 100));
     profit_loss :=
       if PyFloat.gt (Close row) (Open row) then "profit" else "loss" |}.

(** The labelling and rounding rules for one stored row. *)
Definition label_matches_prices (v : detail_row) : Prop :=
  (profit_loss v = "profit" <-> PyFloat.gt (close_price v) (open_price v) = true)
  /\ (PyFloat.gt (close_price v) (open_price v) = false -> profit_loss v = "loss")
  /\ (PyFloat.eqb (close_price v) (open_price v) = true -> profit_loss v = "loss").

Definition change_is_rounded (v : detail_row) : Prop :=
  percentage_change v =
    PyFloat.round2
      (PyFloat.mul
         (PyFloat.div (PyFloat.sub (close_price v) (open_price v))
            (open_price v))
         (PyFloat.of_Z 100)).

Definition well_labelled (v : detail_row) : Prop :=
  profit_loss v = "profit" \/ profit_loss v = "loss".


(** The i-th answer a script gives (a script that ran out succeeds). *)
Definition answer_at (i : nat) (script : list answer) : answer :=
  nth i script Succeeds.

(** The tuples passed to INSERT INTO StockDetails, in journal order. *)
Definition inserts_of (evs : list event) : list detail_row :=
  flat_map (fun ev =>
              match ev with
              | Execute (InsertStockDetails v) => [v]
              | _ => []
              end) evs.

Definition insert_event (v : detail_row) : event :=
  Execute (InsertStockDetails v).

(** An event of establishing the connection. *)
Definition connection_event (ev : event) : Prop :=
  match ev with
  | Connect | Sleep _ | LogInfo _ | LogError _ => True
  | _ => False
  end.

(** What (re)connecting may change: the handle, the scripts of
    [connect] and [is_connected], the journal, and the session, which
    starts again from the committed state when a new handle is made. *)
Definition reconnected (w w' : world) : Prop :=
  durable w' = durable w /\
  executes w' = executes w /\
  commits w' = commits w /\
  history w' = history w /\
  fetches w' = fetches w /\
  curdate w' = curdate w /\
  (session w' = session w \/ session w' = durable w) /\
  exists evs, journal w' = journal w ++ evs /\ Forall connection_event evs.

Definition nonzero_open (row : df_row) : Prop :=
  PyFloat.is_zero (Open row) = false.

(** The world after [cursor.execute(stmt)] returned, and after it
    raised. *)
Definition executed (stmt : statement) (w : world) : world :=
  set_session (run_statement stmt w)
    (set_executes (tl (executes w)) (record (Execute stmt) w)).

Definition execute_failed (stmt : statement) (w : world) : world :=
  set_executes (tl (executes w)) (record (Execute stmt) w).

(** The world after the INSERTs of the tuples [vs] all returned. *)
Definition after_inserts (vs : list detail_row) (w : world) : world :=
  fold_left (fun w v => executed (InsertStockDetails v) w) vs w.

(** The binding of the loop variable [row] after iterating over [df]. *)
Definition last_bound (df : DataFrame) (row : option df_row) : option df_row :=
  fold_left (fun _ r => Some r) df row.

(** The world after [commit()] returned, and after it raised. *)
Definition committed (w : world) : world :=
  set_durable (session w) (set_commits (tl (commits w)) (record Commit w)).

Definition commit_failed (w : world) : world :=
  set_commits (tl (commits w)) (record Commit w).

(** What [connection.cursor()] answers in [w], and the world after the
    call. *)
Definition cursor_answer (w : world) : answer :=
  if alive w then answer_at 0 (cursors w)
  else Fails "MySQL Connection not available.".

Definition cursor_called (w : world) : world :=
  set_cursors (if alive w then tl (cursors w) else cursors w)
    (record Cursor w).

(** The world after [rollback()] was called: the session is back at the
    committed state when the call returned, and as it was when it raised. *)
Definition rolled_back (w : world) : world :=
  set_session
    (match answer_at 0 (rollbacks w) with
     | Succeeds => durable w
     | Fails _ => session w
     end)
    (set_rollbacks (tl (rollbacks w)) (record Rollback w)).

(** What leaves an [except Error] handler entered with [Error(msg)] in
    [w]: that error again, or the error of the rollback. *)
Definition reraised (msg : string) (w : world) : exn :=
  match answer_at 0 (rollbacks w) with
  | Succeeds => Error msg
  | Fails msg' => Error msg'
  end.

(** The world after the [except Error] branch and the [finally] clause of
    [save_stock_details], entered in [w] with the error message [msg]. *)
Definition save_rolled_back (msg : string) (w : world) : world :=
  record CursorClose
    (rolled_back
       (record (LogError ("Error saving stock details: " +:+ msg)) w)).

(** The same when [cursor()] itself raised [Error(msg)]: there is no
    cursor to close. *)
Definition save_without_cursor (msg : string) (w : world) : world :=
  rolled_back
    (record (LogError ("Error saving stock details: " +:+ msg))
       (cursor_called w)).

Definition unbound_row : exn :=
  UnboundLocalError
    "cannot access local variable 'row' where it is not associated with a value".

Definition unbound_cursor : exn :=
  UnboundLocalError
    "cannot access local variable 'cursor' where it is not associated with a value".

(** ** Sample data *)

Definition jan_2 : date := {| year := 2024; month := 1; day := 2 |}.
Definition jan_3 : date := {| year := 2024; month := 1; day := 3 |}.
Definition opening : time := {| hour := 9; minute := 30; second := 0 |}.

Definition sample_bar (o c v : Z) : bar :=
  {| bar_date := jan_2; bar_time := opening;
     bar_Open := PyFloat.of_Z o; bar_Close := PyFloat.of_Z c;
     bar_Volume := v |}.

(** AAPL bars: up from 100 to 110, flat at 100, down from 110 to 100, and
    a bar whose open is 0.0. *)
Definition row_up : df_row := with_columns "AAPL" (sample_bar 100 110 5000).
Definition row_flat : df_row := with_columns "AAPL" (sample_bar 100 100 700).
Definition row_down : df_row := with_columns "AAPL" (sample_bar 110 100 900).
Definition row_zero : df_row := with_columns "AAPL" (sample_bar 0 5 10).

Definition no_tables : tables :=
  {| StockDetails := []; ProfitStatistics := ∅ |}.

(** A provider that knows AAPL and MSFT, has no bars for IDLE and fails
    for every other ticker. *)
Definition sample_history (n : nat) (tkr : string) : provider_answer :=
  if String.eqb tkr "AAPL" then
    Bars [sample_bar 100 110 5000; sample_bar 110 100 900;
          sample_bar 100 100 700]
  else if String.eqb tkr "MSFT" then Bars [sample_bar 300 330 100]
  else if String.eqb tkr "IDLE" then Bars []
  else HistoryRaises "No data found, symbol may be delisted".

(** A fresh process: empty database, no handle yet, a server and a
    provider that answer. *)
Definition fresh_world : world :=
  {| durable := no_tables; session := no_tables; connection := None;
     connects := []; pings := []; executes := []; commits := [];
     cursors := []; rollbacks := []; alive := true;
     history := sample_history; fetches := 0; curdate := jan_2;
     journal := [] |}.

(** The same with a live handle. *)
Definition connected_world : world :=
  set_connection (Some MySQLConnection) fresh_world.

(** The world after the [except Error] branch and the [finally] clause of
    [update_profit_statistics]. *)
Definition update_rolled_back (msg : string) (w : world) : world :=
  record CursorClose
    (rolled_back
       (record (LogError ("Error updating profit statistics: " +:+ msg)) w)).

Definition update_without_cursor (msg : string) (w : world) : world :=
  rolled_back
    (record (LogError ("Error updating profit statistics: " +:+ msg))
       (cursor_called w)).

(** The columns of a [ProfitStatistics] row that the aggregate computes
    from the data alone. *)
Definition computed_fields (s : stat_row) : Z * Z * Z * decimal :=
  (total_days s, profit_days s, loss_days s, profit_probability s).

Definition with_last_calculated (d : date) (s : stat_row) : stat_row :=
  {| total_days := total_days s;
     profit_days := profit_days s;
     loss_days := loss_days s;
     profit_probability := profit_probability s;
     last_calculated := d |}.

(** The tickers that occur in a StockDetails table. *)
Definition tickers_of (rows : list detail_row) : list string :=
  map sd_ticker rows.

(** A database that holds three committed AAPL rows. *)
Definition stocked_world : world :=
  snd (save_stock_details [row_up; row_flat; row_down] connected_world).

Definition aapl_statistics (d : date) : stat_row :=
  {| total_days := 3; profit_days := 1; loss_days := 2;
     profit_probability := {| unscaled := 333300; scale := 4 |};
     last_calculated := d |}.

(** The world after the provider answered the request for [tkr]. *)
Definition fetched (tkr : string) (w : world) : world :=
  set_fetches (S (fetches w)) (record (History tkr) w).

Definition fetch_error_line (tkr msg : string) : string :=
  "Error fetching data for " +:+ tkr +:+ ": " +:+ msg.

Definition failure_message (e : exn) : string :=
  "Analysis failed: " +:+ str e.

Definition connect_failure : exn :=
  Exception "Failed to connect to database after maximum retries".

(** Number of calls of [mysql.connector.connect] among some events. *)
Definition is_Connect (ev : event) : bool :=
  match ev with Connect => true | _ => false end.

Definition connect_calls (evs : list event) : nat :=
  length (List.filter is_Connect evs).

(** Every row of the database, committed or not, carries one of the two
    labels. *)
Definition labelled_world (w : world) : Prop :=
  Forall well_labelled (StockDetails (durable w)) /\
  Forall well_labelled (StockDetails (session w)).

(** The world after an attempt of [connect] that obtained a handle which
    is not connected. *)
Definition dead_handle (w : world) : world :=
  set_alive false
    (set_pings (tl (pings w))
       (set_connection (Some MySQLConnection)
          (set_session (durable w)
             (set_connects (tl (connects w)) (record Connect w))))).

(** * Further vocabulary *)

(** The events of [attempts] failed attempts of [connect], the first of
    them being attempt number [attempt + 1]. *)
Fixpoint failed_attempts (attempt : nat) (msgs : list string) : list event :=
  match msgs with
  | [] => []
  | m :: ms =>
      [Connect;
       LogError ("Attempt " +:+ pretty (attempt + 1)%nat +:+ " failed: " +:+ m);
       Sleep retry_delay]
      ++ failed_attempts (S attempt) ms
  end.

(** The tickers requested from the provider, in journal order. *)
Definition histories_of (evs : list event) : list string :=
  flat_map (fun ev => match ev with History t => [t] | _ => [] end) evs.

(** Events that settle a batch after its INSERTs. *)
Definition settling_event (ev : event) : Prop :=
  match ev with
  | Commit | Rollback | LogInfo _ | LogError _ => True
  | _ => False
  end.

(** Events of the database side: everything but a request to the
    provider. *)
Definition storage_event (ev : event) : Prop :=
  match ev with
  | History _ => False
  | _ => True
  end.

(** The session's StockDetails is the committed table followed by the
    rows not yet committed. *)
Definition session_extends_durable (w : world) : Prop :=
  exists pending,
    StockDetails (session w) = StockDetails (durable w) ++ pending.

(** [DatabaseManager.__init__]: the attribute starts as [None], then
    [connect()] runs. *)
Definition DatabaseManager_init : py unit :=
  (fun w => (Return tt, set_connection None w)) ;;
  connect.

(** [StockAnalyzer.__init__] builds its own [DatabaseManager]. *)
Definition StockAnalyzer_init : py unit := DatabaseManager_init.

(** The committed StockDetails of [w'] is that of [w] with rows added at
    the end. *)
Definition appended_to (w w' : world) : Prop :=
  exists added,
    StockDetails (durable w') = StockDetails (durable w) ++ added.

(** Events of a fetch: the request and, when it failed, the log line. *)
Definition provider_event (ev : event) : Prop :=
  match ev with
  | History _ | LogError _ => True
  | _ => False
  end.

(** The provider has nothing for [tkr], whenever it is asked. *)
Definition no_data (w : world) (tkr : string) : Prop :=
  forall n, history w n tkr = Bars [] \/
            exists msg, history w n tkr = HistoryRaises msg.

(** * Reporting and the command line *)

(** ** Python strings

    The functions of [str] that the script uses, for ASCII text: a
    character is one of the 128 ASCII characters, and on those the
    functions below do what Python does.  Python's treatment of the rest
    of Unicode (white space such as U+00A0, case mappings such as that of
    U+00DF) is outside this model, and the properties of the user's answer
    are stated for ASCII answers. *)
Module PyStr.

Definition chars := list ascii.

Definition code (c : ascii) : nat := nat_of_ascii c.

(** [c.isspace()]: tab, line feed, vertical tab, form feed, carriage
    return, the four separators 28..31, and the space. *)
Definition isspace (c : ascii) : bool :=
  ((9 <=? code c) && (code c <=? 13) || (28 <=? code c) && (code c <=? 32))%nat.

Definition lower_char (c : ascii) : ascii :=
  if ((65 <=? code c) && (code c <=? 90))%nat
  then ascii_of_nat (code c + 32) else c.

Definition upper_char (c : ascii) : ascii :=
  if ((97 <=? code c) && (code c <=? 122))%nat
  then ascii_of_nat (code c - 32) else c.

Definition lower (s : chars) : chars := map lower_char s.
Definition upper (s : chars) : chars := map upper_char s.

Fixpoint lstrip (s : chars) : chars :=
  match s with
  | [] => []
  | c :: s' => if isspace c then lstrip s' else s
  end.

Definition rstrip (s : chars) : chars := rev (lstrip (rev s)).

(** [s.strip()]. *)
Definition strip (s : chars) : chars := rstrip (lstrip s).

(** [s.split(sep)] for a one-character separator: the pieces between the
    separators, empty pieces included; never an empty list. *)
Fixpoint split (sep : ascii) (s : chars) : list chars :=
  match s with
  | [] => [[]]
  | c :: s' =>
      if Ascii.eqb c sep then [] :: split sep s'
      else match split sep s' with
           | piece :: pieces => (c :: piece) :: pieces
           | [] => [[c]]
           end
  end.

(** [sep.join(pieces)]. *)
Fixpoint join (sep : chars) (pieces : list chars) : chars :=
  match pieces with
  | [] => []
  | [p] => p
  | p :: ps => p ++ sep ++ join sep ps
  end.

(** [s.ljust(width)], which is what the format [:<width] does. *)
Definition ljust (width : nat) (s : chars) : chars :=
  s ++ repeat " "%char (width - length s).

(** [s.isascii()]. *)
Definition isascii (s : chars) : bool :=
  forallb (fun c => (code c <? 128)%nat) s.

End PyStr.

Definition chars_of (s : string) : PyStr.chars := String.list_ascii_of_string s.
Definition string_of (s : PyStr.chars) : string := String.string_of_list_ascii s.

(** Lines 206-209: the tickers chosen by the user's answer. *)
Definition select_tickers (user_input : string) (available_stocks : list string)
  : list string :=
  if String.eqb (string_of (PyStr.strip (PyStr.lower (chars_of user_input))))
                "all"
  then available_stocks
  else map (fun tkr => string_of (PyStr.upper (PyStr.strip tkr)))
           (PyStr.split ","%char (chars_of user_input)).

(** ** Formatting the statistics table *)

(** [format(d, '.2f')] for a [Decimal]: two digits after the point,
    rounded half to even, with the sign of [d]. *)
Definition format_2f (d : decimal) : string :=
  let hundredths :=
    PyFloat.div_half_even (Z.abs (unscaled d) * 100)
                          (Z.pos (Z.to_pos (10 ^ scale d))) in
  let cents := hundredths mod 100 in
  (if unscaled d <? 0 then "-" else "")
  +:+ pretty (hundredths / 100) +:+ "."
  +:+ (if cents <? 10 then "0" else "") +:+ pretty cents.

Definition ljust (width : nat) (s : string) : string :=
  string_of (PyStr.ljust width (chars_of s)).

Definition header_line : string :=
  ljust 10 "Ticker" +:+ " " +:+ ljust 12 "Total Days" +:+ " "
  +:+ ljust 12 "Profit Days" +:+ " " +:+ ljust 12 "Loss Days" +:+ " "
  +:+ ljust 15 "Profit Probability".

(** The line printed for one row of ProfitStatistics. *)
Definition stat_line (stat : string * stat_row) : string :=
  ljust 10 (fst stat) +:+ " "
  +:+ ljust 12 (pretty (total_days (snd stat))) +:+ " "
  +:+ ljust 12 (pretty (profit_days (snd stat))) +:+ " "
  +:+ ljust 12 (pretty (loss_days (snd stat))) +:+ " "
  +:+ format_2f (profit_probability (snd stat)) +:+ "%".

Definition rule (c : ascii) : string := string_of (repeat c 80).

Definition title_line : string :=
  String "010"%char "Stock Performance Statistics:".

Definition table_header : list string :=
  [title_line; rule "="%char; header_line; rule "-"%char].

(** ** Queries *)

Definition probability (stat : string * stat_row) : Q :=
  decimal_value (profit_probability (snd stat)).

(** ORDER BY profit_probability DESC.  MySQL leaves the order of rows
    with equal keys open; the insertion used here is one such order. *)
Fixpoint insert_desc (stat : string * stat_row)
    (sorted : list (string * stat_row)) : list (string * stat_row) :=
  match sorted with
  | [] => [stat]
  | s :: rest =>
      if Qle_bool (probability s) (probability stat)
      then stat :: sorted
      else s :: insert_desc stat rest
  end.

Definition order_by_probability_desc (rows : list (string * stat_row))
  : list (string * stat_row) :=
  foldr insert_desc [] rows.

(** SELECT * FROM ProfitStatistics ORDER BY profit_probability DESC. *)
Definition select_statistics (t : tables) : list (string * stat_row) :=
  order_by_probability_desc (map_to_list (ProfitStatistics t)).

(** SELECT DISTINCT ticker FROM StockDetails (in some order). *)
Definition select_distinct_tickers (t : tables) : list string :=
  remove_dups (map sd_ticker (StockDetails t)).

Inductive query :=
| SelectProfitStatistics
| SelectDistinctTickers.

(** ** The process: the world, what was printed, and the queries run *)

Record process := {
  db : world;
  stdout : list string;     (* one entry per [print] call or prompt *)
  queries : list query
}.

Definition io (A : Type) : Type := process -> outcome A * process.

Definition io_ret {A} (a : A) : io A := fun p => (Return a, p).

Definition io_bind {A B} (m : io A) (k : A -> io B) : io B :=
  fun p =>
    match m p with
    | (Return a, p1) => k a p1
    | (Raise e, p1) => (Raise e, p1)
    end.

Definition with_db (w : world) (p : process) : process :=
  {| db := w; stdout := stdout p; queries := queries p |}.

(** A computation on the world, run inside the process. *)
Definition lift {A} (m : py A) : io A :=
  fun p => match m (db p) with (o, w) => (o, with_db w p) end.

Definition io_try_except {A} (catches : exn -> bool)
    (body : io A) (handler : exn -> io A) : io A :=
  fun p =>
    match body p with
    | (Return a, p1) => (Return a, p1)
    | (Raise e, p1) => if catches e then handler e p1 else (Raise e, p1)
    end.

Definition print (line : string) : io unit :=
  fun p =>
    (Return tt,
     {| db := db p; stdout := stdout p ++ [line]; queries := queries p |}).

(** [cursor.execute] of a SELECT: it reads, so the session is unchanged;
    like any statement it may raise [Error]. *)
Definition cursor_execute_query (q : query) : io unit :=
  fun p =>
    let p1 := {| db := db p; stdout := stdout p;
                 queries := queries p ++ [q] |} in
    match next Succeeds (executes (db p)) with
    | (Succeeds, rest) => (Return tt, with_db (set_executes rest (db p)) p1)
    | (Fails msg, rest) =>
        (Raise (Error msg), with_db (set_executes rest (db p)) p1)
    end.

(** A manager that lives in a local variable: the function works on its
    own handle, and when it ends the manager of the caller is the current
    one again, with its handle, the state of that handle and the session
    it had. *)
Definition local_manager {A} (body : io A) : io A :=
  fun p =>
    match body (with_db (set_connection None (db p)) p) with
    | (o, p1) =>
        (o, with_db (set_alive (alive (db p))
                       (set_session (session (db p))
                          (set_connection (connection (db p)) (db p1)))) p1)
    end.

Module Console.

Declare Scope io_scope.
Notation "x <- c1 ;; c2" := (io_bind c1 (fun x => c2))
  (at level 100, c1 at next level, right associativity) : io_scope.
Notation "c1 ;; c2" := (io_bind c1 (fun _ => c2))
  (at level 100, right associativity) : io_scope.
Local Open Scope io_scope.

(** [for stat in stats: print(...)]. *)
Fixpoint print_stats (stats : list (string * stat_row)) : io unit :=
  match stats with
  | [] => io_ret tt
  | stat :: rest => print (stat_line stat) ;; print_stats rest
  end.

Definition display_stock_stats : io unit :=
  local_manager
    (io_try_except is_Error
       (lift DatabaseManager_init ;;
        lift connection_cursor ;;
        cursor_execute_query SelectProfitStatistics ;;
        stats <- (fun p => (Return (select_statistics (session (db p))), p)) ;;
        print title_line ;;
        print (rule "="%char) ;;
        print header_line ;;
        print (rule "-"%char) ;;
        print_stats stats ;;
        lift cursor_close)
       (fun e =>
          lift (logging_error ("Error displaying statistics: " +:+ str e)))).

Definition prompt : string :=
  String "010"%char
    "Enter stock tickers to analyze (comma-separated) or 'all' for all stocks: ".

Definition available_line (available_stocks : list string) : string :=
  "Available stocks: "
  +:+ string_of (PyStr.join (chars_of ", ") (map chars_of available_stocks)).

(** [input(prompt)]: writes the prompt and returns the next line of
    standard input, or raises [EOFError] when standard input is at its
    end. *)
Definition input (stdin : option string) (prompt : string) : io string :=
  print prompt ;;
  match stdin with
  | Some line => io_ret line
  | None => fun p => (Raise (EOFError "EOF when reading a line"), p)
  end.

(** The block under [if __name__ == "__main__"]; [stdin] is the line that
    standard input holds, if any. *)
Definition main (stdin : option string) : io unit :=
  lift DatabaseManager_init ;;
  lift connection_cursor ;;
  cursor_execute_query SelectDistinctTickers ;;
  available_stocks <-
    (fun p => (Return (select_distinct_tickers (session (db p))), p)) ;;
  lift cursor_close ;;
  print (available_line available_stocks) ;;
  user_input <- input stdin prompt ;;
  let tickers := select_tickers user_input available_stocks in
  lift StockAnalyzer_init ;;
  result <- lift (analyze_stocks tickers) ;;
  print (snd result) ;;
  if fst result then display_stock_stats else io_ret tt.

End Console.

Definition start (w : world) : process :=
  {| db := w; stdout := []; queries := [] |}.

(** White space only. *)
Definition blank (s : PyStr.chars) : Prop :=
  Forall (fun c => PyStr.isspace c = true) s.

(** Number of commas in the user's answer. *)
Definition commas (s : PyStr.chars) : nat :=
  length (List.filter (fun c => Ascii.eqb c ","%char) s).

(** A ticker as [select_tickers] hands it on: nothing to strip, nothing
    to put in upper case, and no comma inside. *)
Definition normalised (tkr : string) : Prop :=
  PyStr.strip (chars_of tkr) = chars_of tkr /\
  PyStr.upper (chars_of tkr) = chars_of tkr /\
  ~ In ","%char (chars_of tkr).

(** The caller's manager again: its handle and its session, in the world
    a local manager has left. *)
Definition restored (p : process) (w : world) : world :=
  set_alive (alive (db p))
    (set_session (session (db p)) (set_connection (connection (db p)) w)).

(** The log line of [display_stock_stats] for a failed query. *)
Definition display_error_line (msg : string) : event :=
  LogError ("Error displaying statistics: " +:+ msg).

(** The lines of the table for the committed statistics of [w]. *)
Definition statistics_table (w : world) : list string :=
  table_header ++ map stat_line (select_statistics (durable w)).

(** A database that holds the committed statistics of [stocked_world]
    after one recompute. *)
Definition analysed_world : world :=
  snd (update_profit_statistics stocked_world).

(** A connection that is lost and cannot be made again: the handle, and
    every handle [connect] obtains, answers [is_connected()] with false. *)
Definition dead_connection (w : world) : world :=
  set_pings [false; false; false; false] w.

(** No server answers: every attempt to connect fails. *)
Definition unreachable (w : world) : world :=
  set_connects [Fails "down"; Fails "down"; Fails "down"] w.

(** The world in which the analyzer of the main block is built: the
    first manager has run its query for the tickers and closed its
    cursor. *)
Definition listed (rest : list answer) (w : world) : world :=
  record CursorClose (set_executes rest (cursor_called w)).

(** What the main block has printed when the analysis starts. *)
Definition greeting (available_stocks : list string) : list string :=
  [Console.available_line available_stocks; Console.prompt].
(** * Properties *)

(** ** Python floats *)

Example round2_10 :
  PyFloat.round2
    (PyFloat.mul
       (PyFloat.div (PyFloat.sub (PyFloat.of_Z 110) (PyFloat.of_Z 100))
          (PyFloat.of_Z 100))
       (PyFloat.of_Z 100))
  = PyFloat.of_Z 10.
Proof. vm_compute. reflexivity. Qed.

(** [round(2.675, 2) == 2.67]: the double nearest to 2.675 lies below the
    tie. *)
Example round2_2675 :
  PyFloat.round2 (PyFloat.div (PyFloat.of_Z 2675) (PyFloat.of_Z 1000))
  = PyFloat.div (PyFloat.of_Z 267) (PyFloat.of_Z 100).
Proof. vm_compute. reflexivity. Qed.

(** [round(0.125, 2) == 0.12]: an exact tie goes to the even digit. *)
Example round2_0125 :
  PyFloat.round2 (PyFloat.div (PyFloat.of_Z 1) (PyFloat.of_Z 8))
  = PyFloat.div (PyFloat.of_Z 12) (PyFloat.of_Z 100).
Proof. vm_compute. reflexivity. Qed.

(** ** Comparison of floats *)

Lemma SFcompare_Eq_sym (x y : spec_float) :
  SFcompare x y = Some Eq -> SFcompare y x = Some Eq.
Proof.
  destruct x as [[]|[]| |[] m1 e1], y as [[]|[]| |[] m2 e2];
    simpl; try congruence.
  - destruct (e1 ?= e2) eqn:He; try congruence.
    apply Z.compare_eq in He. subst e2. rewrite Z.compare_refl.
    intros H. injection H as H. apply (f_equal CompOpp) in H.
    rewrite CompOpp_involutive in H. simpl in H.
    apply Pos.compare_eq in H. subst m2. now rewrite Pos.compare_refl.
  - destruct (e1 ?= e2) eqn:He; try congruence.
    apply Z.compare_eq in He. subst e2. rewrite Z.compare_refl.
    intros H. injection H as H.
    apply Pos.compare_eq in H. subst m2. now rewrite Pos.compare_refl.
Qed.

(** [a == b] excludes [a > b]. *)
Lemma eqb_not_gt (a b : PyFloat.float) :
  PyFloat.eqb a b = true -> PyFloat.gt a b = false.
Proof.
  unfold PyFloat.eqb, PyFloat.gt, SFeqb, SFltb.
  destruct (SFcompare a b) as [[]|] eqn:H; try discriminate.
  intros _. now rewrite (SFcompare_Eq_sym _ _ H).
Qed.

(** ** The values bound to one INSERT *)

Lemma insert_values_of_nonzero row w :
  PyFloat.is_zero (Open row) = false ->
  insert_values_of row w = (Return (values_of row), w).
Proof. unfold insert_values_of. now intros ->. Qed.

Lemma insert_values_of_zero row w :
  PyFloat.is_zero (Open row) = true ->
  insert_values_of row w =
    (Raise (ZeroDivisionError "float division by zero"), w).
Proof. unfold insert_values_of. now intros ->. Qed.

Lemma insert_values_of_inv row w o w' :
  insert_values_of row w = (o, w') ->
  w' = w /\
  (o = Return (values_of row) /\ PyFloat.is_zero (Open row) = false \/
   o = Raise (ZeroDivisionError "float division by zero") /\
   PyFloat.is_zero (Open row) = true).
Proof.
  unfold insert_values_of.
  destruct (PyFloat.is_zero (Open row)); intros [= <- <-]; auto.
Qed.

Lemma values_of_label row : label_matches_prices (values_of row).
Proof.
  unfold label_matches_prices; simpl.
  split; [|split].
  - destruct (PyFloat.gt (Close row) (Open row)); split; congruence.
  - now intros ->.
  - intros H. now rewrite (eqb_not_gt _ _ H).
Qed.

Lemma values_of_change row : change_is_rounded (values_of row).
Proof. reflexivity. Qed.

Lemma values_of_well_labelled row : well_labelled (values_of row).
Proof.
  unfold well_labelled; simpl.
  destruct (PyFloat.gt (Close row) (Open row)); auto.
Qed.

(** ** Scripts and the journal *)

Lemma answer_at_next i (s : list answer) :
  answer_at i (snd (next Succeeds s)) = answer_at (S i) s.
Proof. destruct s; simpl; [now destruct i | reflexivity]. Qed.

Lemma next_answer_at (s : list answer) :
  fst (next Succeeds s) = answer_at 0 s.
Proof. now destruct s. Qed.

Lemma inserts_of_app evs1 evs2 :
  inserts_of (evs1 ++ evs2) = inserts_of evs1 ++ inserts_of evs2.
Proof. unfold inserts_of. apply flat_map_app. Qed.

Lemma inserts_of_insert_events vs :
  inserts_of (map insert_event vs) = vs.
Proof. induction vs as [|v vs IH]; simpl; [reflexivity | now rewrite IH]. Qed.

Lemma inserts_of_connection_events evs :
  Forall connection_event evs -> inserts_of evs = [].
Proof.
  induction 1 as [|ev evs Hev _ IH]; [reflexivity|].
  simpl. rewrite IH. now destruct ev.
Qed.

Lemma reconnected_refl w : reconnected w w.
Proof.
  unfold reconnected. repeat split; auto.
  exists []. now rewrite app_nil_r.
Qed.

Lemma reconnected_trans w1 w2 w3 :
  reconnected w1 w2 -> reconnected w2 w3 -> reconnected w1 w3.
Proof.
  intros (Hd & He & Hc & Hh & Hf & Hcd & Hs & evs & Hj & Hevs)
         (Hd' & He' & Hc' & Hh' & Hf' & Hcd' & Hs' & evs' & Hj' & Hevs').
  unfold reconnected. repeat split; try congruence.
  - destruct Hs' as [-> | ->]; [assumption | right; congruence].
  - exists (evs ++ evs'). split.
    + rewrite Hj', Hj. now rewrite app_assoc.
    + now apply Forall_app.
Qed.

(** ** Connecting *)

Ltac py_unfold :=
  unfold bind, ret, raise, try_except, try_finally, logging_info,
    logging_error, time_sleep, connection_cursor, cursor_close, effect.

Ltac reconnected_now :=
  unfold reconnected; simpl; repeat split; auto;
  eexists; split;
  [ first [ symmetry; apply app_nil_r
          | repeat rewrite <- app_assoc; simpl; reflexivity ]
  | repeat constructor ].

Lemma connect_attempts_reconnected attempts w o w' :
  connect_attempts attempts w = (o, w') -> reconnected w w'.
Proof.
  revert w o w'.
  induction attempts as [|attempt rest IH]; intros w o w'; simpl.
  - py_unfold. intros [= <- <-]. apply reconnected_refl.
  - py_unfold. unfold mysql_connector_connect, is_connected.
    destruct (next Succeeds (connects (record Connect w))) as [[|msg] cs];
      simpl.
    + destruct (next true (pings w)) as [[|] ps]; simpl.
      * intros [= <- <-]. reconnected_now.
      * intros H. apply IH in H.
        eapply reconnected_trans; [|exact H]. reconnected_now.
    + destruct (attempt <? _)%nat; simpl.
      * intros H. apply IH in H.
        eapply reconnected_trans; [|exact H]. reconnected_now.
      * intros [= <- <-]. reconnected_now.
Qed.

Lemma connection_unusable_inv w o w1 :
  connection_unusable w = (o, w1) ->
  reconnected w w1 /\ exists stale, o = Return stale.
Proof.
  unfold connection_unusable, is_connected. py_unfold.
  destruct (connection w) as [c|].
  - destruct (next true (pings w)) as [b ps]. intros [= <- <-].
    split; [reconnected_now | eauto].
  - intros [= <- <-]. split; [apply reconnected_refl | eauto].
Qed.

Lemma reconnect_if_needed_reconnected w o w' :
  reconnect_if_needed w = (o, w') -> reconnected w w'.
Proof.
  unfold reconnect_if_needed, bind.
  destruct (connection_unusable w) as [o1 w1] eqn:H1.
  apply connection_unusable_inv in H1 as [Hr [stale ->]].
  destruct stale.
  - intros H. apply connect_attempts_reconnected in H.
    eapply reconnected_trans; eassumption.
  - unfold ret. now intros [= <- <-].
Qed.

(** [reconnect_if_needed] raises nothing but the plain exception of
    [connect]. *)
Lemma connect_attempts_raises attempts w e w' :
  connect_attempts attempts w = (Raise e, w') ->
  e = Exception "Failed to connect to database after maximum retries".
Proof.
  revert w.
  induction attempts as [|attempt rest IH]; intros w; simpl.
  - py_unfold. discriminate.
  - py_unfold. unfold mysql_connector_connect, is_connected.
    destruct (next Succeeds (connects (record Connect w))) as [[|msg] cs];
      simpl.
    + destruct (next true (pings w)) as [[|] ps]; simpl.
      * discriminate.
      * apply IH.
    + destruct (attempt <? _)%nat; simpl.
      * apply IH.
      * now intros [= <- <-].
Qed.

Lemma reconnect_if_needed_raises w e w' :
  reconnect_if_needed w = (Raise e, w') ->
  e = Exception "Failed to connect to database after maximum retries".
Proof.
  unfold reconnect_if_needed, bind.
  destruct (connection_unusable w) as [o1 w1] eqn:H1.
  apply connection_unusable_inv in H1 as [Hr [stale ->]].
  destruct stale.
  - apply connect_attempts_raises.
  - unfold ret. discriminate.
Qed.

(** ** Statements *)

Lemma cursor_execute_cases stmt w :
  (answer_at 0 (executes w) = Succeeds /\
   cursor_execute stmt w = (Return tt, executed stmt w))
  \/ (exists msg, answer_at 0 (executes w) = Fails msg /\
      cursor_execute stmt w = (Raise (Error msg), execute_failed stmt w)).
Proof.
  unfold cursor_execute, executed, execute_failed, answer_at. simpl.
  destruct (executes w) as [|[|msg] rest]; simpl; eauto.
Qed.

Lemma commit_cases w :
  (answer_at 0 (commits w) = Succeeds /\
   connection_commit w =
     (Return tt, set_durable (session w)
                   (set_commits (tl (commits w)) (record Commit w))))
  \/ (exists msg, answer_at 0 (commits w) = Fails msg /\
      connection_commit w =
        (Raise (Error msg), set_commits (tl (commits w)) (record Commit w))).
Proof.
  unfold connection_commit, answer_at. simpl.
  destruct (commits w) as [|[|msg] rest]; simpl; eauto.
Qed.

Lemma answer_at_tl i (s : list answer) :
  answer_at i (tl s) = answer_at (S i) s.
Proof. destruct s; simpl; [now destruct i | reflexivity]. Qed.

Lemma cursor_cases w :
  connection_cursor w =
  (match cursor_answer w with
   | Succeeds => Return tt
   | Fails msg => Raise (Error msg)
   end, cursor_called w).
Proof.
  unfold connection_cursor, cursor_called, cursor_answer, answer_at. simpl.
  destruct (alive w); [|reflexivity].
  destruct (cursors w) as [|[|msg] rest]; reflexivity.
Qed.

Lemma rollback_cases w :
  connection_rollback w =
  (match answer_at 0 (rollbacks w) with
   | Succeeds => Return tt
   | Fails msg => Raise (Error msg)
   end, rolled_back w).
Proof.
  unfold connection_rollback, rolled_back, answer_at. simpl.
  destruct (rollbacks w) as [|[|msg] rest]; reflexivity.
Qed.

(** After [rollback()] the session is the committed state or what it
    was. *)
Lemma rolled_back_session w :
  session (rolled_back w) = durable w \/ session (rolled_back w) = session w.
Proof.
  unfold rolled_back. simpl. destruct (answer_at 0 (rollbacks w)); auto.
Qed.

(** Connecting leaves the scripts of [cursor()] and [rollback()] alone. *)
Lemma connect_attempts_scripts attempts :
  forall w o w',
    connect_attempts attempts w = (o, w') ->
    cursors w' = cursors w /\ rollbacks w' = rollbacks w.
Proof.
  induction attempts as [|attempt rest IH]; intros w o w'; simpl.
  - py_unfold. intros [= <- <-]. auto.
  - py_unfold. unfold mysql_connector_connect, is_connected.
    destruct (next Succeeds (connects (record Connect w))) as [[|msg] cs];
      simpl.
    + destruct (next true (pings w)) as [[|] ps]; simpl.
      * intros [= <- <-]. auto.
      * intros H. apply IH in H as [-> ->]. auto.
    + destruct (attempt <? _)%nat; simpl.
      * intros H. apply IH in H as [-> ->]. auto.
      * intros [= <- <-]. auto.
Qed.

Lemma reconnect_if_needed_scripts w o w' :
  reconnect_if_needed w = (o, w') ->
  cursors w' = cursors w /\ rollbacks w' = rollbacks w.
Proof.
  unfold reconnect_if_needed, connection_unusable, is_connected.
  py_unfold. destruct (connection w) as [c|].
  - destruct (next true (pings w)) as [[|] ps]; simpl.
    + intros [= <- <-]. auto.
    + intros H. unfold connect in H.
      apply connect_attempts_scripts in H as [-> ->]. auto.
  - intros H. unfold connect in H.
    apply connect_attempts_scripts in H as [-> ->]. auto.
Qed.

(** *** The insert loop *)

Lemma after_inserts_snoc vs v w :
  after_inserts (vs ++ [v]) w =
  executed (InsertStockDetails v) (after_inserts vs w).
Proof. unfold after_inserts. now rewrite fold_left_app. Qed.

Lemma after_inserts_fields vs w :
  durable (after_inserts vs w) = durable w /\
  commits (after_inserts vs w) = commits w /\
  curdate (after_inserts vs w) = curdate w /\
  connection (after_inserts vs w) = connection w /\
  journal (after_inserts vs w) = journal w ++ map insert_event vs /\
  StockDetails (session (after_inserts vs w)) =
    StockDetails (session w) ++ vs /\
  ProfitStatistics (session (after_inserts vs w)) =
    ProfitStatistics (session w).
Proof.
  revert w. induction vs as [|v vs IH]; intros w.
  - simpl. now rewrite !app_nil_r.
  - change (after_inserts (v :: vs) w)
      with (after_inserts vs (executed (InsertStockDetails v) w)).
    destruct (IH (executed (InsertStockDetails v) w))
      as (-> & -> & -> & -> & -> & -> & ->).
    simpl. rewrite <- !app_assoc. simpl. repeat split; reflexivity.
Qed.

Lemma after_inserts_rollbacks vs w :
  rollbacks (after_inserts vs w) = rollbacks w.
Proof.
  revert w. induction vs as [|v vs IH]; intros w; [reflexivity|].
  change (after_inserts (v :: vs) w)
    with (after_inserts vs (executed (InsertStockDetails v) w)).
  now rewrite IH.
Qed.

(** Whatever the loop's outcome, it has passed the tuples of a prefix of
    [df] to INSERT, in order, and the session holds those that were
    accepted; nothing is committed. *)
Lemma iterrows_effect df row w o w' :
  iterrows df row w = (o, w') ->
  durable w' = durable w /\
  commits w' = commits w /\
  curdate w' = curdate w /\
  ProfitStatistics (session w') = ProfitStatistics (session w) /\
  exists n m, (m <= n <= length df)%nat /\
    journal w' = journal w ++ map insert_event (map values_of (take n df)) /\
    StockDetails (session w') =
      StockDetails (session w) ++ map values_of (take m df).
Proof.
  revert row w.
  induction df as [|r rest IH]; intros row w; simpl.
  - py_unfold. intros [= <- <-]. repeat split; auto.
    exists 0%nat, 0%nat. simpl. rewrite !app_nil_r. auto.
  - unfold bind at 1.
    destruct (insert_values_of r w) as [o1 w1] eqn:Hv.
    apply insert_values_of_inv in Hv as [-> [[-> Hnz] | [-> Hz]]].
    + unfold bind at 1.
      destruct (cursor_execute_cases (InsertStockDetails (values_of r)) w)
        as [[_ ->] | [msg [_ ->]]].
      * intros H. apply IH in H as (-> & -> & -> & -> & n & m & Hle & -> & ->).
        simpl. repeat split; auto.
        exists (S n), (S m). simpl. rewrite <- !app_assoc. simpl.
        repeat split; auto; lia.
      * intros [= <- <-]. simpl. repeat split; auto.
        exists 1%nat, 0%nat. simpl. rewrite ?take_0. simpl.
        rewrite app_nil_r. repeat split; auto; lia.
    + intros [= <- <-]. repeat split; auto.
      exists 0%nat, 0%nat. simpl. rewrite !app_nil_r. repeat split; auto; lia.
Qed.

(** When the loop ends normally every row has been inserted. *)
Lemma iterrows_returns df row w r w' :
  iterrows df row w = (Return r, w') ->
  r = last_bound df row /\
  w' = after_inserts (map values_of df) w /\
  Forall nonzero_open df.
Proof.
  revert row w.
  induction df as [|r0 rest IH]; intros row w; simpl.
  - py_unfold. intros [= <- <-]. auto.
  - unfold bind at 1.
    destruct (insert_values_of r0 w) as [o1 w1] eqn:Hv.
    apply insert_values_of_inv in Hv as [-> [[-> Hnz] | [-> Hz]]];
      [|discriminate].
    unfold bind at 1.
    destruct (cursor_execute_cases (InsertStockDetails (values_of r0)) w)
      as [[_ ->] | [msg [_ ->]]]; [|discriminate].
    intros H. apply IH in H as (-> & -> & Hall).
    repeat split; auto.
Qed.

(** The loop can only raise a connector error or the division error. *)
Lemma iterrows_raises df row w e w' :
  iterrows df row w = (Raise e, w') ->
  (exists n msg, (n < length df)%nat /\ e = Error msg /\
     answer_at n (executes w) = Fails msg)
  \/ e = ZeroDivisionError "float division by zero".
Proof.
  revert row w.
  induction df as [|r0 rest IH]; intros row w; simpl.
  - py_unfold. discriminate.
  - unfold bind at 1.
    destruct (insert_values_of r0 w) as [o1 w1] eqn:Hv.
    apply insert_values_of_inv in Hv as [-> [[-> Hnz] | [-> Hz]]].
    + unfold bind at 1.
      destruct (cursor_execute_cases (InsertStockDetails (values_of r0)) w)
        as [[_ ->] | [msg [Hmsg ->]]].
      * intros H. apply IH in H as [(n & msg & Hn & -> & Hat) | ->]; auto.
        left. exists (S n), msg. repeat split; [lia|].
        simpl in Hat. now rewrite answer_at_tl in Hat.
      * intros [= <- <-]. left. exists 0%nat, msg. repeat split; auto; lia.
    + intros [= <- <-]. now right.
Qed.

Lemma after_inserts_executes vs w i :
  answer_at i (executes (after_inserts vs w)) =
  answer_at (length vs + i) (executes w).
Proof.
  revert w i. induction vs as [|v vs IH]; intros w i; [reflexivity|].
  change (after_inserts (v :: vs) w)
    with (after_inserts vs (executed (InsertStockDetails v) w)).
  rewrite IH. simpl. rewrite answer_at_tl. f_equal; lia.
Qed.

(** If the script lets every INSERT through and no [Open] is zero, the
    loop inserts every row. *)
Lemma iterrows_all_succeed df row w :
  Forall nonzero_open df ->
  (forall i, (i < length df)%nat -> answer_at i (executes w) = Succeeds) ->
  iterrows df row w =
    (Return (last_bound df row), after_inserts (map values_of df) w).
Proof.
  intros Hnz. revert row w.
  induction Hnz as [|r rest Hr _ IH]; intros row w Hok; [reflexivity|].
  simpl. unfold bind at 1. rewrite (insert_values_of_nonzero _ _ Hr).
  unfold bind at 1.
  destruct (cursor_execute_cases (InsertStockDetails (values_of r)) w)
    as [[_ ->] | [msg [Hmsg _]]].
  - apply IH. intros i Hi. simpl. rewrite answer_at_tl. apply Hok. simpl. lia.
  - rewrite (Hok 0%nat) in Hmsg by (simpl; lia). discriminate.
Qed.

Lemma iterrows_app df1 df2 row w :
  iterrows (df1 ++ df2) row w =
  (r <- iterrows df1 row ;; iterrows df2 r) w.
Proof.
  revert row w. induction df1 as [|r0 rest IH]; intros row w.
  - reflexivity.
  - simpl. unfold bind in *.
    destruct (insert_values_of r0 w) as [[v|e] w1]; [|reflexivity].
    destruct (cursor_execute (InsertStockDetails v) w1) as [[[]|e] w2];
      [|reflexivity].
    apply IH.
Qed.

(** The first INSERT the script refuses ends the loop with that error. *)
Lemma iterrows_fails_at df1 r df2 row w msg :
  Forall nonzero_open df1 -> nonzero_open r ->
  (forall i, (i < length df1)%nat -> answer_at i (executes w) = Succeeds) ->
  answer_at (length df1) (executes w) = Fails msg ->
  iterrows (df1 ++ r :: df2) row w =
    (Raise (Error msg),
     execute_failed (InsertStockDetails (values_of r))
       (after_inserts (map values_of df1) w)).
Proof.
  intros Hnz Hr Hok Hfail.
  rewrite iterrows_app. unfold bind at 1.
  rewrite (iterrows_all_succeed _ _ _ Hnz Hok).
  simpl. unfold bind at 1. rewrite (insert_values_of_nonzero _ _ Hr).
  unfold bind at 1.
  destruct (cursor_execute_cases (InsertStockDetails (values_of r))
              (after_inserts (map values_of df1) w))
    as [[Hs _] | [msg' [Hmsg ->]]].
  - rewrite after_inserts_executes, length_map, Nat.add_0_r in Hs. congruence.
  - rewrite after_inserts_executes, length_map, Nat.add_0_r in Hmsg.
    congruence.
Qed.

(** *** save_stock_details, once the connection is there *)

(** The handler of the two methods: it logs, rolls back and raises the
    error again, unless the rollback raises first. *)
Lemma handler_run (line : string) msg w :
  (logging_error (line +:+ str (Error msg)) ;;
   connection_rollback ;;
   raise (Error msg)) w =
  (Raise (reraised msg w) : outcome unit,
   rolled_back (record (LogError (line +:+ msg)) w)).
Proof.
  unfold logging_error, effect, raise. unfold bind at 1. unfold bind at 1.
  rewrite rollback_cases. unfold reraised. simpl.
  destruct (answer_at 0 (rollbacks w)); reflexivity.
Qed.

Lemma save_stock_details_run df w w0 :
  reconnect_if_needed w = (Return tt, w0) ->
  save_stock_details df w =
  match cursor_answer w0 with
  | Succeeds =>
      match iterrows df None (cursor_called w0) with
      | (Return row, w1) =>
          match answer_at 0 (commits w1) with
          | Succeeds =>
              match row with
              | Some r =>
                  (Return tt,
                   record CursorClose
                     (record
                        (LogInfo ("Successfully saved stock details for "
                                  +:+ ticker r))
                        (committed w1)))
              | None => (Raise unbound_row, record CursorClose (committed w1))
              end
          | Fails msg =>
              (Raise (reraised msg (commit_failed w1)),
               save_rolled_back msg (commit_failed w1))
          end
      | (Raise (Error msg), w1) =>
          (Raise (reraised msg w1), save_rolled_back msg w1)
      | (Raise e, w1) => (Raise e, record CursorClose w1)
      end
  | Fails msg => (Raise unbound_cursor, save_without_cursor msg w0)
  end.
Proof.
  intros Hre. unfold save_stock_details.
  unfold bind at 1. rewrite Hre.
  unfold with_cursor. rewrite cursor_cases.
  destruct (cursor_answer w0) as [|cmsg].
  - unfold try_finally, try_except, cursor_close, effect.
    unfold bind at 1.
    destruct (iterrows df None (cursor_called w0)) as [[row|e] w1].
    + unfold bind at 1.
      destruct (commit_cases w1) as [[-> ->] | [msg [-> ->]]].
      * destruct row as [r|]; reflexivity.
      * cbn [is_Error]. rewrite handler_run. reflexivity.
    + destruct e; try reflexivity.
      cbn [is_Error]. rewrite handler_run. reflexivity.
  - unfold try_finally, try_except. unfold raise at 1. cbn [is_Error].
    rewrite handler_run. reflexivity.
Qed.

Lemma save_stock_details_no_connection df w e w0 :
  reconnect_if_needed w = (Raise e, w0) ->
  save_stock_details df w = (Raise e, w0).
Proof.
  intros Hre. unfold save_stock_details. unfold bind at 1. now rewrite Hre.
Qed.

Lemma In_take {A} (x : A) n (l : list A) : In x (take n l) -> In x l.
Proof.
  revert n. induction l as [|a l IH]; intros [|n]; simpl; try tauto.
  intros [->|H]; eauto.
Qed.

(** What a call of [save_stock_details] leaves behind, whatever its
    outcome: the tuples it passed to INSERT are those of a prefix of [df],
    and a row of the committed table or of the session's table is an old
    row, a row the session already held, or the tuple of a row of [df]. *)
Lemma save_stock_details_effect df w :
  let w' := snd (save_stock_details df w) in
  (exists n, (n <= length df)%nat /\
     inserts_of (journal w') =
       inserts_of (journal w) ++ map values_of (take n df))
  /\ (forall v, In v (StockDetails (durable w')) ->
        In v (StockDetails (durable w)) \/
        In v (StockDetails (session w)) \/
        exists row, In row df /\ v = values_of row)
  /\ (forall v, In v (StockDetails (session w')) ->
        In v (StockDetails (durable w)) \/
        In v (StockDetails (session w)) \/
        exists row, In row df /\ v = values_of row).
Proof.
  set (known := fun v =>
         In v (StockDetails (durable w)) \/
         In v (StockDetails (session w)) \/
         exists row, In row df /\ v = values_of row).
  change ((exists n, (n <= length df)%nat /\
             inserts_of (journal (snd (save_stock_details df w))) =
               inserts_of (journal w) ++ map values_of (take n df))
          /\ (forall v, In v (StockDetails
                              (durable (snd (save_stock_details df w)))) ->
                        known v)
          /\ (forall v, In v (StockDetails
                              (session (snd (save_stock_details df w)))) ->
                        known v)).
  destruct (reconnect_if_needed w) as [[[]|e] w0] eqn:Hre.
  - pose proof (reconnect_if_needed_reconnected _ _ _ Hre)
      as (Hd & _ & _ & _ & _ & _ & Hs & evs & Hj & Hevs).
    rewrite (save_stock_details_run _ _ _ Hre).
    destruct (cursor_answer w0) as [|cmsg].
    2: { cbn [snd]. split; [|split].
         - exists 0%nat. split; [lia|]. simpl.
           rewrite Hj, !inserts_of_app, (inserts_of_connection_events _ Hevs).
           simpl. now rewrite ?app_nil_r.
         - intros v Hv. left. simpl in Hv. now rewrite Hd in Hv.
         - intros v Hv. unfold known. simpl in Hv.
           destruct (answer_at 0 (rollbacks w0));
             [rewrite Hd in Hv; auto|].
           destruct Hs as [Hs | Hs]; rewrite Hs in Hv; auto. }
    destruct (iterrows df None (cursor_called w0)) as [o1 w1] eqn:Hit.
    pose proof (iterrows_effect _ _ _ _ _ Hit)
      as (Hd1 & _ & _ & _ & n & m & Hnm & Hj1 & Hs1).
    simpl in Hd1, Hj1, Hs1. rewrite Hj in Hj1.
    assert (Hins : inserts_of (journal w1) =
                   inserts_of (journal w) ++ map values_of (take n df)).
    { rewrite Hj1, !inserts_of_app, inserts_of_insert_events.
      rewrite (inserts_of_connection_events _ Hevs). simpl.
      now rewrite !app_nil_r. }
    assert (Hold : forall v, In v (StockDetails (durable w1)) -> known v).
    { intros v Hv. left. now rewrite Hd1, Hd in Hv. }
    assert (Hnew : forall v, In v (StockDetails (session w1)) -> known v).
    { intros v Hv. rewrite Hs1 in Hv. apply in_app_iff in Hv as [Hv|Hv].
      - destruct Hs as [Hs | Hs]; rewrite Hs in Hv; unfold known; auto.
      - right; right. apply in_map_iff in Hv as (row & <- & Hrow).
        exists row. split; [eapply In_take; eassumption | reflexivity]. }
    assert (Hn : (n <= length df)%nat) by lia.
    assert (Hany : forall w2 evs2,
              journal w2 = journal w1 ++ evs2 ->
              inserts_of evs2 = [] ->
              (durable w2 = durable w1 \/ durable w2 = session w1) ->
              (session w2 = durable w1 \/ session w2 = session w1) ->
              (exists n, (n <= length df)%nat /\
                 inserts_of (journal w2) =
                   inserts_of (journal w) ++ map values_of (take n df))
              /\ (forall v, In v (StockDetails (durable w2)) -> known v)
              /\ (forall v, In v (StockDetails (session w2)) -> known v)).
    { intros w2 evs2 Hj2 He2 Hd2 Hs2. split; [|split].
      - exists n. split; auto. rewrite Hj2, inserts_of_app, Hins, He2.
        now rewrite app_nil_r.
      - destruct Hd2 as [-> | ->]; assumption.
      - destruct Hs2 as [-> | ->]; assumption. }
    destruct o1 as [row|e].
    + destruct (answer_at 0 (commits w1)) as [|msg].
      * destruct row as [r|];
          (eapply Hany;
           [ simpl; rewrite <- ?app_assoc; simpl; reflexivity
           | reflexivity | simpl; auto | simpl; auto ]).
      * eapply Hany;
          [ simpl; rewrite <- ?app_assoc; simpl; reflexivity
          | reflexivity | simpl; auto
          | simpl; destruct (answer_at 0 (rollbacks w1)); auto ].
    + destruct e;
        (eapply Hany;
         [ simpl; rewrite <- ?app_assoc; simpl; reflexivity
         | reflexivity | simpl; auto
         | simpl; try destruct (answer_at 0 (rollbacks w1)); auto ]).
  - pose proof (reconnect_if_needed_reconnected _ _ _ Hre)
      as (Hd & _ & _ & _ & _ & _ & Hs & evs & Hj & Hevs).
    rewrite (save_stock_details_no_connection _ _ _ _ Hre). simpl.
    split; [|split].
    + exists 0%nat. split; [lia|].
      rewrite Hj, inserts_of_app, (inserts_of_connection_events _ Hevs).
      reflexivity.
    + intros v Hv. left. now rewrite Hd in Hv.
    + intros v Hv. unfold known.
      destruct Hs as [Hs | Hs]; rewrite Hs in Hv; auto.
Qed.

(** ** Rows stored by save_stock_details *)

(** C1: every tuple that [save_stock_details] passes to the INSERT has
    profit_loss = 'profit' exactly when close > open and 'loss' otherwise,
    in particular when close == open; and so has every row the call
    commits (a committed row that does not come from this call was
    committed before or was already waiting in the session). *)
Theorem save_stock_details_profit_loss (df : DataFrame) (w : world) :
  let w' := snd (save_stock_details df w) in
  (exists vs,
     inserts_of (journal w') = inserts_of (journal w) ++ vs /\
     Forall label_matches_prices vs)
  /\ (forall v, In v (StockDetails (durable w')) ->
        In v (StockDetails (durable w)) \/
        In v (StockDetails (session w)) \/
        label_matches_prices v).
Proof.
  destruct (save_stock_details_effect df w) as ((n & _ & Hj) & Hrows & _).
  split.
  - exists (map values_of (take n df)). split; [exact Hj|].
    apply List.Forall_forall. intros v Hv.
    apply in_map_iff in Hv as (row & <- & _). apply values_of_label.
  - intros v Hv.
    destruct (Hrows v Hv) as [H | [H | (row & _ & ->)]]; auto.
    right; right. apply values_of_label.
Qed.

(** C2: every tuple that [save_stock_details] passes to the INSERT, and
    every row the call commits, carries
    percentage_change = round((close - open) / open * 100, 2). *)
Theorem save_stock_details_percentage_change (df : DataFrame) (w : world) :
  let w' := snd (save_stock_details df w) in
  (exists vs,
     inserts_of (journal w') = inserts_of (journal w) ++ vs /\
     Forall change_is_rounded vs)
  /\ (forall v, In v (StockDetails (durable w')) ->
        In v (StockDetails (durable w)) \/
        In v (StockDetails (session w)) \/
        change_is_rounded v).
Proof.
  destruct (save_stock_details_effect df w) as ((n & _ & Hj) & Hrows & _).
  split.
  - exists (map values_of (take n df)). split; [exact Hj|].
    apply List.Forall_forall. intros v Hv.
    apply in_map_iff in Hv as (row & <- & _). apply values_of_change.
  - intros v Hv.
    destruct (Hrows v Hv) as [H | [H | (row & _ & ->)]]; auto.
    right; right. apply values_of_change.
Qed.

(** ** Database errors in save_stock_details *)

Lemma save_refused_insert w w0 df1 r df2 msg :
  reconnect_if_needed w = (Return tt, w0) ->
  cursor_answer w0 = Succeeds ->
  Forall nonzero_open df1 -> nonzero_open r ->
  (forall i, (i < length df1)%nat -> answer_at i (executes w) = Succeeds) ->
  answer_at (length df1) (executes w) = Fails msg ->
  answer_at 0 (rollbacks w) = Succeeds ->
  exists w',
    save_stock_details (df1 ++ r :: df2) w = (Raise (Error msg), w') /\
    durable w' = durable w /\
    session w' = durable w /\
    journal w' =
      journal w0 ++ Cursor :: map insert_event (map values_of (df1 ++ [r]))
        ++ [LogError ("Error saving stock details: " +:+ msg);
            Rollback; CursorClose].
Proof.
  intros Hre Hcur Hnz Hr Hok Hfail Hroll.
  pose proof (reconnect_if_needed_reconnected _ _ _ Hre)
    as (Hd & He & _).
  pose proof (reconnect_if_needed_scripts _ _ _ Hre) as [_ Hrs].
  rewrite (save_stock_details_run _ _ _ Hre), Hcur.
  rewrite (iterrows_fails_at df1 r df2 None (cursor_called w0) msg);
    auto; try (simpl; now rewrite He).
  assert (Hrb : answer_at 0
                  (rollbacks (execute_failed (InsertStockDetails (values_of r))
                     (after_inserts (map values_of df1) (cursor_called w0))))
                = Succeeds).
  { simpl. rewrite after_inserts_rollbacks. simpl. now rewrite Hrs. }
  unfold reraised. rewrite Hrb.
  eexists. split; [reflexivity|].
  destruct (after_inserts_fields (map values_of df1) (cursor_called w0))
    as (Hd1 & _ & _ & _ & Hj1 & _).
  unfold save_rolled_back, rolled_back. simpl in Hrb |- *. rewrite Hrb.
  rewrite Hd1, Hj1. simpl. rewrite Hd.
  repeat split.
  rewrite !map_app. simpl.
  repeat (rewrite <- app_assoc; simpl). reflexivity.
Qed.

Lemma save_refused_commit w w0 df msg :
  reconnect_if_needed w = (Return tt, w0) ->
  cursor_answer w0 = Succeeds ->
  Forall nonzero_open df ->
  (forall i, (i < length df)%nat -> answer_at i (executes w) = Succeeds) ->
  answer_at 0 (commits w) = Fails msg ->
  answer_at 0 (rollbacks w) = Succeeds ->
  exists w',
    save_stock_details df w = (Raise (Error msg), w') /\
    durable w' = durable w /\
    session w' = durable w /\
    journal w' =
      journal w0 ++ Cursor :: map insert_event (map values_of df)
        ++ [Commit; LogError ("Error saving stock details: " +:+ msg);
            Rollback; CursorClose].
Proof.
  intros Hre Hcur Hnz Hok Hfail Hroll.
  pose proof (reconnect_if_needed_reconnected _ _ _ Hre)
    as (Hd & He & Hc & _).
  pose proof (reconnect_if_needed_scripts _ _ _ Hre) as [_ Hrs].
  rewrite (save_stock_details_run _ _ _ Hre), Hcur.
  rewrite (iterrows_all_succeed df None (cursor_called w0));
    auto; try (simpl; now rewrite He).
  destruct (after_inserts_fields (map values_of df) (cursor_called w0))
    as (Hd1 & Hc1 & _ & _ & Hj1 & _).
  rewrite Hc1. simpl commits. rewrite Hc, Hfail.
  assert (Hrb : answer_at 0
                  (rollbacks (after_inserts (map values_of df)
                                (cursor_called w0))) = Succeeds).
  { rewrite after_inserts_rollbacks. simpl. now rewrite Hrs. }
  unfold reraised. simpl rollbacks. rewrite Hrb.
  eexists. split; [reflexivity|].
  unfold save_rolled_back, rolled_back. simpl. rewrite Hrb.
  rewrite Hd1, Hj1. simpl. rewrite Hd.
  repeat split.
  repeat (rewrite <- app_assoc; simpl). reflexivity.
Qed.

Lemma save_all_inserted w w0 df :
  reconnect_if_needed w = (Return tt, w0) ->
  cursor_answer w0 = Succeeds ->
  Forall nonzero_open df ->
  (forall i, (i < length df)%nat -> answer_at i (executes w) = Succeeds) ->
  answer_at 0 (commits w) = Succeeds ->
  exists w',
    save_stock_details df w =
      (match last_bound df None with
       | Some _ => Return tt
       | None => Raise unbound_row
       end, w') /\
    StockDetails (durable w') =
      StockDetails (session w0) ++ map values_of df /\
    ProfitStatistics (durable w') = ProfitStatistics (session w0) /\
    session w' = durable w' /\
    journal w' =
      journal w0 ++ Cursor :: map insert_event (map values_of df)
        ++ Commit ::
           match last_bound df None with
           | Some r =>
               [LogInfo ("Successfully saved stock details for "
                         +:+ ticker r); CursorClose]
           | None => [CursorClose]
           end.
Proof.
  intros Hre Hcur Hnz Hok Hcommit.
  pose proof (reconnect_if_needed_reconnected _ _ _ Hre)
    as (Hd & He & Hc & _).
  rewrite (save_stock_details_run _ _ _ Hre), Hcur.
  rewrite (iterrows_all_succeed df None (cursor_called w0));
    auto; try (simpl; now rewrite He).
  destruct (after_inserts_fields (map values_of df) (cursor_called w0))
    as (Hd1 & Hc1 & _ & _ & Hj1 & Hs1 & Hp1).
  rewrite Hc1. simpl. rewrite Hc, Hcommit.
  destruct (last_bound df None) as [r|];
    (eexists; split; [reflexivity|]);
    simpl; rewrite Hs1, Hp1, Hj1; simpl;
    repeat split;
    repeat (rewrite <- app_assoc; simpl); reflexivity.
Qed.

(** C3 (amended): once the connection is in place and [cursor()] has
    returned, a database error is followed by a rollback of the whole
    batch and is raised again, and a batch without error is committed
    once, after its last INSERT.

    - If the INSERT of a row is refused with [Error(msg)] after the rows
      before it went through, and the rollback goes through, the call
      raises that [Error(msg)]; it has logged the error, rolled back and
      closed the cursor; the committed state is untouched and the session
      holds nothing uncommitted.
    - If every INSERT goes through and the commit is refused with
      [Error(msg)], the same holds.
    - If every INSERT and the commit go through, the journal of the call
      is: cursor, one INSERT per row in order, one commit, and then the
      closing log line and the cursor's close; the committed table is the
      session's table followed by the tuples of all rows. *)
Theorem save_stock_details_database_errors (w w0 : world) :
  reconnect_if_needed w = (Return tt, w0) ->
  cursor_answer w0 = Succeeds ->
  (forall df1 r df2 msg,
     Forall nonzero_open df1 -> nonzero_open r ->
     (forall i, (i < length df1)%nat -> answer_at i (executes w) = Succeeds) ->
     answer_at (length df1) (executes w) = Fails msg ->
     answer_at 0 (rollbacks w) = Succeeds ->
     exists w',
       save_stock_details (df1 ++ r :: df2) w = (Raise (Error msg), w') /\
       durable w' = durable w /\
       session w' = durable w /\
       journal w' =
         journal w0 ++ Cursor :: map insert_event (map values_of (df1 ++ [r]))
           ++ [LogError ("Error saving stock details: " +:+ msg);
               Rollback; CursorClose])
  /\ (forall df msg,
        Forall nonzero_open df ->
        (forall i, (i < length df)%nat ->
                   answer_at i (executes w) = Succeeds) ->
        answer_at 0 (commits w) = Fails msg ->
        answer_at 0 (rollbacks w) = Succeeds ->
        exists w',
          save_stock_details df w = (Raise (Error msg), w') /\
          durable w' = durable w /\
          session w' = durable w /\
          journal w' =
            journal w0 ++ Cursor :: map insert_event (map values_of df)
              ++ [Commit; LogError ("Error saving stock details: " +:+ msg);
                  Rollback; CursorClose])
  /\ (forall df,
        Forall nonzero_open df ->
        (forall i, (i < length df)%nat ->
                   answer_at i (executes w) = Succeeds) ->
        answer_at 0 (commits w) = Succeeds ->
        exists w',
          save_stock_details df w =
            (match last_bound df None with
             | Some _ => Return tt
             | None => Raise unbound_row
             end, w') /\
          StockDetails (durable w') =
            StockDetails (session w0) ++ map values_of df /\
          ProfitStatistics (durable w') = ProfitStatistics (session w0) /\
          session w' = durable w' /\
          journal w' =
            journal w0 ++ Cursor :: map insert_event (map values_of df)
              ++ Commit ::
                 match last_bound df None with
                 | Some r =>
                     [LogInfo ("Successfully saved stock details for "
                               +:+ ticker r); CursorClose]
                 | None => [CursorClose]
                 end).
Proof.
  intros Hre Hcur. split; [|split].
  - intros df1 r df2 msg. now apply save_refused_insert.
  - intros df msg. now apply save_refused_commit.
  - intros df. now apply save_all_inserted.
Qed.

Lemma save_stock_details_database_errors_witness :
  (exists w',
     save_stock_details [row_up; row_flat; row_down]
       (set_executes [Succeeds; Fails "Deadlock found"] connected_world)
       = (Raise (Error "Deadlock found"), w') /\
     durable w' = no_tables /\ session w' = no_tables)
  /\ (exists w',
        save_stock_details [row_up; row_flat]
          (set_commits [Fails "Lost connection"] connected_world)
          = (Raise (Error "Lost connection"), w') /\
        durable w' = no_tables /\ session w' = no_tables)
  /\ (exists w',
        save_stock_details [row_up; row_flat] connected_world
          = (Return tt, w') /\
        StockDetails (durable w') = [values_of row_up; values_of row_flat]).
Proof.
  split; [|split].
  - destruct (save_stock_details_database_errors
                (set_executes [Succeeds; Fails "Deadlock found"]
                   connected_world)
                (set_executes [Succeeds; Fails "Deadlock found"]
                   connected_world) eq_refl eq_refl) as [H _].
    destruct (H [row_up] row_flat [row_down] "Deadlock found")
      as (w' & Hs & Hd & Hse & _).
    + repeat constructor.
    + reflexivity.
    + intros [|i] Hi; [reflexivity | simpl in Hi; lia].
    + reflexivity.
    + reflexivity.
    + exists w'. repeat split; assumption.
  - destruct (save_stock_details_database_errors
                (set_commits [Fails "Lost connection"] connected_world)
                (set_commits [Fails "Lost connection"] connected_world)
                eq_refl eq_refl) as (_ & H & _).
    destruct (H [row_up; row_flat] "Lost connection")
      as (w' & Hs & Hd & Hse & _).
    + repeat constructor.
    + intros i _. now destruct i.
    + reflexivity.
    + reflexivity.
    + exists w'. repeat split; assumption.
  - destruct (save_stock_details_database_errors
                connected_world connected_world eq_refl eq_refl)
      as (_ & _ & H).
    destruct (H [row_up; row_flat]) as (w' & Hs & Hd & _).
    + repeat constructor.
    + intros i _. now destruct i.
    + reflexivity.
    + exists w'. split; assumption.
Defined.

(** The claim as stated fails for an error that is not a database error.
    In the batch below the second row has open = 0.0: the first row is
    inserted, the division raises, and the call ends without a rollback.
    The first row stays in the open transaction, and the next successful
    call on the same handle commits it. *)
Lemma save_stock_details_division_not_rolled_back :
  let w' := snd (save_stock_details [row_up; row_zero] connected_world) in
  fst (save_stock_details [row_up; row_zero] connected_world)
    = Raise (ZeroDivisionError "float division by zero")
  /\ journal w' = [Cursor; insert_event (values_of row_up); CursorClose]
  /\ ~ In Rollback (journal w')
  /\ StockDetails (session w') = [values_of row_up]
  /\ fst (save_stock_details [row_down] w') = Return tt
  /\ StockDetails (durable (snd (save_stock_details [row_down] w')))
     = [values_of row_up; values_of row_down].
Proof.
  vm_compute. repeat split.
  intros [H | [H | [H | []]]]; discriminate H.
Qed.

(** ** An empty DataFrame *)

(** C10: with the connection in place, a cursor and a commit that goes
    through, [save_stock_details] on a DataFrame without rows executes no
    INSERT, commits, and then raises the NameError for the unbound [row];
    this is not a database error, so nothing is logged as an error and
    there is no rollback. *)
Theorem save_stock_details_empty (w w0 : world) :
  reconnect_if_needed w = (Return tt, w0) ->
  cursor_answer w0 = Succeeds ->
  answer_at 0 (commits w) = Succeeds ->
  exists w',
    save_stock_details [] w = (Raise unbound_row, w') /\
    is_NameError unbound_row = true /\
    is_Error unbound_row = false /\
    journal w' = journal w0 ++ [Cursor; Commit; CursorClose] /\
    inserts_of (journal w') = inserts_of (journal w) /\
    ~ In Rollback [Cursor; Commit; CursorClose] /\
    durable w' = session w0.
Proof.
  intros Hre Hcur Hcommit.
  pose proof (reconnect_if_needed_reconnected _ _ _ Hre)
    as (_ & _ & Hc & _ & _ & _ & _ & evs & Hj & Hevs).
  rewrite (save_stock_details_run _ _ _ Hre), Hcur. simpl. unfold ret.
  simpl. rewrite Hc, Hcommit.
  eexists. split; [reflexivity|]. simpl.
  repeat split.
  - repeat (rewrite <- app_assoc; simpl). reflexivity.
  - rewrite Hj, !inserts_of_app, (inserts_of_connection_events _ Hevs).
    simpl. now rewrite !app_nil_r.
  - intros [H | [H | [H | []]]]; discriminate H.
Qed.

Lemma save_stock_details_empty_witness :
  exists w',
    save_stock_details [] connected_world = (Raise unbound_row, w') /\
    journal w' = [Cursor; Commit; CursorClose].
Proof.
  destruct (save_stock_details_empty connected_world connected_world
              eq_refl eq_refl eq_refl) as (w' & Hs & _ & _ & Hj & _).
  exists w'. split; assumption.
Defined.

(** ** The aggregate *)

Lemma foldl_upsert_lookup (f : string -> stat_row) ks
    (m : gmap string stat_row) t :
  foldl Sql.upsert m (map (fun k => (k, f k)) ks) !! t =
  if decide (t ∈ ks) then Some (f t) else m !! t.
Proof.
  revert m. induction ks as [|k ks IH]; intros m; simpl.
  - destruct (decide (t ∈ [])) as [H|_]; [|reflexivity].
    now apply not_elem_of_nil in H.
  - rewrite IH. unfold Sql.upsert at 1. simpl.
    destruct (decide (t ∈ ks)) as [Hin|Hnin].
    + rewrite decide_True; [reflexivity | now right].
    + destruct (decide (t = k)) as [->|Hne].
      * rewrite lookup_insert_eq. rewrite decide_True; [reflexivity | left].
      * rewrite lookup_insert_ne by congruence.
        rewrite decide_False; [reflexivity|].
        intros H. apply elem_of_cons in H as [H|H]; contradiction.
Qed.

(** A ticker with rows gets the aggregate of its group; the row of any
    other ticker is left as it was. *)
Lemma insert_select_lookup today (tbl : tables) t :
  ProfitStatistics (Sql.insert_select today tbl) !! t =
  if decide (t ∈ tickers_of (StockDetails tbl))
  then Some (Sql.select_row today (Sql.group t (StockDetails tbl)))
  else ProfitStatistics tbl !! t.
Proof.
  unfold Sql.insert_select, Sql.select_grouped, tickers_of. simpl.
  rewrite (foldl_upsert_lookup
             (fun k => Sql.select_row today (Sql.group k (StockDetails tbl)))).
  destruct (decide (t ∈ remove_dups (map sd_ticker (StockDetails tbl))))
    as [H|H]; rewrite elem_of_remove_dups in H.
  - now rewrite decide_True.
  - now rewrite decide_False.
Qed.

Lemma insert_select_details today tbl :
  StockDetails (Sql.insert_select today tbl) = StockDetails tbl.
Proof. reflexivity. Qed.

Lemma group_well_labelled t rows :
  Forall well_labelled rows -> Forall well_labelled (Sql.group t rows).
Proof.
  unfold Sql.group. intros H. apply Forall_forall. intros r Hr.
  apply list_elem_of_filter in Hr as [_ Hr].
  rewrite Forall_forall in H. now apply H.
Qed.

(** Rows labelled 'profit' or 'loss' are counted once by exactly one of
    the two sums. *)
Lemma count_splits g :
  Forall well_labelled g ->
  Sql.count g = Sql.sum_case "profit" g + Sql.sum_case "loss" g.
Proof.
  unfold Sql.count, Sql.sum_case.
  induction 1 as [|r g Hr _ IH]; [reflexivity|].
  rewrite !filter_cons.
  destruct Hr as [Hr|Hr]; rewrite Hr; simpl length; lia.
Qed.

Lemma group_nonempty t rows :
  t ∈ tickers_of rows -> 0 < Sql.count (Sql.group t rows).
Proof.
  unfold tickers_of, Sql.count, Sql.group. intros H.
  apply list_elem_of_fmap in H as (r & -> & Hr).
  assert (Hin : r ∈ filter (fun r0 => sd_ticker r0 = sd_ticker r) rows)
    by now apply list_elem_of_filter.
  destruct (filter _ rows); [now apply not_elem_of_nil in Hin | simpl; lia].
Qed.

Lemma sum_case_bounds label g :
  0 <= Sql.sum_case label g <= Sql.count g.
Proof.
  unfold Sql.sum_case, Sql.count.
  pose proof (length_filter (fun r => profit_loss r = label) g). lia.
Qed.

(** The quotient computed by [/] is within half a unit of its last digit. *)
Lemma sql_div_error a b :
  0 < b ->
  Z.abs (2 * (unscaled (Sql.div a b) * b - a * 10 ^ Sql.div_precision_increment))
  <= b.
Proof.
  intros Hb. unfold Sql.div. simpl unscaled.
  set (n := a * 10 ^ Sql.div_precision_increment).
  pose proof (Z.div_mod (2 * n + b) (2 * b) ltac:(lia)) as Hdm.
  pose proof (Z.mod_pos_bound (2 * n + b) (2 * b) ltac:(lia)) as Hmod.
  set (q := (2 * n + b) / (2 * b)) in *.
  set (r := (2 * n + b) mod (2 * b)) in *.
  nia.
Qed.

(** The stored percentage differs from profit_days / total_days * 100 by
    at most 0.005. *)
Lemma select_row_probability today g :
  0 < Sql.count g ->
  (Qabs (decimal_value (profit_probability (Sql.select_row today g))
         - inject_Z (profit_days (Sql.select_row today g))
           / inject_Z (total_days (Sql.select_row today g)) * 100)
   <= 1 # 200)%Q.
Proof.
  intros Hpos.
  pose proof (sql_div_error (Sql.sum_case "profit" g) (Sql.count g) Hpos)
    as Herr.
  unfold Sql.select_row, Sql.mul, decimal_value.
  cbn [profit_probability profit_days total_days unscaled scale].
  change (scale (Sql.div (Sql.sum_case "profit" g) (Sql.count g))) with 4.
  change (10 ^ 4) with 10000.
  unfold Sql.div_precision_increment in Herr.
  change (10 ^ 4) with 10000 in Herr.
  set (p := Sql.sum_case "profit" g) in *.
  set (t := Sql.count g) in *.
  set (q := unscaled (Sql.div p t)) in *.
  clearbody q p. destruct t as [|tp|tp]; try lia.
  unfold Qle, Qabs, Qminus, Qplus, Qmult, Qdiv, Qinv, Qopp, inject_Z.
  repeat (unfold Qmult, Qinv; cbn [Qnum Qden Z.to_pos]).
  rewrite ?Pos.mul_1_r, ?Pos.mul_1_l, ?Z.mul_1_r, ?Z.mul_1_l.
  rewrite ?Pos2Z.inj_mul.
  lia.
Qed.

(** ** update_profit_statistics *)

Lemma update_profit_statistics_run w w0 :
  reconnect_if_needed w = (Return tt, w0) ->
  update_profit_statistics w =
  match cursor_answer w0 with
  | Succeeds =>
      match answer_at 0 (executes w0) with
      | Succeeds =>
          let w1 := executed UpsertProfitStatistics (cursor_called w0) in
          match answer_at 0 (commits w0) with
          | Succeeds =>
              (Return tt,
               record CursorClose
                 (record (LogInfo "Successfully updated profit statistics")
                    (committed w1)))
          | Fails msg =>
              (Raise (reraised msg w0),
               update_rolled_back msg (commit_failed w1))
          end
      | Fails msg =>
          (Raise (reraised msg w0),
           update_rolled_back msg
             (execute_failed UpsertProfitStatistics (cursor_called w0)))
      end
  | Fails msg => (Raise unbound_cursor, update_without_cursor msg w0)
  end.
Proof.
  intros Hre. unfold update_profit_statistics.
  unfold bind at 1. rewrite Hre.
  unfold with_cursor. rewrite cursor_cases.
  destruct (cursor_answer w0) as [|cmsg].
  - unfold try_finally, try_except, cursor_close, effect.
    unfold bind at 1.
    destruct (cursor_execute_cases UpsertProfitStatistics (cursor_called w0))
      as [[Ha ->] | [msg [Ha ->]]]; simpl in Ha; rewrite Ha.
    + unfold bind at 1.
      destruct (commit_cases
                  (executed UpsertProfitStatistics (cursor_called w0)))
        as [[Hc ->] | [msg [Hc ->]]]; simpl in Hc; rewrite Hc;
        [reflexivity|].
      cbn [is_Error]. rewrite handler_run. reflexivity.
    + cbn [is_Error]. rewrite handler_run. reflexivity.
  - unfold try_finally, try_except. unfold raise at 1. cbn [is_Error].
    rewrite handler_run. reflexivity.
Qed.

(** A run that returns has committed the aggregate of the rows its
    session saw. *)
Lemma update_profit_statistics_returns w w' :
  update_profit_statistics w = (Return tt, w') ->
  exists w0,
    reconnect_if_needed w = (Return tt, w0) /\
    durable w' = Sql.insert_select (curdate w) (session w0) /\
    session w' = durable w'.
Proof.
  destruct (reconnect_if_needed w) as [[[]|e] w0] eqn:Hre.
  - pose proof (reconnect_if_needed_reconnected _ _ _ Hre)
      as (_ & _ & _ & _ & _ & Hcd & _).
    rewrite (update_profit_statistics_run _ _ Hre).
    destruct (cursor_answer w0); [|discriminate].
    destruct (answer_at 0 (executes w0)); [|discriminate].
    cbv zeta.
    destruct (answer_at 0 (commits w0)); [|discriminate].
    intros [= <-]. exists w0. simpl. rewrite Hcd. auto.
  - unfold update_profit_statistics. unfold bind at 1. rewrite Hre.
    discriminate.
Qed.

(** C5: after [update_profit_statistics] has run, every ticker with rows
    in StockDetails has a ProfitStatistics row, and that row has
    total_days = profit_days + loss_days, provided the rows of
    StockDetails carry the labels [save_stock_details] writes. *)
Theorem update_profit_statistics_total_days (w w' : world) :
  update_profit_statistics w = (Return tt, w') ->
  Forall well_labelled (StockDetails (durable w)) ->
  Forall well_labelled (StockDetails (session w)) ->
  forall t, t ∈ tickers_of (StockDetails (durable w')) ->
    exists s,
      ProfitStatistics (durable w') !! t = Some s /\
      total_days s = profit_days s + loss_days s.
Proof.
  intros Hrun Hd Hs t Ht.
  apply update_profit_statistics_returns in Hrun as (w0 & Hre & Hdur & _).
  pose proof (reconnect_if_needed_reconnected _ _ _ Hre)
    as (Hd0 & _ & _ & _ & _ & _ & Hs0 & _).
  assert (Hlab : Forall well_labelled (StockDetails (session w0))).
  { destruct Hs0 as [-> | ->]; assumption. }
  rewrite Hdur in *. rewrite insert_select_details in Ht.
  rewrite insert_select_lookup, decide_True by assumption.
  eexists. split; [reflexivity|].
  simpl. apply count_splits. now apply group_well_labelled.
Qed.

(** C6: after [update_profit_statistics] has run, the stored
    profit_probability of every ticker with rows in StockDetails is within
    0.005 of profit_days / total_days * 100. *)
Theorem update_profit_statistics_probability (w w' : world) :
  update_profit_statistics w = (Return tt, w') ->
  forall t s, t ∈ tickers_of (StockDetails (durable w')) ->
    ProfitStatistics (durable w') !! t = Some s ->
    (Qabs (decimal_value (profit_probability s)
           - inject_Z (profit_days s) / inject_Z (total_days s) * 100)
     <= 1 # 200)%Q.
Proof.
  intros Hrun t s Ht Hlook.
  apply update_profit_statistics_returns in Hrun as (w0 & _ & Hdur & _).
  rewrite Hdur in *. rewrite insert_select_details in Ht.
  rewrite insert_select_lookup, decide_True in Hlook by assumption.
  injection Hlook as <-.
  apply select_row_probability. now apply group_nonempty.
Qed.

(** C7: running [update_profit_statistics] a second time right after a
    first run changes neither StockDetails nor any computed column of
    ProfitStatistics; the rows of the tickers of StockDetails get the
    second run's date, and these are all rows when ProfitStatistics holds
    no ticker that StockDetails lacks. *)
Theorem update_profit_statistics_idempotent (w w1 w2 : world) (today : date) :
  update_profit_statistics w = (Return tt, w1) ->
  update_profit_statistics (set_curdate today w1) = (Return tt, w2) ->
  StockDetails (durable w2) = StockDetails (durable w1)
  /\ (forall t,
        computed_fields <$> (ProfitStatistics (durable w2) !! t) =
        computed_fields <$> (ProfitStatistics (durable w1) !! t))
  /\ (forall t s, t ∈ tickers_of (StockDetails (durable w1)) ->
        ProfitStatistics (durable w2) !! t = Some s ->
        last_calculated s = today)
  /\ ((forall t, is_Some (ProfitStatistics (durable w1) !! t) ->
                 t ∈ tickers_of (StockDetails (durable w1))) ->
      ProfitStatistics (durable w2) =
        with_last_calculated today <$> ProfitStatistics (durable w1)).
Proof.
  intros Hrun1 Hrun2.
  apply update_profit_statistics_returns in Hrun1 as (w0 & _ & Hdur1 & Hses1).
  apply update_profit_statistics_returns in Hrun2 as (w0' & Hre2 & Hdur2 & _).
  pose proof (reconnect_if_needed_reconnected _ _ _ Hre2)
    as (_ & _ & _ & _ & _ & _ & Hs0 & _).
  simpl in Hs0, Hdur2.
  assert (Hsame : session w0' = durable w1).
  { destruct Hs0 as [-> | ->]; [assumption | reflexivity]. }
  rewrite Hsame in Hdur2. clear Hs0 Hsame Hre2 w0'.
  rewrite Hdur2.
  assert (Hlook : forall t,
    (ProfitStatistics (Sql.insert_select today (durable w1)) !! t =
     (with_last_calculated today <$> (ProfitStatistics (durable w1) !! t)))
    \/ ((t ∉ tickers_of (StockDetails (durable w1))) /\
        ProfitStatistics (Sql.insert_select today (durable w1)) !! t =
        ProfitStatistics (durable w1) !! t)).
  { intros t. rewrite insert_select_lookup.
    destruct (decide (t ∈ tickers_of (StockDetails (durable w1)))) as [Ht|Ht].
    - left. rewrite Hdur1 at 2. rewrite insert_select_lookup.
      rewrite Hdur1 in Ht. rewrite insert_select_details in Ht.
      rewrite decide_True by assumption.
      rewrite Hdur1, insert_select_details. reflexivity.
    - right. auto. }
  split; [reflexivity|]. split; [|split].
  - intros t. destruct (Hlook t) as [-> | [_ ->]]; [|reflexivity].
    now destruct (ProfitStatistics (durable w1) !! t).
  - intros t s Ht. destruct (Hlook t) as [-> | [Hnot _]]; [|contradiction].
    destruct (ProfitStatistics (durable w1) !! t); [|discriminate].
    now intros [= <-].
  - intros Hderived. apply map_eq. intros t. rewrite lookup_fmap.
    destruct (Hlook t) as [-> | [Hnot ->]]; [reflexivity|].
    destruct (ProfitStatistics (durable w1) !! t) eqn:Hl; [|reflexivity].
    exfalso. apply Hnot, Hderived. rewrite Hl. eauto.
Qed.

Example stocked_world_statistics :
  ProfitStatistics (durable (snd (update_profit_statistics stocked_world)))
  = {[ "AAPL" := aapl_statistics jan_2 ]}.
Proof. vm_compute. reflexivity. Qed.

Ltac labelled_rows :=
  vm_compute;
  repeat (constructor; [first [left; reflexivity | right; reflexivity]|]);
  try constructor.

Lemma update_profit_statistics_total_days_witness :
  exists s,
    ProfitStatistics (durable (snd (update_profit_statistics stocked_world)))
      !! "AAPL" = Some s /\
    total_days s = profit_days s + loss_days s.
Proof.
  apply (update_profit_statistics_total_days stocked_world
           (snd (update_profit_statistics stocked_world))).
  - vm_compute. reflexivity.
  - labelled_rows.
  - labelled_rows.
  - vm_compute. constructor.
Defined.

Lemma update_profit_statistics_probability_witness :
  (Qabs (decimal_value (profit_probability (aapl_statistics jan_2))
         - inject_Z 1 / inject_Z 3 * 100) <= 1 # 200)%Q.
Proof.
  assert (Hrun : update_profit_statistics stocked_world =
                 (Return tt, snd (update_profit_statistics stocked_world)))
    by (vm_compute; reflexivity).
  apply (update_profit_statistics_probability stocked_world
           (snd (update_profit_statistics stocked_world))
           Hrun "AAPL" (aapl_statistics jan_2)).
  - vm_compute. constructor.
  - vm_compute. reflexivity.
Defined.

Lemma update_profit_statistics_idempotent_witness :
  ProfitStatistics
    (durable
       (snd (update_profit_statistics
               (set_curdate jan_3
                  (snd (update_profit_statistics stocked_world))))))
  = {[ "AAPL" := aapl_statistics jan_3 ]}.
Proof.
  assert (Hrun1 : update_profit_statistics stocked_world =
                  (Return tt, snd (update_profit_statistics stocked_world)))
    by (vm_compute; reflexivity).
  assert (Hrun2 :
            update_profit_statistics
              (set_curdate jan_3
                 (snd (update_profit_statistics stocked_world))) =
            (Return tt,
             snd (update_profit_statistics
                    (set_curdate jan_3
                       (snd (update_profit_statistics stocked_world))))))
    by (vm_compute; reflexivity).
  destruct (update_profit_statistics_idempotent _ _ _ jan_3 Hrun1 Hrun2)
    as (_ & _ & _ & H).
  rewrite H.
  - rewrite stocked_world_statistics. vm_compute. reflexivity.
  - intros t. rewrite stocked_world_statistics.
    destruct (decide (t = "AAPL")) as [->|Hne].
    + intros _. vm_compute. constructor.
    + rewrite lookup_singleton_ne by congruence. intros [s Hs]. discriminate.
Defined.

(** ** get_stock_data *)

Lemma get_stock_data_cases tkr w :
  match history w (fetches w) tkr with
  | Bars [] => get_stock_data tkr w = (Return None, fetched tkr w)
  | Bars (b :: bs) =>
      get_stock_data tkr w =
        (Return (Some (map (with_columns tkr) (b :: bs))), fetched tkr w)
  | HistoryRaises msg =>
      get_stock_data tkr w =
        (Return None,
         record (LogError (fetch_error_line tkr msg)) (fetched tkr w))
  end.
Proof.
  unfold get_stock_data, try_except, bind, stock_history, fetched.
  destruct (history w (fetches w) tkr) as [[|b bs]|msg]; reflexivity.
Qed.

(** C8: [get_stock_data] never raises.  When the provider raises, it logs
    the error and returns nothing; when the provider has no bars, it
    returns nothing.  Whenever it returns nothing, the database is as
    before, no INSERT has been issued, and the loop of [analyze_stocks]
    goes on with the remaining tickers. *)
Theorem get_stock_data_swallows_errors (tkr : string) (w : world) :
  (exists df w', get_stock_data tkr w = (Return df, w'))
  /\ (forall msg, history w (fetches w) tkr = HistoryRaises msg ->
        get_stock_data tkr w =
          (Return None,
           record (LogError (fetch_error_line tkr msg)) (fetched tkr w)))
  /\ (history w (fetches w) tkr = Bars [] ->
        get_stock_data tkr w = (Return None, fetched tkr w))
  /\ (forall w', get_stock_data tkr w = (Return None, w') ->
        durable w' = durable w /\
        session w' = session w /\
        inserts_of (journal w') = inserts_of (journal w) /\
        forall rest,
          for_each_ticker (tkr :: rest) w = for_each_ticker rest w').
Proof.
  pose proof (get_stock_data_cases tkr w) as H.
  split; [|split; [|split]].
  - destruct (history w (fetches w) tkr) as [[|b bs]|msg]; eauto.
  - intros msg Hh. now rewrite Hh in H.
  - intros Hh. now rewrite Hh in H.
  - intros w' Hget.
    assert (Hw : w' = fetched tkr w \/
                 exists msg, w' = record (LogError (fetch_error_line tkr msg))
                                    (fetched tkr w)).
    { destruct (history w (fetches w) tkr) as [[|b bs]|msg];
        rewrite H in Hget; [|discriminate|];
        injection Hget as <-; eauto. }
    repeat split.
    + destruct Hw as [-> | [msg ->]]; reflexivity.
    + destruct Hw as [-> | [msg ->]]; reflexivity.
    + destruct Hw as [-> | [msg ->]]; simpl;
        rewrite !inserts_of_app; simpl; now rewrite !app_nil_r.
    + intros rest. simpl. unfold bind at 1. rewrite Hget.
      unfold bind at 1. reflexivity.
Qed.

Lemma get_stock_data_swallows_errors_witness :
  fst (get_stock_data "XXXX" fresh_world) = Return None
  /\ fst (get_stock_data "IDLE" fresh_world) = Return None
  /\ for_each_ticker ["XXXX"; "AAPL"] fresh_world =
     for_each_ticker ["AAPL"] (snd (get_stock_data "XXXX" fresh_world)).
Proof.
  destruct (get_stock_data_swallows_errors "XXXX" fresh_world)
    as (_ & Herr & _ & Hnone).
  destruct (get_stock_data_swallows_errors "IDLE" fresh_world)
    as (_ & _ & Hempty & _).
  assert (Hx : history fresh_world (fetches fresh_world) "XXXX" =
               HistoryRaises "No data found, symbol may be delisted")
    by (vm_compute; reflexivity).
  assert (Hi : history fresh_world (fetches fresh_world) "IDLE" = Bars [])
    by (vm_compute; reflexivity).
  split; [|split].
  - now rewrite (Herr _ Hx).
  - now rewrite (Hempty Hi).
  - assert (Hget : get_stock_data "XXXX" fresh_world =
                   (Return None, snd (get_stock_data "XXXX" fresh_world)))
      by now rewrite (Herr _ Hx).
    destruct (Hnone _ Hget) as (_ & _ & _ & Hloop). apply Hloop.
Defined.

(** ** analyze_stocks *)

Lemma for_each_ticker_app l1 l2 w :
  for_each_ticker (l1 ++ l2) w =
  (for_each_ticker l1 ;; for_each_ticker l2) w.
Proof.
  revert w. induction l1 as [|t l1 IH]; intros w.
  - reflexivity.
  - simpl. unfold bind in *.
    destruct (get_stock_data t w) as [[df|e] w1]; [|reflexivity].
    destruct (match df with
              | Some df0 => save_stock_details df0
              | None => ret ()
              end w1) as [[[]|e] w2]; [|reflexivity].
    apply IH.
Qed.

(** C9: [analyze_stocks] always returns a pair.  If the loop and the
    recompute finish, the pair is (True, "Analysis completed
    successfully").  If the loop raises on some prefix of the tickers, the
    remaining tickers are not touched, nothing is recomputed, and the pair
    is (False, "Analysis failed: " + str(e)), which is also logged; the
    same pair is returned when the recompute raises. *)
Theorem analyze_stocks_result (tickers : list string) (w : world) :
  (exists ok msg w', analyze_stocks tickers w = (Return (ok, msg), w'))
  /\ (forall w1 w2,
        for_each_ticker tickers w = (Return tt, w1) ->
        update_profit_statistics w1 = (Return tt, w2) ->
        analyze_stocks tickers w =
          (Return (true, "Analysis completed successfully"), w2))
  /\ (forall done todo e w1,
        tickers = done ++ todo ->
        for_each_ticker done w = (Raise e, w1) ->
        analyze_stocks tickers w =
          (Return (false, failure_message e),
           record (LogError (failure_message e)) w1))
  /\ (forall w1 e w2,
        for_each_ticker tickers w = (Return tt, w1) ->
        update_profit_statistics w1 = (Raise e, w2) ->
        analyze_stocks tickers w =
          (Return (false, failure_message e),
           record (LogError (failure_message e)) w2)).
Proof.
  assert (Hloop : forall done todo e w1,
            for_each_ticker done w = (Raise e, w1) ->
            analyze_stocks (done ++ todo) w =
              (Return (false, failure_message e),
               record (LogError (failure_message e)) w1)).
  { intros done todo e w1 H.
    unfold analyze_stocks, analysis, try_except.
    unfold bind at 1. rewrite for_each_ticker_app.
    unfold bind at 1. rewrite H. reflexivity. }
  split; [|split; [|split]].
  - destruct (for_each_ticker tickers w) as [[[]|e] w1] eqn:Hfor.
    + unfold analyze_stocks, analysis, try_except.
      unfold bind at 1. rewrite Hfor. unfold bind at 1.
      destruct (update_profit_statistics w1) as [[[]|e] w2]; simpl; eauto.
    + rewrite <- (app_nil_r tickers). rewrite (Hloop _ _ _ _ Hfor). eauto.
  - intros w1 w2 Hfor Hup.
    unfold analyze_stocks, analysis, try_except.
    unfold bind at 1. rewrite Hfor. unfold bind at 1. rewrite Hup.
    reflexivity.
  - intros done todo e w1 -> H. now apply Hloop.
  - intros w1 e w2 Hfor Hup.
    unfold analyze_stocks, analysis, try_except.
    unfold bind at 1. rewrite Hfor. unfold bind at 1. rewrite Hup.
    reflexivity.
Qed.

Lemma analyze_stocks_result_witness :
  fst (analyze_stocks ["AAPL"; "XXXX"] fresh_world)
    = Return (true, "Analysis completed successfully")
  /\ fst (analyze_stocks ["AAPL"; "MSFT"]
            (set_executes [Fails "Table is full"] fresh_world))
     = Return (false, "Analysis failed: Table is full")
  /\ fst (analyze_stocks ["AAPL"]
            (set_executes [Succeeds; Succeeds; Succeeds; Fails "Table is full"]
               fresh_world))
     = Return (false, "Analysis failed: Table is full").
Proof.
  split; [|split].
  - destruct (analyze_stocks_result ["AAPL"; "XXXX"] fresh_world)
      as (_ & H & _).
    rewrite (H (snd (for_each_ticker ["AAPL"; "XXXX"] fresh_world))
               (snd (update_profit_statistics
                       (snd (for_each_ticker ["AAPL"; "XXXX"] fresh_world))))).
    + reflexivity.
    + vm_compute. reflexivity.
    + vm_compute. reflexivity.
  - destruct (analyze_stocks_result ["AAPL"; "MSFT"]
                (set_executes [Fails "Table is full"] fresh_world))
      as (_ & _ & H & _).
    rewrite (H ["AAPL"] ["MSFT"] (Error "Table is full")
               (snd (for_each_ticker ["AAPL"]
                       (set_executes [Fails "Table is full"] fresh_world)))).
    + reflexivity.
    + reflexivity.
    + vm_compute. reflexivity.
  - destruct (analyze_stocks_result ["AAPL"]
                (set_executes
                   [Succeeds; Succeeds; Succeeds; Fails "Table is full"]
                   fresh_world))
      as (_ & _ & _ & H).
    rewrite (H (snd (for_each_ticker ["AAPL"]
                       (set_executes
                          [Succeeds; Succeeds; Succeeds;
                           Fails "Table is full"] fresh_world)))
               (Error "Table is full")
               (snd (update_profit_statistics
                       (snd (for_each_ticker ["AAPL"]
                               (set_executes
                                  [Succeeds; Succeeds; Succeeds;
                                   Fails "Table is full"] fresh_world)))))).
    + reflexivity.
    + vm_compute. reflexivity.
    + vm_compute. reflexivity.
Defined.

(** ** connect *)

(** [connect] calls the connector at most once per attempt, hence at most
    three times. *)
Lemma connect_attempts_calls attempts w :
  exists evs,
    journal (snd (connect_attempts attempts w)) = journal w ++ evs /\
    (connect_calls evs <= length attempts)%nat.
Proof.
  revert w. induction attempts as [|attempt rest IH]; intros w.
  - exists []. simpl. rewrite app_nil_r.
    split; [reflexivity | unfold connect_calls; simpl; lia].
  - simpl. py_unfold. unfold mysql_connector_connect, is_connected.
    destruct (next Succeeds (connects (record Connect w))) as [[|msg] cs];
      simpl.
    + destruct (next true (pings w)) as [[|] ps]; simpl.
      * eexists. split; [rewrite <- app_assoc; reflexivity|].
        unfold connect_calls. simpl. lia.
      * match goal with |- context [connect_attempts rest ?w1] =>
          destruct (IH w1) as (evs & -> & Hn) end.
        simpl. exists (Connect :: evs).
        split; [now rewrite <- app_assoc|].
        unfold connect_calls in *. simpl. lia.
    + destruct (attempt <? _)%nat; simpl.
      * match goal with |- context [connect_attempts rest ?w1] =>
          destruct (IH w1) as (evs & -> & Hn) end.
        simpl. eexists.
        split; [repeat (rewrite <- app_assoc; simpl); reflexivity|].
        unfold connect_calls in *. simpl. lia.
      * eexists. split; [repeat (rewrite <- app_assoc; simpl); reflexivity|].
        unfold connect_calls. simpl. lia.
Qed.

(** X29: whatever the server and the handles answer, one call of
    [connect] calls [mysql.connector.connect] at most three times. *)
Lemma connect_at_most_three_calls w :
  exists evs,
    journal (snd (connect w)) = journal w ++ evs /\
    (connect_calls evs <= 3)%nat.
Proof. apply (connect_attempts_calls (seq 0 max_retries) w). Qed.

(** Three attempts that raise [Error]: each is logged, the first two are
    followed by a pause of five seconds, and the third makes [connect]
    raise. *)
Lemma connect_three_errors w m1 m2 m3 rest :
  connects w = Fails m1 :: Fails m2 :: Fails m3 :: rest ->
  exists w',
    connect w = (Raise connect_failure, w') /\
    journal w' =
      journal w ++
      [Connect; LogError ("Attempt 1 failed: " +:+ m1); Sleep 5;
       Connect; LogError ("Attempt 2 failed: " +:+ m2); Sleep 5;
       Connect; LogError ("Attempt 3 failed: " +:+ m3)] /\
    connection w' = connection w.
Proof.
  intros Hc. unfold connect. simpl. py_unfold.
  unfold mysql_connector_connect. simpl. rewrite Hc. simpl.
  eexists. split; [reflexivity|]. simpl.
  repeat (rewrite <- app_assoc; simpl). auto.
Qed.

(** An attempt that obtains a handle which is not connected goes on to
    the next attempt at once. *)
Lemma connect_attempts_dead_handle attempt rest w ps :
  answer_at 0 (connects w) = Succeeds ->
  pings w = false :: ps ->
  connect_attempts (attempt :: rest) w =
  connect_attempts rest (dead_handle w).
Proof.
  intros Ha Hp. unfold dead_handle.
  cbn [connect_attempts]. py_unfold.
  unfold mysql_connector_connect, is_connected.
  destruct w as [d s c cs pgs es cms h f cd j]. simpl in Ha, Hp. subst pgs.
  destruct cs as [|[|m] cs]; try discriminate Ha; reflexivity.
Qed.

(** Three attempts that return a handle which is not connected: nothing is
    logged, nothing waits, and [connect] returns. *)
Lemma connect_dead_handles w ps :
  answer_at 0 (connects w) = Succeeds ->
  answer_at 1 (connects w) = Succeeds ->
  answer_at 2 (connects w) = Succeeds ->
  pings w = false :: false :: false :: ps ->
  exists w',
    connect w = (Return tt, w') /\
    journal w' = journal w ++ [Connect; Connect; Connect] /\
    connection w' = Some MySQLConnection /\
    pings w' = ps.
Proof.
  intros H0 H1 H2 Hp. unfold connect. cbn [seq max_retries].
  assert (Hc1 : answer_at 0 (connects (dead_handle w)) = Succeeds).
  { unfold dead_handle. simpl connects. now rewrite answer_at_tl. }
  assert (Hp1 : pings (dead_handle w) = false :: false :: ps).
  { unfold dead_handle. simpl pings. now rewrite Hp. }
  assert (Hc2 : answer_at 0 (connects (dead_handle (dead_handle w)))
                = Succeeds).
  { unfold dead_handle. simpl connects. now rewrite !answer_at_tl. }
  assert (Hp2 : pings (dead_handle (dead_handle w)) = false :: ps).
  { unfold dead_handle. simpl pings. now rewrite Hp. }
  rewrite (connect_attempts_dead_handle _ _ w _ H0 Hp).
  rewrite (connect_attempts_dead_handle _ _ _ _ Hc1 Hp1).
  rewrite (connect_attempts_dead_handle _ _ _ _ Hc2 Hp2).
  eexists. split; [reflexivity|].
  repeat split.
  - unfold dead_handle. simpl. repeat (rewrite <- app_assoc; simpl).
    reflexivity.
  - unfold dead_handle. simpl pings. now rewrite Hp.
Qed.

(** C4 (failing input): the connector hands out a handle on each of the
    three attempts and [is_connected()] is false each time.  [connect]
    then returns normally after three calls of the connector, with no
    logged attempt, no pause and no exception. *)
Theorem connect_returns_without_connection :
  let w := set_pings [false; false; false] fresh_world in
  fst (connect w) = Return tt
  /\ journal (snd (connect w)) = [Connect; Connect; Connect]
  /\ pings (snd (connect w)) = [].
Proof.
  cbv zeta.
  destruct (connect_dead_handles
              (set_pings [false; false; false] fresh_world) []
              eq_refl eq_refl eq_refl eq_refl) as (w' & Hc & Hj & _ & Hp).
  rewrite Hc. simpl. auto.
Qed.

(** ** The labels are an invariant of the database

    Every operation of the script keeps the rows of StockDetails labelled
    'profit' or 'loss', so a database that starts labelled (an empty one,
    for instance) stays labelled. *)

Lemma save_stock_details_keeps_labels df w :
  labelled_world w -> labelled_world (snd (save_stock_details df w)).
Proof.
  intros [Hd Hs].
  destruct (save_stock_details_effect df w) as (_ & Hdur & Hses).
  rewrite List.Forall_forall in Hd, Hs.
  split; apply List.Forall_forall; intros v Hv;
    [ destruct (Hdur v Hv) as [H | [H | (row & _ & ->)]]
    | destruct (Hses v Hv) as [H | [H | (row & _ & ->)]] ];
    auto using values_of_well_labelled.
Qed.

Lemma update_profit_statistics_keeps_labels w :
  labelled_world w -> labelled_world (snd (update_profit_statistics w)).
Proof.
  intros [Hd Hs].
  destruct (reconnect_if_needed w) as [[[]|e] w0] eqn:Hre;
    pose proof (reconnect_if_needed_reconnected _ _ _ Hre)
      as (Hd0 & _ & _ & _ & _ & _ & Hs0 & _);
    assert (Hs0' : Forall well_labelled (StockDetails (session w0)))
      by (destruct Hs0 as [-> | ->]; assumption).
  - rewrite (update_profit_statistics_run _ _ Hre).
    destruct (cursor_answer w0);
      [destruct (answer_at 0 (executes w0));
       [cbv zeta; destruct (answer_at 0 (commits w0))|]|];
      unfold labelled_world; simpl;
      try destruct (answer_at 0 (rollbacks w0)); rewrite ?Hd0; auto.
  - unfold update_profit_statistics. unfold bind at 1. rewrite Hre.
    unfold labelled_world. simpl. rewrite Hd0. auto.
Qed.

Lemma for_each_ticker_keeps_labels tickers w :
  labelled_world w -> labelled_world (snd (for_each_ticker tickers w)).
Proof.
  revert w. induction tickers as [|t rest IH]; intros w Hw; [exact Hw|].
  simpl. unfold bind at 1.
  pose proof (get_stock_data_cases t w) as Hget.
  destruct (history w (fetches w) t) as [[|b bs]|msg]; rewrite Hget.
  - unfold bind, ret. apply IH. exact Hw.
  - unfold bind at 1.
    pose proof (save_stock_details_keeps_labels
                  (map (with_columns t) (b :: bs)) (fetched t w) Hw) as Hsave.
    destruct (save_stock_details (map (with_columns t) (b :: bs))
                (fetched t w)) as [[[]|e] w2].
    + apply IH. exact Hsave.
    + exact Hsave.
  - unfold bind, ret. apply IH. exact Hw.
Qed.

(** X15: [analyze_stocks] keeps the labels: if every row of StockDetails,
    committed or not, is labelled 'profit' or 'loss' before a run, the
    same holds after it, whatever the outcome of the run. *)
Lemma analyze_stocks_keeps_labels tickers w :
  labelled_world w -> labelled_world (snd (analyze_stocks tickers w)).
Proof.
  intros Hw. unfold analyze_stocks, analysis, try_except.
  unfold bind at 1.
  pose proof (for_each_ticker_keeps_labels tickers w Hw) as Hloop.
  destruct (for_each_ticker tickers w) as [[[]|e] w1]; [|exact Hloop].
  unfold bind at 1.
  pose proof (update_profit_statistics_keeps_labels w1 Hloop) as Hup.
  destruct (update_profit_statistics w1) as [[[]|e] w2]; exact Hup.
Qed.

Lemma fresh_world_labelled : labelled_world fresh_world.
Proof. split; constructor. Qed.

(** ** The scenario of the specification

    One AAPL bar with open 100 and close 110 is stored with
    percentage_change 10.0 and the label 'profit'; a flat bar is stored
    with 0.0 and 'loss'. *)

Example values_of_row_up :
  percentage_change (values_of row_up) = PyFloat.of_Z 10
  /\ profit_loss (values_of row_up) = "profit".
Proof. vm_compute. split; reflexivity. Qed.

Example values_of_row_flat :
  percentage_change (values_of row_flat) = S754_zero false
  /\ profit_loss (values_of row_flat) = "loss".
Proof. vm_compute. split; reflexivity. Qed.

Example analyze_msft :
  let w' := snd (analyze_stocks ["MSFT"] fresh_world) in
  fst (analyze_stocks ["MSFT"] fresh_world)
    = Return (true, "Analysis completed successfully")
  /\ map profit_loss (StockDetails (durable w')) = ["profit"]
  /\ map percentage_change (StockDetails (durable w')) = [PyFloat.of_Z 10]
  /\ connect_calls (journal w') = 1%nat.
Proof. vm_compute. repeat split; reflexivity. Qed.

(** * Further properties of the script *)

(** ** connect and the constructor *)

Lemma connect_attempts_step_error attempt rest w msg cs :
  connects w = Fails msg :: cs ->
  (attempt < max_retries - 1)%nat ->
  connect_attempts (attempt :: rest) w =
  connect_attempts rest
    (record (Sleep retry_delay)
       (record
          (LogError ("Attempt " +:+ pretty (attempt + 1)%nat
                     +:+ " failed: " +:+ msg))
          (set_connects cs (record Connect w)))).
Proof.
  intros Hc Hlt. apply Nat.ltb_lt in Hlt.
  cbn [connect_attempts]. rewrite Hlt.
  py_unfold. unfold mysql_connector_connect.
  destruct w as [d s c cn pgs es cms h f cd j]. simpl in Hc. subst cn.
  reflexivity.
Qed.

Lemma connect_attempts_step_alive attempt rest w cs ps :
  connects w = Succeeds :: cs \/ (connects w = [] /\ cs = []) ->
  pings w = true :: ps \/ (pings w = [] /\ ps = []) ->
  connect_attempts (attempt :: rest) w =
  (Return tt,
   record (LogInfo "Successfully connected to MySQL database")
     (set_alive true
        (set_pings ps
           (set_connection (Some MySQLConnection)
              (set_session (durable w)
                 (set_connects cs (record Connect w))))))).
Proof.
  intros Hc Hp.
  cbn [connect_attempts]. py_unfold.
  unfold mysql_connector_connect, is_connected.
  destruct w as [d s c cn pgs es cms h f cd j]. simpl in Hc, Hp.
  destruct Hc as [-> | [-> ->]], Hp as [-> | [-> ->]]; reflexivity.
Qed.

Lemma connect_attempts_retries msgs :
  forall a n w cs ps,
    (length msgs < n)%nat -> (a + n = max_retries)%nat ->
    connects w = map Fails msgs ++ Succeeds :: cs ->
    pings w = true :: ps ->
    exists w',
      connect_attempts (seq a n) w = (Return tt, w') /\
      journal w' =
        journal w ++ failed_attempts a msgs
          ++ [Connect; LogInfo "Successfully connected to MySQL database"] /\
      connection w' = Some MySQLConnection /\
      session w' = durable w /\
      durable w' = durable w /\
      connects w' = cs /\
      pings w' = ps.
Proof.
  induction msgs as [|m ms IH]; intros a n w cs ps Hlen Han Hc Hp.
  - destruct n as [|n]; [simpl in Hlen; lia|].
    cbn [seq]. simpl in Hc.
    rewrite (connect_attempts_step_alive a (seq (S a) n) w cs ps) by auto.
    eexists. split; [reflexivity|]. simpl.
    rewrite <- app_assoc. simpl. repeat split; reflexivity.
  - destruct n as [|n]; [simpl in Hlen; lia|].
    cbn [seq]. simpl in Hc, Hlen.
    rewrite (connect_attempts_step_error a (seq (S a) n) w m
               (map Fails ms ++ Succeeds :: cs) Hc)
      by (unfold max_retries in *; lia).
    match goal with |- context [connect_attempts _ ?w1] =>
      destruct (IH (S a) n w1 cs ps) as (w' & Hrun & Hj & Hco & Hs & Hd & Hcs & Hps)
    end; try (simpl; auto; lia).
    exists w'. split; [exact Hrun|].
    rewrite Hj, Hs, Hd, Hco, Hcs, Hps. simpl.
    repeat (rewrite <- app_assoc; simpl). repeat split; reflexivity.
Qed.

(** X1: when the first k attempts of [connect] (k = 0, 1 or 2) raise a
    connector error and the next one yields a connected handle, [connect]
    returns; it has logged the k failures with their attempt numbers,
    slept five seconds after each, logged the success, stored the handle,
    and the new session starts from the committed state. *)
Theorem connect_retries_then_succeeds (w : world) (msgs : list string)
    (cs : list answer) (ps : list bool) :
  (length msgs < max_retries)%nat ->
  connects w = map Fails msgs ++ Succeeds :: cs ->
  pings w = true :: ps ->
  exists w',
    connect w = (Return tt, w') /\
    journal w' =
      journal w ++ failed_attempts 0 msgs
        ++ [Connect; LogInfo "Successfully connected to MySQL database"] /\
    connection w' = Some MySQLConnection /\
    session w' = durable w /\
    durable w' = durable w /\
    connects w' = cs /\
    pings w' = ps.
Proof.
  intros Hlen Hc Hp. unfold connect.
  now apply (connect_attempts_retries msgs 0 max_retries w cs ps).
Qed.

Lemma connect_retries_then_succeeds_witness :
  exists w',
    connect (set_pings [true]
               (set_connects [Fails "Can't connect"; Fails "Timeout"; Succeeds]
                  fresh_world))
      = (Return tt, w') /\
    journal w' =
      [Connect; LogError "Attempt 1 failed: Can't connect"; Sleep 5;
       Connect; LogError "Attempt 2 failed: Timeout"; Sleep 5;
       Connect; LogInfo "Successfully connected to MySQL database"].
Proof.
  destruct (connect_retries_then_succeeds
              (set_pings [true]
                 (set_connects
                    [Fails "Can't connect"; Fails "Timeout"; Succeeds]
                    fresh_world))
              ["Can't connect"; "Timeout"] [] [])
    as (w' & Hrun & Hj & _).
  - simpl. unfold max_retries. lia.
  - reflexivity.
  - reflexivity.
  - exists w'. split; [exact Hrun | exact Hj].
Defined.

Lemma connect_calls_app evs1 evs2 :
  connect_calls (evs1 ++ evs2) = (connect_calls evs1 + connect_calls evs2)%nat.
Proof.
  unfold connect_calls. now rewrite List.filter_app, length_app.
Qed.

Lemma connect_attempts_raise_shape attempts :
  forall w e w',
    connect_attempts attempts w = (Raise e, w') ->
    exists pre attempt post evs msg,
      attempts = pre ++ attempt :: post /\
      (max_retries - 1 <= attempt)%nat /\
      journal w' =
        journal w ++ evs
          ++ [Connect;
              LogError ("Attempt " +:+ pretty (attempt + 1)%nat
                        +:+ " failed: " +:+ msg)] /\
      connect_calls evs = length pre /\
      e = connect_failure.
Proof.
  induction attempts as [|attempt rest IH]; intros w e w'.
  - cbn. py_unfold. discriminate.
  - cbn [connect_attempts]. py_unfold.
    unfold mysql_connector_connect, is_connected.
    destruct (next Succeeds (connects (record Connect w))) as [[|msg] cs];
      cbn beta iota.
    + destruct (next true (pings _)) as [[|] ps]; cbn beta iota.
      * discriminate.
      * intros H. apply IH in H
          as (pre & a & post & evs & m & -> & Ha & Hj & Hn & ->).
        exists (attempt :: pre), a, post, (Connect :: evs), m.
        repeat split; auto.
        -- rewrite Hj. simpl. now rewrite <- app_assoc.
        -- change (Connect :: evs) with ([Connect] ++ evs).
           rewrite connect_calls_app, Hn. reflexivity.
    + destruct (attempt <? max_retries - 1)%nat eqn:Hlt; cbn beta iota.
      * intros H. apply IH in H
          as (pre & a & post & evs & m & -> & Ha & Hj & Hn & ->).
        eexists (attempt :: pre), a, post, (_ :: _ :: _ :: evs), m.
        repeat split; auto.
        -- rewrite Hj. simpl. repeat (rewrite <- app_assoc; simpl).
           reflexivity.
        -- match goal with |- connect_calls (?a :: ?b :: ?c :: evs) = _ =>
             change (a :: b :: c :: evs) with ([a; b; c] ++ evs) end.
           rewrite connect_calls_app, Hn. reflexivity.
      * intros [= <- <-]. apply Nat.ltb_ge in Hlt.
        exists [], attempt, rest, [], msg.
        repeat split; auto.
        simpl. repeat (rewrite <- app_assoc; simpl). reflexivity.
Qed.

(** X2: [connect] raises only when its third attempt raised a connector
    error: what it raises is the plain [Exception], which is not a
    connector [Error], and by then it has called the connector exactly
    three times and logged the third failure last. *)
Theorem connect_raises_after_third_attempt (w w' : world) (e : exn) :
  connect w = (Raise e, w') ->
  e = connect_failure /\
  is_Error e = false /\
  exists evs msg,
    journal w' =
      journal w ++ evs
        ++ [Connect; LogError ("Attempt 3 failed: " +:+ msg)] /\
    connect_calls evs = 2%nat.
Proof.
  unfold connect. intros H.
  apply connect_attempts_raise_shape in H
    as (pre & a & post & evs & msg & Hsplit & Ha & Hj & Hn & ->).
  split; [reflexivity|]. split; [reflexivity|].
  unfold max_retries in *. cbn [seq] in Hsplit. simpl in Ha.
  destruct pre as [|a0 [|a1 [|a2 pre]]]; simpl in Hsplit.
  - inversion Hsplit; subst; lia.
  - inversion Hsplit; subst; lia.
  - inversion Hsplit; subst. exists evs, msg. split; [exact Hj | exact Hn].
  - inversion Hsplit as [[H0 H1 H2 Hrest]]. destruct pre; discriminate Hrest.
Qed.

Lemma connect_raises_after_third_attempt_witness :
  exists evs msg,
    journal (snd (connect (set_connects [Fails "a"; Fails "b"; Fails "c"]
                             fresh_world)))
    = [] ++ evs ++ [Connect; LogError ("Attempt 3 failed: " +:+ msg)] /\
    connect_calls evs = 2%nat.
Proof.
  assert (Hrun : connect (set_connects [Fails "a"; Fails "b"; Fails "c"]
                            fresh_world) =
                 (Raise connect_failure,
                  snd (connect (set_connects [Fails "a"; Fails "b"; Fails "c"]
                                  fresh_world))))
    by (vm_compute; reflexivity).
  destruct (connect_raises_after_third_attempt _ _ _ Hrun)
    as (_ & _ & evs & msg & Hj & Hn).
  exists evs, msg. split; [exact Hj | exact Hn].
Defined.

Lemma connect_attempts_returns_handle attempts :
  forall w w',
    connect_attempts attempts w = (Return tt, w') ->
    (connection w' = Some MySQLConnection /\ session w' = durable w')
    \/ (Forall (fun a => (a < max_retries - 1)%nat) attempts /\
        connection w' = connection w /\ session w' = session w).
Proof.
  induction attempts as [|attempt rest IH]; intros w w'.
  - cbn. py_unfold. intros [= <-]. right. auto.
  - intros H.
    pose proof (connect_attempts_reconnected _ _ _ _ H) as (Hd & _).
    revert H.
    cbn [connect_attempts]. py_unfold.
    unfold mysql_connector_connect, is_connected.
    destruct (next Succeeds (connects (record Connect w))) as [[|msg] cs];
      cbn beta iota.
    + destruct (next true (pings _)) as [[|] ps]; cbn beta iota.
      * intros [= <-]. left. split; reflexivity.
      * intros H.
        pose proof (connect_attempts_reconnected _ _ _ _ H) as (Hd1 & _).
        apply IH in H as [[Hc Hs] | (_ & Hc & Hs)]; left.
        -- auto.
        -- rewrite Hc, Hs, Hd1. split; reflexivity.
    + destruct (attempt <? max_retries - 1)%nat eqn:Hlt; cbn beta iota.
      * intros H. apply IH in H as [[Hc Hs] | (Hall & Hc & Hs)].
        -- left. auto.
        -- right. apply Nat.ltb_lt in Hlt. repeat split; auto.
      * discriminate.
Qed.

(** X3: when [DatabaseManager()] returns, the manager holds a connection
    object and its session starts from the committed state, which the
    constructor has not changed. *)
Theorem DatabaseManager_init_stores_handle (w w' : world) :
  DatabaseManager_init w = (Return tt, w') ->
  connection w' = Some MySQLConnection /\
  session w' = durable w' /\
  durable w' = durable w.
Proof.
  unfold DatabaseManager_init, bind, connect. intros H.
  pose proof (connect_attempts_reconnected _ _ _ _ H) as (Hd & _).
  apply connect_attempts_returns_handle in H as [[Hc Hs] | (Hall & _)].
  - auto.
  - exfalso. unfold max_retries in Hall. cbn in Hall.
    inversion Hall as [|? ? _ Hall1]; subst.
    inversion Hall1 as [|? ? _ Hall2]; subst.
    inversion Hall2 as [|? ? Hlt _]; subst. lia.
Qed.

Lemma DatabaseManager_init_stores_handle_witness :
  connection (snd (DatabaseManager_init fresh_world)) = Some MySQLConnection.
Proof.
  assert (Hrun : DatabaseManager_init fresh_world =
                 (Return tt, snd (DatabaseManager_init fresh_world)))
    by (vm_compute; reflexivity).
  destruct (DatabaseManager_init_stores_handle _ _ Hrun) as (Hc & _).
  exact Hc.
Defined.

(** ** save_stock_details on every exit path *)

Lemma iterrows_frame df :
  forall row w o w',
    iterrows df row w = (o, w') ->
    fetches w' = fetches w /\ history w' = history w /\
    connection w' = connection w /\ connects w' = connects w /\
    pings w' = pings w.
Proof.
  induction df as [|r rest IH]; intros row w o w'; simpl.
  - py_unfold. intros [= <- <-]. auto.
  - unfold bind at 1.
    destruct (insert_values_of r w) as [o1 w1] eqn:Hv.
    apply insert_values_of_inv in Hv as [-> [[-> Hnz] | [-> Hz]]].
    + unfold bind at 1.
      destruct (cursor_execute_cases (InsertStockDetails (values_of r)) w)
        as [[_ ->] | [msg [_ ->]]].
      * intros H. apply IH in H as (-> & -> & -> & -> & ->). auto.
      * intros [= <- <-]. auto.
    + intros [= <- <-]. auto.
Qed.

(** When [cursor()] raises, the call logs the error, calls [rollback()]
    and ends in the [finally] clause on the unbound name: there is no
    INSERT, no commit and no cursor to close. *)
Lemma save_stock_details_journal_refused df w w0 msg :
  reconnect_if_needed w = (Return tt, w0) ->
  cursor_answer w0 = Fails msg ->
  save_stock_details df w = (Raise unbound_cursor, save_without_cursor msg w0)
  /\ journal (save_without_cursor msg w0) =
       journal w0 ++
       [Cursor; LogError ("Error saving stock details: " +:+ msg); Rollback]
  /\ durable (save_without_cursor msg w0) = durable w0.
Proof.
  intros Hre Hcur. rewrite (save_stock_details_run _ _ _ Hre), Hcur.
  split; [reflexivity|]. simpl.
  repeat (rewrite <- app_assoc; simpl). auto.
Qed.

(** Once the connection is there and [cursor()] has returned, the journal
    of a call is: the cursor, the INSERTs of a prefix of the rows, the
    events that settle the batch, and the cursor's close. *)
Lemma save_stock_details_journal df w w0 :
  reconnect_if_needed w = (Return tt, w0) ->
  cursor_answer w0 = Succeeds ->
  exists n settle,
    (n <= length df)%nat /\
    journal (snd (save_stock_details df w)) =
      journal w0 ++ Cursor :: map insert_event (map values_of (take n df))
        ++ settle ++ [CursorClose] /\
    Forall settling_event settle.
Proof.
  intros Hre Hcur. rewrite (save_stock_details_run _ _ _ Hre), Hcur.
  destruct (iterrows df None (cursor_called w0)) as [o1 w1] eqn:Hit.
  destruct (iterrows_effect _ _ _ _ _ Hit)
    as (_ & _ & _ & _ & n & m & Hnm & Hj & _).
  simpl in Hj.
  assert (Hgen : forall w2 settle,
            journal w2 = journal w1 ++ settle ++ [CursorClose] ->
            Forall settling_event settle ->
            exists n settle,
              (n <= length df)%nat /\
              journal w2 =
                journal w0 ++ Cursor
                  :: map insert_event (map values_of (take n df))
                  ++ settle ++ [CursorClose] /\
              Forall settling_event settle).
  { intros w2 settle Hj2 Hs. exists n, settle. split; [lia|]. split; auto.
    rewrite Hj2, Hj. rewrite <- !app_assoc. reflexivity. }
  destruct o1 as [row|e].
  - destruct (answer_at 0 (commits w1)) as [|msg].
    + destruct row as [r|].
      * eapply (Hgen _ [Commit; LogInfo _]).
        -- simpl. repeat (rewrite <- app_assoc; simpl). reflexivity.
        -- repeat constructor.
      * apply (Hgen _ [Commit]).
        -- simpl. repeat (rewrite <- app_assoc; simpl). reflexivity.
        -- repeat constructor.
    + eapply (Hgen _ [Commit; LogError _; Rollback]).
      * simpl. repeat (rewrite <- app_assoc; simpl). reflexivity.
      * repeat constructor.
  - destruct e;
      try (apply (Hgen _ []); [reflexivity | constructor]).
    eapply (Hgen _ [LogError _; Rollback]).
    + simpl. repeat (rewrite <- app_assoc; simpl). reflexivity.
    + repeat constructor.
Qed.

(** X4: once the connection is there and [cursor()] has returned,
    [save_stock_details] closes that cursor as its last act on every exit
    path; in between it issues the INSERTs of a prefix of the rows, in
    order, and then only commit, rollback and log events. *)
Theorem save_stock_details_closes_cursor (df : DataFrame) (w w0 : world) :
  reconnect_if_needed w = (Return tt, w0) ->
  cursor_answer w0 = Succeeds ->
  exists n settle,
    (n <= length df)%nat /\
    journal (snd (save_stock_details df w)) =
      journal w0 ++ Cursor :: map insert_event (map values_of (take n df))
        ++ settle ++ [CursorClose] /\
    Forall settling_event settle.
Proof.
  intros Hre Hcur. now apply save_stock_details_journal.
Qed.

Lemma save_stock_details_closes_cursor_witness :
  exists n settle,
    journal (snd (save_stock_details [row_up; row_zero] connected_world)) =
      [] ++ Cursor :: map insert_event (map values_of (take n [row_up; row_zero]))
         ++ settle ++ [CursorClose].
Proof.
  destruct (save_stock_details_closes_cursor [row_up; row_zero]
              connected_world connected_world eq_refl eq_refl)
    as (n & settle & _ & Hj & _).
  exists n, settle. exact Hj.
Defined.

Lemma connect_calls_insert_events vs :
  connect_calls (map insert_event vs) = 0%nat.
Proof. induction vs as [|v vs IH]; [reflexivity | exact IH]. Qed.

Lemma connect_calls_settling evs :
  Forall settling_event evs -> connect_calls evs = 0%nat.
Proof.
  induction 1 as [|ev evs Hev _ IH]; [reflexivity|].
  change (ev :: evs) with ([ev] ++ evs). rewrite connect_calls_app, IH.
  now destruct ev.
Qed.

Lemma reconnect_if_needed_live w h :
  connection w = Some h ->
  hd true (pings w) = true ->
  reconnect_if_needed w =
  (Return tt, set_alive true (set_pings (tl (pings w)) w)).
Proof.
  intros Hc Hp. unfold reconnect_if_needed, connection_unusable, is_connected.
  py_unfold. rewrite Hc.
  destruct (pings w) as [|b ps]; simpl in *; subst; reflexivity.
Qed.

Lemma connect_attempts_starts attempt rest w :
  exists evs,
    journal (snd (connect_attempts (attempt :: rest) w)) =
    journal w ++ Connect :: evs.
Proof.
  destruct (connect_attempts (attempt :: rest) w) as [o w'] eqn:Hrun.
  revert Hrun. cbn [connect_attempts]. py_unfold.
  unfold mysql_connector_connect, is_connected.
  destruct (next Succeeds (connects (record Connect w))) as [[|msg] cs];
    cbn beta iota.
  - destruct (next true (pings _)) as [[|] ps]; cbn beta iota.
    + intros [= <- <-]. simpl. rewrite <- app_assoc. eauto.
    + intros H. apply connect_attempts_reconnected in H
        as (_ & _ & _ & _ & _ & _ & _ & evs & Hj & _).
      simpl in *. rewrite Hj, <- app_assoc. eauto.
  - destruct (attempt <? max_retries - 1)%nat; cbn beta iota.
    + intros H. apply connect_attempts_reconnected in H
        as (_ & _ & _ & _ & _ & _ & _ & evs & Hj & _).
      simpl in *. rewrite Hj. repeat (rewrite <- app_assoc; simpl). eauto.
    + intros [= <- <-]. simpl. repeat (rewrite <- app_assoc; simpl). eauto.
Qed.

Lemma reconnect_if_needed_unusable w :
  connection w = None \/ hd true (pings w) = false ->
  exists evs,
    journal (snd (reconnect_if_needed w)) = journal w ++ Connect :: evs.
Proof.
  intros Hstale.
  unfold reconnect_if_needed, connection_unusable, is_connected, connect.
  py_unfold. cbn [seq max_retries].
  destruct (connection w) as [h|] eqn:Hc.
  - destruct Hstale as [|Hp]; [discriminate|].
    destruct (pings w) as [|b ps] eqn:Hpings; simpl in Hp;
      [discriminate|]. subst b. simpl.
    destruct (connect_attempts_starts 0 [1; 2]%nat
                (set_alive false (set_pings ps w)))
      as (evs & Hj).
    exists evs. exact Hj.
  - apply connect_attempts_starts.
Qed.

Lemma save_stock_details_journal_grows df w :
  exists evs,
    journal (snd (save_stock_details df w)) =
    journal (snd (reconnect_if_needed w)) ++ evs.
Proof.
  destruct (reconnect_if_needed w) as [[[]|e] w0] eqn:Hre.
  - destruct (cursor_answer w0) as [|msg] eqn:Hcur.
    + destruct (save_stock_details_journal df w w0 Hre Hcur)
        as (n & settle & _ & Hj & _).
      rewrite Hj. simpl. eauto.
    + destruct (save_stock_details_journal_refused df w w0 msg Hre Hcur)
        as (-> & Hj & _).
      cbn [snd]. rewrite Hj. eauto.
  - rewrite (save_stock_details_no_connection _ _ _ _ Hre). simpl.
    exists []. now rewrite app_nil_r.
Qed.

(** X5: [save_stock_details] reconnects lazily.  With a handle whose
    [is_connected()] is true it goes straight to the cursor and never
    calls the connector; with no handle, or a handle that is not
    connected, the first thing it does is call the connector. *)
Theorem save_stock_details_reconnects_lazily (df : DataFrame) (w : world) :
  (forall h, connection w = Some h -> hd true (pings w) = true ->
     exists evs,
       journal (snd (save_stock_details df w)) = journal w ++ Cursor :: evs /\
       connect_calls evs = 0%nat)
  /\ (connection w = None \/ hd true (pings w) = false ->
      exists evs,
        journal (snd (save_stock_details df w)) =
        journal w ++ Connect :: evs).
Proof.
  split.
  - intros h Hc Hp.
    pose proof (reconnect_if_needed_live w h Hc Hp) as Hre.
    destruct (cursor_answer (set_alive true (set_pings (tl (pings w)) w)))
      as [|msg] eqn:Hcur.
    + destruct (save_stock_details_journal df w _ Hre Hcur)
        as (n & settle & _ & Hj & Hsettle).
      eexists. split; [exact Hj|].
      rewrite !connect_calls_app, connect_calls_insert_events,
        (connect_calls_settling _ Hsettle).
      reflexivity.
    + destruct (save_stock_details_journal_refused df w _ msg Hre Hcur)
        as (-> & Hj & _).
      cbn [snd]. eexists. split; [exact Hj|]. reflexivity.
  - intros Hstale.
    destruct (reconnect_if_needed_unusable w Hstale) as (evs & Hj).
    destruct (save_stock_details_journal_grows df w) as (evs' & Hj').
    exists (evs ++ evs'). rewrite Hj', Hj, <- app_assoc. reflexivity.
Qed.

Lemma save_stock_details_reconnects_lazily_witness :
  (exists evs,
     journal (snd (save_stock_details [row_up] connected_world)) =
     [] ++ Cursor :: evs /\ connect_calls evs = 0%nat)
  /\ (exists evs,
        journal (snd (save_stock_details [row_up] fresh_world)) =
        [] ++ Connect :: evs).
Proof.
  destruct (save_stock_details_reconnects_lazily [row_up] connected_world)
    as [Hlive _].
  destruct (save_stock_details_reconnects_lazily [row_up] fresh_world)
    as [_ Hnone].
  split.
  - apply (Hlive MySQLConnection); reflexivity.
  - apply Hnone. left. reflexivity.
Defined.

(** X6: whatever its outcome, [save_stock_details] commits all or nothing:
    afterwards the committed database is what it was, or it is the
    session's StockDetails followed by the tuples of all rows of [df], in
    DataFrame order (and then no row had a zero open). *)
Theorem save_stock_details_all_or_nothing (df : DataFrame) (w : world) :
  durable (snd (save_stock_details df w)) = durable w
  \/ exists w0,
       reconnect_if_needed w = (Return tt, w0) /\
       Forall nonzero_open df /\
       StockDetails (durable (snd (save_stock_details df w))) =
         StockDetails (session w0) ++ map values_of df /\
       ProfitStatistics (durable (snd (save_stock_details df w))) =
         ProfitStatistics (session w0).
Proof.
  destruct (reconnect_if_needed w) as [[[]|e] w0] eqn:Hre;
    pose proof (reconnect_if_needed_reconnected _ _ _ Hre) as (Hd & _).
  - rewrite (save_stock_details_run _ _ _ Hre).
    destruct (cursor_answer w0) as [|cmsg];
      [|left; simpl; exact Hd].
    destruct (iterrows df None (cursor_called w0)) as [o1 w1] eqn:Hit.
    destruct (iterrows_effect _ _ _ _ _ Hit) as (Hd1 & _).
    simpl in Hd1.
    destruct o1 as [row|e].
    + apply iterrows_returns in Hit as (_ & -> & Hnz).
      destruct (after_inserts_fields (map values_of df) (cursor_called w0))
        as (_ & _ & _ & _ & _ & Hs1 & Hp1).
      destruct (answer_at 0 (commits _)) as [|msg].
      * right. exists w0. split; [reflexivity|]. split; [exact Hnz|].
        destruct row as [r|]; simpl; rewrite Hs1, Hp1; auto.
      * left. simpl. rewrite Hd1. exact Hd.
    + left. destruct e; simpl; rewrite Hd1; exact Hd.
  - left. rewrite (save_stock_details_no_connection _ _ _ _ Hre). exact Hd.
Qed.

(** X7: a row whose open is 0.0 stops the batch.  If [cursor()] has
    returned and the rows before it were inserted, the call raises
    ZeroDivisionError; it neither commits nor rolls back: the committed
    state is untouched, the rows before stay in the open transaction, and
    the cursor is closed. *)
Theorem save_stock_details_zero_open (w w0 : world)
    (df1 : DataFrame) (r : df_row) (df2 : DataFrame) :
  reconnect_if_needed w = (Return tt, w0) ->
  cursor_answer w0 = Succeeds ->
  Forall nonzero_open df1 ->
  (forall i, (i < length df1)%nat -> answer_at i (executes w) = Succeeds) ->
  PyFloat.is_zero (Open r) = true ->
  exists w',
    save_stock_details (df1 ++ r :: df2) w =
      (Raise (ZeroDivisionError "float division by zero"), w') /\
    journal w' =
      journal w0 ++ Cursor :: map insert_event (map values_of df1)
        ++ [CursorClose] /\
    durable w' = durable w /\
    StockDetails (session w') =
      StockDetails (session w0) ++ map values_of df1.
Proof.
  intros Hre Hcur Hnz Hok Hz.
  pose proof (reconnect_if_needed_reconnected _ _ _ Hre) as (Hd & He & _).
  rewrite (save_stock_details_run _ _ _ Hre), Hcur.
  rewrite iterrows_app. unfold bind at 1.
  rewrite (iterrows_all_succeed df1 None (cursor_called w0) Hnz)
    by (simpl; now rewrite He).
  cbn [iterrows]. unfold bind at 1.
  rewrite (insert_values_of_zero _ _ Hz).
  destruct (after_inserts_fields (map values_of df1) (cursor_called w0))
    as (Hd1 & _ & _ & _ & Hj1 & Hs1 & _).
  eexists. split; [reflexivity|]. simpl.
  rewrite Hj1, Hd1, Hs1. simpl. rewrite Hd.
  repeat split. repeat (rewrite <- app_assoc; simpl). reflexivity.
Qed.

Lemma save_stock_details_zero_open_witness :
  exists w',
    save_stock_details [row_up; row_zero; row_down] connected_world =
      (Raise (ZeroDivisionError "float division by zero"), w') /\
    journal w' = [Cursor; insert_event (values_of row_up); CursorClose] /\
    durable w' = no_tables.
Proof.
  destruct (save_stock_details_zero_open connected_world connected_world
              [row_up] row_zero [row_down] eq_refl eq_refl)
    as (w' & Hrun & Hj & Hd & _).
  - repeat constructor.
  - intros i _. now destruct i.
  - reflexivity.
  - exists w'. repeat split; assumption.
Defined.

(** ** update_profit_statistics beyond the successful run *)

(** X8: once [cursor()] has returned, a database error in
    [update_profit_statistics] is logged and followed by a rollback, and
    the cursor is closed: this holds when the aggregate statement is
    refused and when the commit is refused.  When the rollback goes
    through, the same error is raised again, the committed state is
    untouched and nothing stays uncommitted.  When the rollback itself
    raises, it is the error of the rollback that leaves the method; the
    committed state is untouched all the same. *)
Theorem update_profit_statistics_database_errors (w w0 : world) :
  reconnect_if_needed w = (Return tt, w0) ->
  cursor_answer w0 = Succeeds ->
  (forall msg, answer_at 0 (executes w) = Fails msg ->
     answer_at 0 (rollbacks w) = Succeeds ->
     exists w',
       update_profit_statistics w = (Raise (Error msg), w') /\
       durable w' = durable w /\
       session w' = durable w /\
       journal w' =
         journal w0 ++
         [Cursor; Execute UpsertProfitStatistics;
          LogError ("Error updating profit statistics: " +:+ msg);
          Rollback; CursorClose])
  /\ (forall msg, answer_at 0 (executes w) = Succeeds ->
        answer_at 0 (commits w) = Fails msg ->
        answer_at 0 (rollbacks w) = Succeeds ->
        exists w',
          update_profit_statistics w = (Raise (Error msg), w') /\
          durable w' = durable w /\
          session w' = durable w /\
          journal w' =
            journal w0 ++
            [Cursor; Execute UpsertProfitStatistics; Commit;
             LogError ("Error updating profit statistics: " +:+ msg);
             Rollback; CursorClose])
  /\ (forall msg msg',
        answer_at 0 (executes w) = Fails msg \/
        (answer_at 0 (executes w) = Succeeds /\
         answer_at 0 (commits w) = Fails msg) ->
        answer_at 0 (rollbacks w) = Fails msg' ->
        exists w' evs,
          update_profit_statistics w = (Raise (Error msg'), w') /\
          durable w' = durable w /\
          journal w' =
            journal w0 ++ evs ++
            [LogError ("Error updating profit statistics: " +:+ msg);
             Rollback; CursorClose]).
Proof.
  intros Hre Hcur.
  pose proof (reconnect_if_needed_reconnected _ _ _ Hre)
    as (Hd & He & Hc & _).
  pose proof (reconnect_if_needed_scripts _ _ _ Hre) as [_ Hrs].
  rewrite (update_profit_statistics_run _ _ Hre), Hcur, He, Hc.
  unfold reraised, update_rolled_back, rolled_back. simpl. rewrite Hrs.
  split; [|split].
  - intros msg -> ->. eexists. split; [reflexivity|]. simpl. rewrite Hd.
    repeat split. repeat (rewrite <- app_assoc; simpl). reflexivity.
  - intros msg -> -> ->. eexists. split; [reflexivity|]. simpl. rewrite Hd.
    repeat split. repeat (rewrite <- app_assoc; simpl). reflexivity.
  - intros msg msg' [-> | [-> ->]] ->.
    + eexists _, [Cursor; Execute UpsertProfitStatistics].
      split; [reflexivity|]. simpl. rewrite Hd.
      repeat split. repeat (rewrite <- app_assoc; simpl). reflexivity.
    + eexists _, [Cursor; Execute UpsertProfitStatistics; Commit].
      split; [reflexivity|]. simpl. rewrite Hd.
      repeat split. repeat (rewrite <- app_assoc; simpl). reflexivity.
Qed.

Lemma update_profit_statistics_database_errors_witness :
  (exists w',
     update_profit_statistics
       (set_executes [Fails "Table is full"] stocked_world)
     = (Raise (Error "Table is full"), w') /\
     durable w' =
       durable (set_executes [Fails "Table is full"] stocked_world))
  /\ (exists w',
        update_profit_statistics
          (set_commits [Fails "Lost connection"] stocked_world)
        = (Raise (Error "Lost connection"), w') /\
        durable w' =
          durable (set_commits [Fails "Lost connection"] stocked_world))
  /\ (exists w',
        update_profit_statistics
          (set_rollbacks [Fails "Connection not available"]
             (set_commits [Fails "Lost connection"] stocked_world))
        = (Raise (Error "Connection not available"), w')).
Proof.
  assert (Hre1 : reconnect_if_needed
                   (set_executes [Fails "Table is full"] stocked_world) =
                 (Return tt,
                  snd (reconnect_if_needed
                         (set_executes [Fails "Table is full"]
                            stocked_world))))
    by (vm_compute; reflexivity).
  assert (Hre2 : reconnect_if_needed
                   (set_commits [Fails "Lost connection"] stocked_world) =
                 (Return tt,
                  snd (reconnect_if_needed
                         (set_commits [Fails "Lost connection"]
                            stocked_world))))
    by (vm_compute; reflexivity).
  assert (Hre3 : reconnect_if_needed
                   (set_rollbacks [Fails "Connection not available"]
                      (set_commits [Fails "Lost connection"]
                         stocked_world)) =
                 (Return tt,
                  snd (reconnect_if_needed
                         (set_rollbacks [Fails "Connection not available"]
                            (set_commits [Fails "Lost connection"]
                               stocked_world)))))
    by (vm_compute; reflexivity).
  split; [|split].
  - destruct (update_profit_statistics_database_errors _ _ Hre1)
      as [H _]; [vm_compute; reflexivity|].
    destruct (H "Table is full") as (w' & Hrun & Hd & _).
    + vm_compute. reflexivity.
    + vm_compute. reflexivity.
    + exists w'. split; [exact Hrun | exact Hd].
  - destruct (update_profit_statistics_database_errors _ _ Hre2)
      as (_ & H & _); [vm_compute; reflexivity|].
    destruct (H "Lost connection") as (w' & Hrun & Hd & _).
    + vm_compute. reflexivity.
    + vm_compute. reflexivity.
    + vm_compute. reflexivity.
    + exists w'. split; [exact Hrun | exact Hd].
  - destruct (update_profit_statistics_database_errors _ _ Hre3)
      as (_ & _ & H); [vm_compute; reflexivity|].
    destruct (H "Lost connection" "Connection not available")
      as (w' & evs & Hrun & _).
    + right. split; vm_compute; reflexivity.
    + vm_compute. reflexivity.
    + exists w'. exact Hrun.
Defined.

Lemma sql_div_bounds a b :
  0 < b -> 0 <= a <= b ->
  0 <= unscaled (Sql.div a b) <= 10 ^ Sql.div_precision_increment.
Proof.
  intros Hb Ha. unfold Sql.div, Sql.div_precision_increment. simpl unscaled.
  change (10 ^ 4) with 10000.
  split.
  - apply Z.div_pos; lia.
  - apply Z.lt_succ_r. apply Z.div_lt_upper_bound; lia.
Qed.

(** X9: after [update_profit_statistics] has run, the row of every ticker
    that has rows in StockDetails satisfies total_days >= 1,
    0 <= profit_days <= total_days, 0 <= loss_days <= total_days, and its
    profit_probability is a four-digit decimal between 0 and 100. *)
Theorem update_profit_statistics_bounds (w w' : world) :
  update_profit_statistics w = (Return tt, w') ->
  forall t s, t ∈ tickers_of (StockDetails (durable w')) ->
    ProfitStatistics (durable w') !! t = Some s ->
    1 <= total_days s /\
    0 <= profit_days s <= total_days s /\
    0 <= loss_days s <= total_days s /\
    scale (profit_probability s) = 4 /\
    (0 <= decimal_value (profit_probability s) <= 100)%Q.
Proof.
  intros Hrun t s Ht Hlook.
  apply update_profit_statistics_returns in Hrun as (w0 & _ & Hdur & _).
  rewrite Hdur in *. rewrite insert_select_details in Ht.
  rewrite insert_select_lookup, decide_True in Hlook by assumption.
  injection Hlook as <-.
  pose proof (group_nonempty _ _ Ht) as Hpos.
  set (g := Sql.group t (StockDetails (session w0))) in *.
  pose proof (sum_case_bounds "profit" g) as Hp.
  pose proof (sum_case_bounds "loss" g) as Hl.
  pose proof (sql_div_bounds _ _ Hpos Hp) as Hdiv.
  unfold Sql.div_precision_increment in Hdiv.
  change (10 ^ 4) with 10000 in Hdiv.
  cbn [Sql.select_row total_days profit_days loss_days profit_probability].
  repeat split; try lia.
  - unfold decimal_value, Sql.mul, Qle. cbn [unscaled scale Qnum Qden].
    change (scale (Sql.div (Sql.sum_case "profit" g) (Sql.count g))) with 4.
    change (Z.to_pos (10 ^ 4)) with 10000%positive. lia.
  - unfold decimal_value, Sql.mul, Qle. cbn [unscaled scale Qnum Qden].
    change (scale (Sql.div (Sql.sum_case "profit" g) (Sql.count g))) with 4.
    change (Z.to_pos (10 ^ 4)) with 10000%positive.
    change (Qnum 100) with 100. change (Z.pos (Qden 100)) with 1. lia.
Qed.

Lemma update_profit_statistics_bounds_witness :
  1 <= total_days (aapl_statistics jan_2) /\
  (0 <= decimal_value (profit_probability (aapl_statistics jan_2)) <= 100)%Q.
Proof.
  assert (Hrun : update_profit_statistics stocked_world =
                 (Return tt, snd (update_profit_statistics stocked_world)))
    by (vm_compute; reflexivity).
  destruct (update_profit_statistics_bounds _ _ Hrun
              "AAPL" (aapl_statistics jan_2))
    as (Ht & _ & _ & _ & Hp).
  - vm_compute. constructor.
  - vm_compute. reflexivity.
  - split; [exact Ht | exact Hp].
Defined.

(** X10: a run of [update_profit_statistics] does not touch StockDetails,
    and it leaves the ProfitStatistics row of every ticker without rows in
    StockDetails exactly as it was (it neither deletes nor refreshes such
    a row). *)
Theorem update_profit_statistics_other_tickers (w w' : world) :
  update_profit_statistics w = (Return tt, w') ->
  exists w0,
    reconnect_if_needed w = (Return tt, w0) /\
    (session w0 = session w \/ session w0 = durable w) /\
    StockDetails (durable w') = StockDetails (session w0) /\
    forall t, t ∉ tickers_of (StockDetails (durable w')) ->
      ProfitStatistics (durable w') !! t =
      ProfitStatistics (session w0) !! t.
Proof.
  intros Hrun.
  apply update_profit_statistics_returns in Hrun as (w0 & Hre & Hdur & _).
  pose proof (reconnect_if_needed_reconnected _ _ _ Hre)
    as (_ & _ & _ & _ & _ & _ & Hs & _).
  exists w0. rewrite Hdur. repeat split; auto.
  intros t Ht. rewrite insert_select_details in Ht.
  now rewrite insert_select_lookup, decide_False.
Qed.

Lemma update_profit_statistics_other_tickers_witness :
  exists w0,
    reconnect_if_needed stocked_world = (Return tt, w0) /\
    StockDetails (durable (snd (update_profit_statistics stocked_world))) =
    StockDetails (session w0).
Proof.
  assert (Hrun : update_profit_statistics stocked_world =
                 (Return tt, snd (update_profit_statistics stocked_world)))
    by (vm_compute; reflexivity).
  destruct (update_profit_statistics_other_tickers _ _ Hrun)
    as (w0 & Hre & _ & Hsd & _).
  exists w0. split; [exact Hre | exact Hsd].
Defined.

Lemma sql_div_all a : 0 < a -> unscaled (Sql.div a a) = 10000.
Proof.
  intros Ha. unfold Sql.div, Sql.div_precision_increment. simpl unscaled.
  change (10 ^ 4) with 10000.
  symmetry. apply Z.div_unique with (r := a); lia.
Qed.

Lemma sql_div_none b : 0 < b -> unscaled (Sql.div 0 b) = 0.
Proof.
  intros Hb. unfold Sql.div, Sql.div_precision_increment. simpl unscaled.
  apply Z.div_small. lia.
Qed.

Lemma sum_case_all label g :
  (forall r, r ∈ g -> profit_loss r = label) ->
  Sql.sum_case label g = Sql.count g.
Proof.
  unfold Sql.sum_case, Sql.count. intros Hall. f_equal. f_equal.
  induction g as [|r g IH]; [reflexivity|].
  rewrite filter_cons_True by (apply Hall; left).
  simpl. f_equal. apply IH. intros r' Hr'. apply Hall. now right.
Qed.

Lemma sum_case_none label g :
  (forall r, r ∈ g -> profit_loss r <> label) ->
  Sql.sum_case label g = 0.
Proof.
  unfold Sql.sum_case. intros Hnone.
  replace (filter (fun r => profit_loss r = label) g) with (@nil detail_row);
    [reflexivity|].
  induction g as [|r g IH]; [reflexivity|].
  rewrite filter_cons_False by (apply Hnone; left).
  apply IH. intros r' Hr'. apply Hnone. now right.
Qed.

(** X11: after [update_profit_statistics] has run, a ticker all of whose
    rows in StockDetails are labelled 'profit' has profit_probability
    exactly 100.0000, and a ticker none of whose rows is labelled 'profit'
    has exactly 0.0000. *)
Theorem update_profit_statistics_extremes (w w' : world) :
  update_profit_statistics w = (Return tt, w') ->
  forall t s, t ∈ tickers_of (StockDetails (durable w')) ->
    ProfitStatistics (durable w') !! t = Some s ->
    ((forall r, r ∈ StockDetails (durable w') -> sd_ticker r = t ->
                profit_loss r = "profit") ->
     profit_days s = total_days s /\
     profit_probability s = {| unscaled := 1000000; scale := 4 |})
    /\ ((forall r, r ∈ StockDetails (durable w') -> sd_ticker r = t ->
                   profit_loss r <> "profit") ->
        profit_days s = 0 /\
        profit_probability s = {| unscaled := 0; scale := 4 |}).
Proof.
  intros Hrun t s Ht Hlook.
  apply update_profit_statistics_returns in Hrun as (w0 & _ & Hdur & _).
  rewrite Hdur in *. rewrite insert_select_details in *.
  rewrite insert_select_lookup, decide_True in Hlook by assumption.
  injection Hlook as <-.
  pose proof (group_nonempty _ _ Ht) as Hpos.
  set (g := Sql.group t (StockDetails (session w0))) in *.
  assert (Hg : forall r, r ∈ g ->
                 r ∈ StockDetails (session w0) /\ sd_ticker r = t).
  { intros r Hr. unfold g, Sql.group in Hr.
    apply list_elem_of_filter in Hr as [Hk Hr]. auto. }
  cbn [Sql.select_row total_days profit_days profit_probability].
  unfold Sql.mul.
  change (scale (Sql.div (Sql.sum_case "profit" g) (Sql.count g))) with 4.
  split; intros Hrows.
  - rewrite sum_case_all
      by (intros r Hr; destruct (Hg r Hr); now apply Hrows).
    split; [reflexivity|]. now rewrite (sql_div_all _ Hpos).
  - rewrite sum_case_none
      by (intros r Hr; destruct (Hg r Hr); now apply Hrows).
    split; [reflexivity|]. now rewrite (sql_div_none _ Hpos).
Qed.

Lemma update_profit_statistics_extremes_witness :
  profit_probability (Sql.select_row jan_2 [values_of row_up])
  = {| unscaled := 1000000; scale := 4 |}.
Proof.
  assert (Hrun :
            update_profit_statistics
              (snd (save_stock_details [row_up] connected_world)) =
            (Return tt,
             snd (update_profit_statistics
                    (snd (save_stock_details [row_up] connected_world)))))
    by (vm_compute; reflexivity).
  assert (Hlook :
            ProfitStatistics
              (durable
                 (snd (update_profit_statistics
                         (snd (save_stock_details [row_up]
                                 connected_world)))))
              !! "AAPL"
            = Some (Sql.select_row jan_2 [values_of row_up]))
    by (vm_compute; reflexivity).
  assert (Hrows :
            StockDetails
              (durable
                 (snd (update_profit_statistics
                         (snd (save_stock_details [row_up]
                                 connected_world)))))
            = [values_of row_up])
    by (vm_compute; reflexivity).
  destruct (update_profit_statistics_extremes _ _ Hrun "AAPL" _
              ltac:(vm_compute; constructor) Hlook) as [Hall _].
  apply Hall. intros r Hr _. rewrite Hrows in Hr.
  apply list_elem_of_singleton in Hr. subst r. vm_compute. reflexivity.
Defined.

(** ** When cursor() raises *)

(** X31: when [cursor()] raises [Error] (the handle is not connected),
    neither method reaches its statement.  The handler logs the error and
    calls [rollback()], and the [finally] clause then fails on the name
    [cursor], which was never bound: what leaves the method is an
    [UnboundLocalError], not the connector's [Error].  No INSERT, no
    aggregate statement and no commit is issued, no cursor is closed, and
    the committed state is untouched. *)
Theorem database_methods_without_cursor (w w0 : world) (msg : string) :
  reconnect_if_needed w = (Return tt, w0) ->
  cursor_answer w0 = Fails msg ->
  (forall df,
     exists w',
       save_stock_details df w = (Raise unbound_cursor, w') /\
       durable w' = durable w /\
       journal w' =
         journal w0 ++
         [Cursor; LogError ("Error saving stock details: " +:+ msg);
          Rollback])
  /\ (exists w',
        update_profit_statistics w = (Raise unbound_cursor, w') /\
        durable w' = durable w /\
        journal w' =
          journal w0 ++
          [Cursor; LogError ("Error updating profit statistics: " +:+ msg);
           Rollback])
  /\ is_Error unbound_cursor = false
  /\ is_NameError unbound_cursor = true.
Proof.
  intros Hre Hcur.
  pose proof (reconnect_if_needed_reconnected _ _ _ Hre) as (Hd & _).
  split; [|split; [|split; reflexivity]].
  - intros df.
    destruct (save_stock_details_journal_refused df w w0 msg Hre Hcur)
      as (Hrun & Hj & Hd').
    eexists. split; [exact Hrun|]. split; [congruence | exact Hj].
  - rewrite (update_profit_statistics_run _ _ Hre), Hcur.
    eexists. split; [reflexivity|]. simpl.
    split; [exact Hd|]. repeat (rewrite <- app_assoc; simpl). reflexivity.
Qed.

Lemma database_methods_without_cursor_witness :
  (exists w',
     save_stock_details [row_up] (dead_connection connected_world)
     = (Raise unbound_cursor, w') /\
     durable w' = durable (dead_connection connected_world))
  /\ fst (analyze_stocks ["AAPL"] (dead_connection connected_world))
     = Return (false, failure_message unbound_cursor).
Proof.
  assert (Hre : reconnect_if_needed (dead_connection connected_world) =
                (Return tt,
                 snd (reconnect_if_needed (dead_connection connected_world))))
    by (vm_compute; reflexivity).
  assert (Hcur : cursor_answer
                   (snd (reconnect_if_needed (dead_connection connected_world)))
                 = Fails "MySQL Connection not available.")
    by (vm_compute; reflexivity).
  destruct (database_methods_without_cursor _ _ _ Hre Hcur) as (Hsave & _).
  split.
  - destruct (Hsave [row_up]) as (w' & Hrun & Hd & _).
    exists w'. split; [exact Hrun | exact Hd].
  - vm_compute. reflexivity.
Defined.

(** ** The loop of analyze_stocks *)

Lemma histories_of_app evs1 evs2 :
  histories_of (evs1 ++ evs2) = histories_of evs1 ++ histories_of evs2.
Proof. unfold histories_of. apply flat_map_app. Qed.

Lemma histories_of_storage evs :
  Forall storage_event evs -> histories_of evs = [].
Proof.
  induction 1 as [|ev evs Hev _ IH]; [reflexivity|].
  simpl. rewrite IH. now destruct ev.
Qed.

Lemma connection_event_storage evs :
  Forall connection_event evs -> Forall storage_event evs.
Proof.
  intros H. eapply Forall_impl; [exact H|]. intros []; simpl; tauto.
Qed.

Lemma settling_event_storage evs :
  Forall settling_event evs -> Forall storage_event evs.
Proof.
  intros H. eapply Forall_impl; [exact H|]. intros []; simpl; tauto.
Qed.

Lemma insert_events_storage vs : Forall storage_event (map insert_event vs).
Proof. induction vs; constructor; simpl; auto. Qed.

(** [save_stock_details] never talks to the provider. *)
Lemma save_stock_details_frame df w :
  fetches (snd (save_stock_details df w)) = fetches w /\
  history (snd (save_stock_details df w)) = history w /\
  exists evs,
    journal (snd (save_stock_details df w)) = journal w ++ evs /\
    Forall storage_event evs.
Proof.
  destruct (reconnect_if_needed w) as [[[]|e] w0] eqn:Hre;
    pose proof (reconnect_if_needed_reconnected _ _ _ Hre)
      as (_ & _ & _ & Hh & Hf & _ & _ & evs0 & Hj0 & Hev0).
  - destruct (cursor_answer w0) as [|cmsg] eqn:Hcur.
    2: { destruct (save_stock_details_journal_refused df w w0 cmsg Hre Hcur)
           as (-> & Hj & _).
         cbn [snd]. split; [exact Hf|]. split; [exact Hh|].
         rewrite Hj, Hj0, <- app_assoc. eexists. split; [reflexivity|].
         apply Forall_app. split; [now apply connection_event_storage|].
         repeat constructor. }
    destruct (save_stock_details_journal df w w0 Hre Hcur)
      as (n & settle & _ & Hj & Hsettle).
    split; [|split].
    + rewrite (save_stock_details_run _ _ _ Hre), Hcur.
      destruct (iterrows df None (cursor_called w0)) as [o1 w1] eqn:Hit.
      apply iterrows_frame in Hit as (Hf1 & _).
      destruct o1 as [[r|]|e];
        [destruct (answer_at 0 (commits w1))
        |destruct (answer_at 0 (commits w1))
        |destruct e]; simpl; rewrite Hf1; exact Hf.
    + rewrite (save_stock_details_run _ _ _ Hre), Hcur.
      destruct (iterrows df None (cursor_called w0)) as [o1 w1] eqn:Hit.
      apply iterrows_frame in Hit as (_ & Hh1 & _).
      destruct o1 as [[r|]|e];
        [destruct (answer_at 0 (commits w1))
        |destruct (answer_at 0 (commits w1))
        |destruct e]; simpl; rewrite Hh1; exact Hh.
    + rewrite Hj, Hj0. rewrite <- app_assoc. eexists. split; [reflexivity|].
      apply Forall_app. split; [now apply connection_event_storage|].
      constructor; [exact I|].
      apply Forall_app. split; [apply insert_events_storage|].
      apply Forall_app. split; [now apply settling_event_storage|].
      repeat constructor.
  - rewrite (save_stock_details_no_connection _ _ _ _ Hre). simpl.
    repeat split; auto.
    exists evs0. split; [exact Hj0 | now apply connection_event_storage].
Qed.

Lemma update_profit_statistics_no_connection w e w0 :
  reconnect_if_needed w = (Raise e, w0) ->
  update_profit_statistics w = (Raise e, w0).
Proof.
  intros Hre. unfold update_profit_statistics. unfold bind at 1.
  now rewrite Hre.
Qed.

(** Nor does [update_profit_statistics], and it inserts no row. *)
Lemma update_profit_statistics_frame w :
  fetches (snd (update_profit_statistics w)) = fetches w /\
  history (snd (update_profit_statistics w)) = history w /\
  exists evs,
    journal (snd (update_profit_statistics w)) = journal w ++ evs /\
    Forall storage_event evs /\
    inserts_of evs = [].
Proof.
  destruct (reconnect_if_needed w) as [[[]|e] w0] eqn:Hre;
    pose proof (reconnect_if_needed_reconnected _ _ _ Hre)
      as (_ & _ & _ & Hh & Hf & _ & _ & evs0 & Hj0 & Hev0).
  - assert (Hgen : forall w2 tail,
              fetches w2 = fetches w0 -> history w2 = history w0 ->
              journal w2 = journal w0 ++ tail ->
              Forall storage_event tail -> inserts_of tail = [] ->
              fetches w2 = fetches w /\ history w2 = history w /\
              exists evs,
                journal w2 = journal w ++ evs /\
                Forall storage_event evs /\ inserts_of evs = []).
    { intros w2 tail Hf2 Hh2 Hj2 Ht Hi.
      split; [congruence|]. split; [congruence|].
      exists (evs0 ++ tail). rewrite Hj2, Hj0, <- app_assoc.
      split; [reflexivity|]. split.
      - apply Forall_app. split; [now apply connection_event_storage | exact Ht].
      - now rewrite inserts_of_app, (inserts_of_connection_events _ Hev0). }
    rewrite (update_profit_statistics_run _ _ Hre).
    destruct (cursor_answer w0);
      [destruct (answer_at 0 (executes w0));
       [cbv zeta; destruct (answer_at 0 (commits w0))|]|];
      (eapply Hgen;
       [ reflexivity | reflexivity
       | simpl; repeat (rewrite <- app_assoc; simpl); reflexivity
       | repeat constructor | reflexivity ]).
  - rewrite (update_profit_statistics_no_connection _ _ _ Hre). simpl.
    split; [exact Hf|]. split; [exact Hh|].
    exists evs0. split; [exact Hj0|]. split.
    + now apply connection_event_storage.
    + now apply inserts_of_connection_events.
Qed.

Lemma get_stock_data_world tkr w :
  exists logs,
    journal (snd (get_stock_data tkr w)) = journal w ++ History tkr :: logs /\
    Forall storage_event logs /\
    inserts_of logs = [] /\
    fetches (snd (get_stock_data tkr w)) = S (fetches w) /\
    history (snd (get_stock_data tkr w)) = history w /\
    durable (snd (get_stock_data tkr w)) = durable w /\
    session (snd (get_stock_data tkr w)) = session w.
Proof.
  pose proof (get_stock_data_cases tkr w) as H.
  destruct (history w (fetches w) tkr) as [[|b bs]|msg]; rewrite H; simpl.
  - exists []. repeat split; auto.
  - exists []. repeat split; auto.
  - exists [LogError (fetch_error_line tkr msg)].
    rewrite <- app_assoc. repeat split; auto. repeat constructor.
Qed.

Lemma for_each_ticker_fetches tickers :
  forall w,
  exists k,
    (k <= length tickers)%nat /\
    histories_of (journal (snd (for_each_ticker tickers w))) =
      histories_of (journal w) ++ take k tickers /\
    fetches (snd (for_each_ticker tickers w)) = (fetches w + k)%nat /\
    history (snd (for_each_ticker tickers w)) = history w /\
    (fst (for_each_ticker tickers w) = Return tt -> k = length tickers).
Proof.
  induction tickers as [|t rest IH]; intros w.
  - exists 0%nat. simpl. rewrite app_nil_r. repeat split; auto.
  - destruct (get_stock_data_world t w)
      as (logs & Hj & Hlogs & _ & Hf & Hh & _).
    destruct (get_stock_data t w) as [[df|e] w1] eqn:Hget;
      simpl in Hj, Hf, Hh.
    + assert (Hstep : exists w2 o2,
                (match df with
                 | Some df0 => save_stock_details df0
                 | None => ret tt
                 end) w1 = (o2, w2) /\
                fetches w2 = fetches w1 /\ history w2 = history w1 /\
                exists evs, journal w2 = journal w1 ++ evs /\
                            Forall storage_event evs).
      { destruct df as [df|].
        - destruct (save_stock_details_frame df w1) as (Hf2 & Hh2 & Hev).
          destruct (save_stock_details df w1) as [o2 w2]. eauto 6.
        - exists w1, (Return tt). unfold ret. repeat split; auto.
          exists []. now rewrite app_nil_r. }
      destruct Hstep as (w2 & o2 & Hrun & Hf2 & Hh2 & evs & Hj2 & Hevs).
      assert (Hall : for_each_ticker (t :: rest) w =
                     match o2 with
                     | Return _ => for_each_ticker rest w2
                     | Raise e => (Raise e, w2)
                     end).
      { cbn [for_each_ticker]. unfold bind at 1. rewrite Hget.
        unfold bind at 1. rewrite Hrun. now destruct o2. }
      rewrite Hall. clear Hall.
      assert (Hhist : histories_of (journal w2) =
                      histories_of (journal w) ++ [t]).
      { rewrite Hj2, Hj, !histories_of_app. simpl.
        rewrite (histories_of_storage _ Hlogs), (histories_of_storage _ Hevs).
        now rewrite !app_nil_r. }
      destruct o2 as [[]|e].
      * destruct (IH w2) as (k & Hk & Hjk & Hfk & Hhk & Hret).
        exists (S k). rewrite Hjk, Hfk, Hhk, Hhist, Hf2, Hh2, Hf, Hh.
        rewrite <- app_assoc. simpl.
        repeat split; auto; try lia;
          try (intros Hr; now rewrite (Hret Hr)).
      * exists 1%nat. simpl. rewrite Hhist, Hf2, Hh2, Hf, Hh, take_0.
        repeat split; auto; try lia; try discriminate.
    + exfalso.
      pose proof (get_stock_data_cases t w) as Hc.
      destruct (history w (fetches w) t) as [[|b bs]|msg];
        rewrite Hc in Hget; discriminate.
Qed.

Lemma analyze_stocks_run tickers w :
  analyze_stocks tickers w =
  match for_each_ticker tickers w with
  | (Return _, w1) =>
      match update_profit_statistics w1 with
      | (Return _, w2) =>
          (Return (true, "Analysis completed successfully"), w2)
      | (Raise e, w2) =>
          (Return (false, failure_message e),
           record (LogError (failure_message e)) w2)
      end
  | (Raise e, w1) =>
      (Return (false, failure_message e),
       record (LogError (failure_message e)) w1)
  end.
Proof.
  unfold analyze_stocks, analysis, try_except. unfold bind at 1.
  destruct (for_each_ticker tickers w) as [[[]|e] w1]; [|reflexivity].
  unfold bind at 1.
  destruct (update_profit_statistics w1) as [[[]|e] w2]; reflexivity.
Qed.

(** X12: [analyze_stocks] asks the provider once per ticker, in the order
    of the list, and stops asking at the first ticker whose save fails: a
    run requests a prefix of the tickers, and a run that reports success
    has requested all of them. *)
Theorem analyze_stocks_fetches_each_ticker_once
    (tickers : list string) (w : world) :
  exists k,
    (k <= length tickers)%nat /\
    histories_of (journal (snd (analyze_stocks tickers w))) =
      histories_of (journal w) ++ take k tickers /\
    fetches (snd (analyze_stocks tickers w)) = (fetches w + k)%nat /\
    (forall msg, fst (analyze_stocks tickers w) = Return (true, msg) ->
                 k = length tickers).
Proof.
  destruct (for_each_ticker_fetches tickers w)
    as (k & Hk & Hj & Hf & _ & Hret).
  exists k. split; [exact Hk|].
  rewrite analyze_stocks_run.
  destruct (for_each_ticker tickers w) as [[[]|e] w1];
    cbn [fst snd] in Hj, Hf, Hret.
  - destruct (update_profit_statistics_frame w1)
      as (Hfu & _ & evs & Hju & Hevs & _).
    destruct (update_profit_statistics w1) as [[[]|e] w2];
      cbn [fst snd journal fetches record] in *.
    + rewrite Hju, histories_of_app, (histories_of_storage _ Hevs), Hfu.
      rewrite app_nil_r. auto.
    + rewrite Hju, !histories_of_app, (histories_of_storage _ Hevs), Hfu.
      simpl. rewrite !app_nil_r. repeat split; auto; try discriminate.
  - cbn [fst snd journal fetches record].
    rewrite histories_of_app. simpl. rewrite app_nil_r.
    repeat split; auto; try discriminate.
Qed.

Lemma analyze_stocks_fetches_each_ticker_once_witness :
  exists k,
    histories_of (journal (snd (analyze_stocks ["AAPL"; "XXXX"; "MSFT"]
                                  fresh_world)))
    = [] ++ take k ["AAPL"; "XXXX"; "MSFT"] /\
    k = 3%nat.
Proof.
  destruct (analyze_stocks_fetches_each_ticker_once
              ["AAPL"; "XXXX"; "MSFT"] fresh_world)
    as (k & _ & Hj & _ & Hk).
  exists k. split; [exact Hj|].
  apply (Hk "Analysis completed successfully").
  vm_compute. reflexivity.
Defined.

Lemma with_columns_tagged tkr bars :
  Forall (fun r => ticker r = tkr) (map (with_columns tkr) bars).
Proof. induction bars; constructor; auto. Qed.

Lemma get_stock_data_tagged tkr w df w1 :
  get_stock_data tkr w = (Return (Some df), w1) ->
  Forall (fun r => ticker r = tkr) df.
Proof.
  pose proof (get_stock_data_cases tkr w) as H.
  destruct (history w (fetches w) tkr) as [[|b bs]|msg];
    rewrite H; intros [= <- <-].
  apply (with_columns_tagged tkr (b :: bs)).
Qed.

Lemma for_each_ticker_inserts tickers :
  forall w,
  exists vs,
    inserts_of (journal (snd (for_each_ticker tickers w))) =
      inserts_of (journal w) ++ vs /\
    Forall (fun v => sd_ticker v ∈ tickers) vs.
Proof.
  induction tickers as [|t rest IH]; intros w.
  - exists []. simpl. now rewrite app_nil_r.
  - destruct (get_stock_data_world t w)
      as (logs & Hj & _ & Hlogs & _).
    destruct (get_stock_data t w) as [[df|e] w1] eqn:Hget; simpl in Hj.
    + assert (Hstep : exists w2 o2 vs,
                (match df with
                 | Some df0 => save_stock_details df0
                 | None => ret tt
                 end) w1 = (o2, w2) /\
                inserts_of (journal w2) = inserts_of (journal w1) ++ vs /\
                Forall (fun v => sd_ticker v = t) vs).
      { destruct df as [df|].
        - pose proof (get_stock_data_tagged _ _ _ _ Hget) as Htag.
          destruct (save_stock_details_effect df w1) as ((n & _ & Hi) & _).
          destruct (save_stock_details df w1) as [o2 w2]. simpl in Hi.
          exists w2, o2, (map values_of (take n df)).
          repeat split; auto.
          apply Forall_forall. intros v Hv.
          apply list_elem_of_fmap in Hv as (r & -> & Hr).
          rewrite Forall_forall in Htag. simpl. apply Htag.
          apply list_elem_of_In. apply list_elem_of_In in Hr.
          eapply In_take; eassumption.
        - exists w1, (Return tt), []. unfold ret. repeat split; auto.
          now rewrite app_nil_r. }
      destruct Hstep as (w2 & o2 & vs & Hrun & Hi2 & Hvs).
      assert (Hall : for_each_ticker (t :: rest) w =
                     match o2 with
                     | Return _ => for_each_ticker rest w2
                     | Raise e => (Raise e, w2)
                     end).
      { cbn [for_each_ticker]. unfold bind at 1. rewrite Hget.
        unfold bind at 1. rewrite Hrun. now destruct o2. }
      rewrite Hall. clear Hall.
      assert (Hi1 : inserts_of (journal w1) = inserts_of (journal w)).
      { rewrite Hj. change (History t :: logs) with ([History t] ++ logs).
        rewrite !inserts_of_app, Hlogs. simpl. now rewrite app_nil_r. }
      assert (Hhere : Forall (fun v => sd_ticker v ∈ t :: rest) vs).
      { eapply Forall_impl; [exact Hvs|]. intros v <-. left. }
      destruct o2 as [[]|e].
      * destruct (IH w2) as (vs' & Hi' & Hvs').
        exists (vs ++ vs'). rewrite Hi', Hi2, Hi1, <- app_assoc.
        split; [reflexivity|].
        apply Forall_app. split; [exact Hhere|].
        eapply Forall_impl; [exact Hvs'|]. intros v Hv. now right.
      * exists vs. simpl. rewrite Hi2, Hi1. auto.
    + exfalso.
      pose proof (get_stock_data_cases t w) as Hc.
      destruct (history w (fetches w) t) as [[|b bs]|msg];
        rewrite Hc in Hget; discriminate.
Qed.

(** X13: every tuple that a run of [analyze_stocks] passes to INSERT
    carries one of the requested tickers: nothing is stored under a ticker
    that was not asked for. *)
Theorem analyze_stocks_inserts_requested_tickers
    (tickers : list string) (w : world) :
  exists vs,
    inserts_of (journal (snd (analyze_stocks tickers w))) =
      inserts_of (journal w) ++ vs /\
    Forall (fun v => sd_ticker v ∈ tickers) vs.
Proof.
  destruct (for_each_ticker_inserts tickers w) as (vs & Hi & Hvs).
  exists vs. split; [|exact Hvs].
  rewrite analyze_stocks_run.
  destruct (for_each_ticker tickers w) as [[[]|e] w1]; cbn [snd] in Hi.
  - destruct (update_profit_statistics_frame w1)
      as (_ & _ & evs & Hju & _ & Hiu).
    destruct (update_profit_statistics w1) as [[[]|e] w2];
      cbn [snd journal record] in *;
      rewrite Hju, ?inserts_of_app, Hiu, Hi; simpl;
      now rewrite ?app_nil_r.
  - cbn [snd journal record]. rewrite inserts_of_app, Hi. simpl.
    now rewrite app_nil_r.
Qed.

(** ** StockDetails is append-only *)

Lemma appended_to_refl w : appended_to w w.
Proof. exists []. now rewrite app_nil_r. Qed.

Lemma appended_to_trans w1 w2 w3 :
  appended_to w1 w2 -> appended_to w2 w3 -> appended_to w1 w3.
Proof.
  intros [a Ha] [b Hb]. exists (a ++ b). now rewrite Hb, Ha, app_assoc.
Qed.

Lemma reconnected_extends w w0 :
  reconnected w w0 -> session_extends_durable w ->
  session_extends_durable w0 /\ StockDetails (durable w0) = StockDetails (durable w).
Proof.
  intros (Hd & _ & _ & _ & _ & _ & Hs & _) [p Hp].
  split; [|now rewrite Hd].
  unfold session_extends_durable.
  destruct Hs as [Hs | Hs]; rewrite Hs, Hd.
  - exists p. exact Hp.
  - exists []. now rewrite app_nil_r.
Qed.

Lemma save_stock_details_append_only df w :
  session_extends_durable w ->
  appended_to w (snd (save_stock_details df w)) /\
  session_extends_durable (snd (save_stock_details df w)).
Proof.
  intros Hext.
  destruct (reconnect_if_needed w) as [[[]|e] w0] eqn:Hre;
    pose proof (reconnect_if_needed_reconnected _ _ _ Hre) as Hrec;
    destruct (reconnected_extends _ _ Hrec Hext) as [[p Hp] Hd0].
  - rewrite (save_stock_details_run _ _ _ Hre).
    destruct (cursor_answer w0) as [|cmsg].
    2: { unfold appended_to, session_extends_durable. simpl. split.
         - exists []. now rewrite Hd0, app_nil_r.
         - destruct (answer_at 0 (rollbacks w0)).
           + exists []. now rewrite app_nil_r.
           + now exists p. }
    destruct (iterrows df None (cursor_called w0)) as [o1 w1] eqn:Hit.
    destruct (iterrows_effect _ _ _ _ _ Hit)
      as (Hd1 & _ & _ & _ & n & m & _ & _ & Hs1).
    simpl in Hd1, Hs1.
    assert (Hext1 : StockDetails (session w1) =
                    StockDetails (durable w) ++ p ++ map values_of (take m df)).
    { rewrite Hs1, Hp, Hd0, <- app_assoc. reflexivity. }
    assert (Hdur1 : StockDetails (durable w1) = StockDetails (durable w))
      by now rewrite Hd1.
    assert (Hgen : forall w2,
              (durable w2 = durable w1 \/ durable w2 = session w1) ->
              (session w2 = durable w2 \/
               (session w2 = session w1 /\ durable w2 = durable w1)) ->
              appended_to w w2 /\ session_extends_durable w2).
    { intros w2 Hd2 Hs2. unfold appended_to, session_extends_durable. split.
      - destruct Hd2 as [Hd2 | Hd2]; rewrite Hd2.
        + exists []. now rewrite Hdur1, app_nil_r.
        + eexists. exact Hext1.
      - destruct Hs2 as [Hs2 | [Hs2 Hd2']].
        + rewrite Hs2. exists []. now rewrite app_nil_r.
        + rewrite Hs2, Hd2'. eexists. rewrite Hdur1. exact Hext1. }
    destruct o1 as [[r|]|e];
      [destruct (answer_at 0 (commits w1))
      |destruct (answer_at 0 (commits w1))
      |destruct e]; apply Hgen; simpl;
      try destruct (answer_at 0 (rollbacks w1)); auto.
  - rewrite (save_stock_details_no_connection _ _ _ _ Hre). simpl. split.
    + exists []. now rewrite Hd0, app_nil_r.
    + now exists p.
Qed.

Lemma update_profit_statistics_append_only w :
  session_extends_durable w ->
  appended_to w (snd (update_profit_statistics w)) /\
  session_extends_durable (snd (update_profit_statistics w)).
Proof.
  intros Hext.
  destruct (reconnect_if_needed w) as [[[]|e] w0] eqn:Hre;
    pose proof (reconnect_if_needed_reconnected _ _ _ Hre) as Hrec;
    destruct (reconnected_extends _ _ Hrec Hext) as [[p Hp] Hd0].
  - assert (Hkeep : forall t,
              (t = durable w0 \/
               StockDetails t = StockDetails (session w0)) ->
              (exists added,
                 StockDetails (durable w0) =
                 StockDetails (durable w) ++ added) /\
              (exists pending,
                 StockDetails t = StockDetails (durable w0) ++ pending)).
    { intros t Ht. split.
      - exists []. now rewrite Hd0, app_nil_r.
      - destruct Ht as [-> | ->].
        + exists []. now rewrite app_nil_r.
        + now exists p. }
    rewrite (update_profit_statistics_run _ _ Hre).
    destruct (cursor_answer w0);
      [destruct (answer_at 0 (executes w0));
       [cbv zeta; destruct (answer_at 0 (commits w0))|]|];
      unfold appended_to, session_extends_durable; simpl;
      try (destruct (answer_at 0 (rollbacks w0)); apply Hkeep; auto).
    rewrite Hp, Hd0. split; [eauto|]. exists []. now rewrite app_nil_r.
  - rewrite (update_profit_statistics_no_connection _ _ _ Hre). simpl. split.
    + exists []. now rewrite Hd0, app_nil_r.
    + now exists p.
Qed.

Lemma for_each_ticker_append_only tickers :
  forall w,
    session_extends_durable w ->
    appended_to w (snd (for_each_ticker tickers w)) /\
    session_extends_durable (snd (for_each_ticker tickers w)).
Proof.
  induction tickers as [|t rest IH]; intros w Hext.
  - split; [apply appended_to_refl | exact Hext].
  - destruct (get_stock_data_world t w)
      as (logs & _ & _ & _ & _ & _ & Hd & Hs).
    pose proof (get_stock_data_cases t w) as Hc.
    destruct (get_stock_data t w) as [[df|e] w1] eqn:Hget;
      simpl in Hd, Hs;
      [|destruct (history w (fetches w) t) as [[|b bs]|msg]; discriminate].
    clear Hc.
    assert (Hext1 : session_extends_durable w1).
    { destruct Hext as [p Hp]. exists p. now rewrite Hs, Hd. }
    assert (Happ1 : appended_to w w1).
    { exists []. now rewrite Hd, app_nil_r. }
    assert (Hstep : exists w2 o2,
              (match df with
               | Some df0 => save_stock_details df0
               | None => ret tt
               end) w1 = (o2, w2) /\
              appended_to w1 w2 /\ session_extends_durable w2).
    { destruct df as [df|].
      - destruct (save_stock_details_append_only df w1 Hext1) as [Ha He].
        destruct (save_stock_details df w1) as [o2 w2]. eauto.
      - exists w1, (Return tt). unfold ret.
        repeat split; auto using appended_to_refl. }
    destruct Hstep as (w2 & o2 & Hrun & Happ2 & Hext2).
    assert (Hall : for_each_ticker (t :: rest) w =
                   match o2 with
                   | Return _ => for_each_ticker rest w2
                   | Raise e => (Raise e, w2)
                   end).
    { cbn [for_each_ticker]. unfold bind at 1. rewrite Hget.
      unfold bind at 1. rewrite Hrun. now destruct o2. }
    rewrite Hall. clear Hall.
    destruct o2 as [[]|e].
    + destruct (IH w2 Hext2) as [Ha He]. split; [|exact He].
      eauto using appended_to_trans.
    + simpl. split; [|exact Hext2]. eauto using appended_to_trans.
Qed.

(** X14: StockDetails is append-only under [analyze_stocks].  From a
    state whose session holds the committed rows followed by its
    uncommitted ones, a run, whatever its outcome, leaves every committed
    row in place and only adds rows after them; and the final state is
    again of that kind. *)
Theorem analyze_stocks_append_only (tickers : list string) (w : world) :
  session_extends_durable w ->
  appended_to w (snd (analyze_stocks tickers w)) /\
  session_extends_durable (snd (analyze_stocks tickers w)).
Proof.
  intros Hext. rewrite analyze_stocks_run.
  destruct (for_each_ticker_append_only tickers w Hext) as [Ha He].
  destruct (for_each_ticker tickers w) as [[[]|e] w1]; cbn [snd] in Ha, He.
  - destruct (update_profit_statistics_append_only w1 He) as [Ha2 He2].
    destruct (update_profit_statistics w1) as [[[]|e] w2];
      cbn [snd] in *; split; eauto using appended_to_trans.
  - cbn [snd]. split; assumption.
Qed.

Lemma analyze_stocks_append_only_witness :
  appended_to stocked_world (snd (analyze_stocks ["MSFT"] stocked_world)).
Proof.
  apply analyze_stocks_append_only.
  exists []. vm_compute. reflexivity.
Defined.

Lemma analyze_stocks_keeps_labels_witness :
  labelled_world (snd (analyze_stocks ["AAPL"; "MSFT"] fresh_world)).
Proof.
  apply analyze_stocks_keeps_labels. split; constructor.
Defined.

(** ** Runs without data *)

Lemma for_each_ticker_without_data tickers :
  forall w,
    Forall (no_data w) tickers ->
    exists w1 evs,
      for_each_ticker tickers w = (Return tt, w1) /\
      durable w1 = durable w /\ session w1 = session w /\
      connection w1 = connection w /\
      executes w1 = executes w /\ commits w1 = commits w /\
      connects w1 = connects w /\ pings w1 = pings w /\
      history w1 = history w /\
      fetches w1 = (fetches w + length tickers)%nat /\
      journal w1 = journal w ++ evs /\
      Forall provider_event evs /\
      histories_of evs = tickers.
Proof.
  induction tickers as [|t rest IH]; intros w Hno.
  - exists w, []. rewrite app_nil_r, Nat.add_0_r.
    repeat split; auto.
  - inversion Hno as [|? ? Ht Hrest]; subst.
    assert (Hstep : exists w1 logs,
              get_stock_data t w = (Return None, w1) /\
              durable w1 = durable w /\ session w1 = session w /\
              connection w1 = connection w /\
              executes w1 = executes w /\ commits w1 = commits w /\
              connects w1 = connects w /\ pings w1 = pings w /\
              history w1 = history w /\ fetches w1 = S (fetches w) /\
              journal w1 = journal w ++ History t :: logs /\
              Forall provider_event logs /\ histories_of logs = []).
    { pose proof (get_stock_data_cases t w) as Hc.
      destruct (Ht (fetches w)) as [Hb | [msg Hm]].
      - rewrite Hb in Hc. exists (fetched t w), [].
        repeat split; auto.
      - rewrite Hm in Hc. eexists _, [LogError _].
        split; [exact Hc|]. simpl. rewrite <- app_assoc.
        repeat split; auto. repeat constructor. }
    destruct Hstep as (w1 & logs & Hget & Hd & Hs & Hc & He & Hcm & Hcn
                       & Hp & Hh & Hf & Hj & Hlogs & Hhl).
    assert (Hno1 : Forall (no_data w1) rest).
    { eapply Forall_impl; [exact Hrest|]. intros x Hx n.
      rewrite Hh. apply Hx. }
    destruct (IH w1 Hno1)
      as (w2 & evs & Hrun & Hd2 & Hs2 & Hc2 & He2 & Hcm2 & Hcn2 & Hp2
          & Hh2 & Hf2 & Hj2 & Hevs & Hh2').
    exists w2, (History t :: logs ++ evs).
    split.
    { cbn [for_each_ticker]. unfold bind at 1. rewrite Hget.
      unfold bind at 1. unfold ret. exact Hrun. }
    repeat split; try congruence.
    + rewrite Hf2, Hf. simpl. lia.
    + rewrite Hj2, Hj, <- app_assoc. reflexivity.
    + constructor; [exact I|]. apply Forall_app. auto.
    + change (History t :: logs ++ evs) with ([History t] ++ logs ++ evs).
      rewrite !histories_of_app, Hhl, Hh2'. reflexivity.
Qed.

(** X16: when the provider has nothing for any of the tickers (no bars,
    or an exception), the loop of [analyze_stocks] finishes without
    touching the database or the connection: it only makes one request
    per ticker, and the run is then decided by the recompute alone. *)
Theorem analyze_stocks_without_data (tickers : list string) (w : world) :
  Forall (no_data w) tickers ->
  exists w1 evs,
    for_each_ticker tickers w = (Return tt, w1) /\
    durable w1 = durable w /\ session w1 = session w /\
    connection w1 = connection w /\
    journal w1 = journal w ++ evs /\
    Forall provider_event evs /\
    histories_of evs = tickers /\
    analyze_stocks tickers w =
      match update_profit_statistics w1 with
      | (Return _, w2) =>
          (Return (true, "Analysis completed successfully"), w2)
      | (Raise e, w2) =>
          (Return (false, failure_message e),
           record (LogError (failure_message e)) w2)
      end.
Proof.
  intros Hno.
  destruct (for_each_ticker_without_data tickers w Hno)
    as (w1 & evs & Hrun & Hd & Hs & Hc & _ & _ & _ & _ & _ & _ & Hj
        & Hevs & Hh).
  exists w1, evs. repeat split; auto.
  rewrite analyze_stocks_run, Hrun. reflexivity.
Qed.

Lemma analyze_stocks_without_data_witness :
  exists w1,
    for_each_ticker ["XXXX"; "IDLE"] fresh_world = (Return tt, w1) /\
    durable w1 = durable fresh_world /\
    connection w1 = connection fresh_world.
Proof.
  destruct (analyze_stocks_without_data ["XXXX"; "IDLE"] fresh_world)
    as (w1 & evs & Hrun & Hd & _ & Hc & _).
  - constructor; [intros n; right; eexists; reflexivity|].
    constructor; [intros n; left; reflexivity|]. constructor.
  - exists w1. repeat split; assumption.
Defined.

(** * The command line *)

(** ** Characters *)

Ltac each_ascii c := destruct c as [[] [] [] [] [] [] [] []].

Lemma isspace_lower c : PyStr.isspace (PyStr.lower_char c) = PyStr.isspace c.
Proof. each_ascii c; reflexivity. Qed.

Lemma isspace_upper c : PyStr.isspace (PyStr.upper_char c) = PyStr.isspace c.
Proof. each_ascii c; reflexivity. Qed.

Lemma upper_char_idem c :
  PyStr.upper_char (PyStr.upper_char c) = PyStr.upper_char c.
Proof. each_ascii c; reflexivity. Qed.

Lemma upper_char_comma c :
  PyStr.upper_char c = ","%char -> c = ","%char.
Proof. each_ascii c; vm_compute; congruence. Qed.

(** ** strip *)

Lemma lstrip_blank ws s : blank ws -> PyStr.lstrip (ws ++ s) = PyStr.lstrip s.
Proof.
  induction 1 as [|c ws Hc _ IH]; [reflexivity|].
  simpl. now rewrite Hc.
Qed.

Lemma lstrip_blank_nil ws : blank ws -> PyStr.lstrip ws = [].
Proof.
  intros H. rewrite <- (app_nil_r ws). now rewrite lstrip_blank.
Qed.

Lemma lstrip_idem s : PyStr.lstrip (PyStr.lstrip s) = PyStr.lstrip s.
Proof.
  induction s as [|c s IH]; [reflexivity|].
  simpl. destruct (PyStr.isspace c) eqn:Hc; [exact IH|].
  simpl. now rewrite Hc.
Qed.

Lemma lstrip_snoc x c :
  PyStr.isspace c = false ->
  exists y, PyStr.lstrip (x ++ [c]) = y ++ [c].
Proof.
  intros Hc. induction x as [|a x IH]; simpl.
  - rewrite Hc. now exists [].
  - destruct (PyStr.isspace a); [exact IH|]. now exists (a :: x).
Qed.

Lemma rstrip_idem s : PyStr.rstrip (PyStr.rstrip s) = PyStr.rstrip s.
Proof.
  unfold PyStr.rstrip. now rewrite rev_involutive, lstrip_idem.
Qed.

(** Stripping on the right leaves a string that does not start with white
    space as it is on the left. *)
Lemma lstrip_rstrip u :
  PyStr.lstrip u = u -> PyStr.lstrip (PyStr.rstrip u) = PyStr.rstrip u.
Proof.
  destruct u as [|c u]; [reflexivity|].
  simpl. destruct (PyStr.isspace c) eqn:Hc.
  - intros H. exfalso.
    assert (Hlen : (length (PyStr.lstrip u) <= length u)%nat).
    { clear. induction u as [|a u IH]; simpl; [lia|].
      destruct (PyStr.isspace a); simpl; lia. }
    rewrite H in Hlen. simpl in Hlen. lia.
  - intros _. unfold PyStr.rstrip.
    change (rev (c :: u)) with (rev u ++ [c]).
    destruct (lstrip_snoc (rev u) c Hc) as [y Hy]. rewrite !Hy.
    rewrite rev_app_distr. simpl. now rewrite Hc.
Qed.

Lemma strip_idem s : PyStr.strip (PyStr.strip s) = PyStr.strip s.
Proof.
  unfold PyStr.strip.
  rewrite (lstrip_rstrip (PyStr.lstrip s)) by apply lstrip_idem.
  apply rstrip_idem.
Qed.

(** White space around a word is stripped, and only that. *)
Lemma strip_padded l a mid z r :
  blank l -> blank r ->
  PyStr.isspace a = false -> PyStr.isspace z = false ->
  PyStr.strip (l ++ (a :: mid ++ [z]) ++ r) = a :: mid ++ [z].
Proof.
  intros Hl Hr Ha Hz. unfold PyStr.strip.
  rewrite (lstrip_blank _ _ Hl). simpl. rewrite Ha.
  unfold PyStr.rstrip.
  change (a :: (mid ++ [z]) ++ r) with ((a :: mid ++ [z]) ++ r).
  rewrite rev_app_distr.
  rewrite lstrip_blank.
  - change (a :: mid ++ [z]) with ((a :: mid) ++ [z]).
    rewrite rev_app_distr. simpl. rewrite Hz.
    simpl. rewrite rev_app_distr, rev_involutive. reflexivity.
  - unfold blank in *. rewrite Forall_forall in *. intros c Hc.
    apply Hr. apply list_elem_of_In. apply list_elem_of_In in Hc.
    now apply in_rev.
Qed.

Lemma lower_blank s : blank s -> blank (PyStr.lower s).
Proof.
  induction 1 as [|c s Hc _ IH]; constructor; auto.
  now rewrite isspace_lower.
Qed.

Lemma chars_of_string_of s : chars_of (string_of s) = s.
Proof. apply String.list_ascii_of_string_of_list_ascii. Qed.

Lemma string_of_chars_of s : string_of (chars_of s) = s.
Proof. apply String.string_of_list_ascii_of_string. Qed.

(** X18: the answer "all" is recognised in any mix of upper and lower
    case and with any white space around it, and then the tickers to
    analyse are exactly the stocks listed as available. *)
Theorem select_tickers_all (user_input : string) (l word r : PyStr.chars)
    (available_stocks : list string) :
  chars_of user_input = l ++ word ++ r ->
  blank l -> blank r ->
  PyStr.lower word = chars_of "all" ->
  select_tickers user_input available_stocks = available_stocks.
Proof.
  intros Hin Hl Hr Hword. unfold select_tickers.
  rewrite Hin. unfold PyStr.lower. rewrite !map_app.
  fold (PyStr.lower l) (PyStr.lower word) (PyStr.lower r).
  rewrite Hword.
  change (chars_of "all") with ("a"%char :: ["l"%char] ++ ["l"%char]).
  rewrite strip_padded; auto using lower_blank.
Qed.

Lemma select_tickers_all_witness :
  select_tickers (string_of (chars_of "  " ++ chars_of "All" ++ chars_of " "))
    ["AAPL"; "MSFT"] = ["AAPL"; "MSFT"].
Proof.
  apply (select_tickers_all _ (chars_of "  ") (chars_of "All") (chars_of " ")).
  - apply chars_of_string_of.
  - repeat constructor.
  - repeat constructor.
  - reflexivity.
Defined.

(** ** split *)

Lemma split_length sep s :
  length (PyStr.split sep s) =
  S (length (List.filter (fun c => Ascii.eqb c sep) s)).
Proof.
  induction s as [|c s IH]; [reflexivity|].
  simpl. destruct (Ascii.eqb c sep); simpl.
  - now rewrite IH.
  - destruct (PyStr.split sep s); simpl in *; lia.
Qed.

Lemma split_pieces sep s :
  Forall (fun piece => ~ In sep piece) (PyStr.split sep s).
Proof.
  induction s as [|c s IH]; simpl.
  - constructor; [intros []|constructor].
  - destruct (Ascii.eqb c sep) eqn:Hc.
    + constructor; [intros []|exact IH].
    + apply Ascii.eqb_neq in Hc.
      destruct (PyStr.split sep s) as [|piece pieces].
      * constructor; [|constructor]. intros [H|[]]. congruence.
      * inversion IH as [|? ? Hp Hps]; subst.
        constructor; [|exact Hps]. intros [H|H]; [congruence|auto].
Qed.

(** The pieces joined by the separator give the string back. *)
Lemma join_split sep s : PyStr.join [sep] (PyStr.split sep s) = s.
Proof.
  induction s as [|c s IH]; [reflexivity|].
  simpl. destruct (Ascii.eqb c sep) eqn:Hc.
  - apply Ascii.eqb_eq in Hc. subst c.
    destruct (PyStr.split sep s) as [|piece pieces] eqn:Hs.
    + pose proof (split_length sep s) as Hl. rewrite Hs in Hl. discriminate.
    + cbn [PyStr.join app]. f_equal. exact IH.
  - destruct (PyStr.split sep s) as [|piece pieces] eqn:Hs.
    + pose proof (split_length sep s) as Hl. rewrite Hs in Hl. discriminate.
    + destruct pieces; simpl in *; now rewrite IH.
Qed.

Lemma lstrip_incl c s : In c (PyStr.lstrip s) -> In c s.
Proof.
  induction s as [|a s IH]; simpl; [auto|].
  destruct (PyStr.isspace a); simpl; tauto.
Qed.

Lemma strip_incl c s : In c (PyStr.strip s) -> In c s.
Proof.
  unfold PyStr.strip, PyStr.rstrip. intros H.
  apply in_rev in H. apply lstrip_incl in H. apply in_rev in H.
  now apply lstrip_incl.
Qed.

Lemma lstrip_upper s :
  PyStr.lstrip (PyStr.upper s) = PyStr.upper (PyStr.lstrip s).
Proof.
  induction s as [|c s IH]; [reflexivity|].
  simpl. rewrite isspace_upper. destruct (PyStr.isspace c); auto.
Qed.

Lemma strip_upper s :
  PyStr.strip (PyStr.upper s) = PyStr.upper (PyStr.strip s).
Proof.
  unfold PyStr.strip, PyStr.rstrip.
  rewrite lstrip_upper. unfold PyStr.upper at 1.
  rewrite <- map_rev. fold (PyStr.upper (rev (PyStr.lstrip s))).
  rewrite lstrip_upper. unfold PyStr.upper. now rewrite map_rev.
Qed.

Lemma upper_idem s : PyStr.upper (PyStr.upper s) = PyStr.upper s.
Proof.
  unfold PyStr.upper. rewrite map_map. apply map_ext.
  intros c. apply upper_char_idem.
Qed.

Lemma normalised_piece piece :
  ~ In ","%char piece ->
  normalised (string_of (PyStr.upper (PyStr.strip piece))).
Proof.
  intros Hp. unfold normalised. rewrite chars_of_string_of.
  split; [|split].
  - now rewrite strip_upper, strip_idem.
  - apply upper_idem.
  - intros H. unfold PyStr.upper in H. apply in_map_iff in H as (c & Hc & Hin).
    apply upper_char_comma in Hc. subst c. apply Hp. now apply strip_incl.
Qed.

(** X19: for any ASCII answer other than "all", the list of tickers has
    one entry more than the answer has commas.  It is never empty: an
    empty answer selects one ticker, the empty string. *)
Theorem select_tickers_count (user_input : string)
    (available_stocks : list string) :
  PyStr.isascii (chars_of user_input) = true ->
  string_of (PyStr.strip (PyStr.lower (chars_of user_input))) <> "all" ->
  length (select_tickers user_input available_stocks) =
  S (commas (chars_of user_input)).
Proof.
  intros _ Hne. unfold select_tickers, commas.
  apply String.eqb_neq in Hne. rewrite Hne.
  rewrite length_map. apply split_length.
Qed.

Lemma select_tickers_count_witness :
  length (select_tickers "" ["AAPL"]) = S (commas (chars_of "")) /\
  select_tickers "" ["AAPL"] = [""] /\
  length (select_tickers "aapl, msft,,goog" ["AAPL"]) =
    S (commas (chars_of "aapl, msft,,goog")).
Proof.
  split; [|split].
  - apply (select_tickers_count "" ["AAPL"]); [reflexivity | discriminate].
  - reflexivity.
  - apply (select_tickers_count "aapl, msft,,goog" ["AAPL"]);
      [reflexivity | vm_compute; discriminate].
Defined.

(** X20: for any answer other than "all", every ticker handed to the
    analysis is normalised: it has no white space at either end, no lower
    case letter, and no comma. *)
Theorem select_tickers_normalised (user_input : string)
    (available_stocks : list string) :
  string_of (PyStr.strip (PyStr.lower (chars_of user_input))) <> "all" ->
  Forall normalised (select_tickers user_input available_stocks).
Proof.
  intros Hne. unfold select_tickers.
  apply String.eqb_neq in Hne. rewrite Hne.
  apply List.Forall_forall. intros tkr Hin.
  apply in_map_iff in Hin as (piece & <- & Hin).
  apply normalised_piece.
  pose proof (split_pieces ","%char (chars_of user_input)) as Hall.
  rewrite List.Forall_forall in Hall. now apply Hall.
Qed.

Lemma select_tickers_normalised_witness :
  Forall normalised (select_tickers " aapl ,Msft" []) /\
  select_tickers " aapl ,Msft" [] = ["AAPL"; "MSFT"].
Proof.
  split.
  - apply (select_tickers_normalised " aapl ,Msft" []).
    vm_compute. discriminate.
  - reflexivity.
Defined.

(** ** ORDER BY *)

Lemma insert_desc_perm stat sorted :
  Permutation (insert_desc stat sorted) (stat :: sorted).
Proof.
  induction sorted as [|s rest IH]; simpl; [reflexivity|].
  destruct (Qle_bool (probability s) (probability stat)); [reflexivity|].
  rewrite IH. apply perm_swap.
Qed.

Lemma insert_desc_sorted stat sorted :
  StronglySorted (fun a b => (probability b <= probability a)%Q) sorted ->
  StronglySorted (fun a b => (probability b <= probability a)%Q)
                 (insert_desc stat sorted).
Proof.
  induction 1 as [|s rest Hs IH Hall]; simpl.
  - constructor; constructor.
  - destruct (Qle_bool (probability s) (probability stat)) eqn:Hle.
    + apply Qle_bool_iff in Hle.
      constructor; [constructor; assumption|].
      constructor; [exact Hle|].
      eapply List.Forall_impl; [|exact Hall].
      intros b Hb. cbn beta in *. eapply Qle_trans; eassumption.
    + assert (Hlt : (probability stat < probability s)%Q).
      { apply Qnot_le_lt. intros Hc. apply Qle_bool_iff in Hc. congruence. }
      constructor; [exact IH|].
      apply List.Forall_forall. intros b Hb.
      apply (Permutation_in _ (insert_desc_perm stat rest)) in Hb.
      destruct Hb as [<-|Hb]; [now apply Qlt_le_weak|].
      rewrite List.Forall_forall in Hall. now apply Hall.
Qed.

(** X21: the rows read for the table are the rows of ProfitStatistics,
    each once, in an order in which the probability never increases. *)
Theorem select_statistics_sorted (t : tables) :
  Permutation (select_statistics t) (map_to_list (ProfitStatistics t)) /\
  StronglySorted (fun a b => (probability b <= probability a)%Q)
                 (select_statistics t).
Proof.
  unfold select_statistics, order_by_probability_desc.
  induction (map_to_list (ProfitStatistics t)) as [|stat rows [IHp IHs]];
    simpl.
  - split; [reflexivity|constructor].
  - split.
    + rewrite insert_desc_perm. now constructor.
    + now apply insert_desc_sorted.
Qed.

(** ** display_stock_stats *)

Lemma print_stats_run stats :
  forall p,
    Console.print_stats stats p =
    (Return tt,
     {| db := db p; stdout := stdout p ++ map stat_line stats;
        queries := queries p |}).
Proof.
  induction stats as [|stat rest IH]; intros p.
  - destruct p. cbn. now rewrite app_nil_r.
  - cbn [Console.print_stats]. unfold io_bind, print. rewrite IH.
    cbn. now rewrite <- app_assoc.
Qed.

Lemma DatabaseManager_init_raises w e w' :
  DatabaseManager_init w = (Raise e, w') -> e = connect_failure.
Proof.
  unfold DatabaseManager_init, bind, connect. intros H.
  now apply connect_attempts_raises in H.
Qed.

Lemma DatabaseManager_init_reconnected w o w' :
  DatabaseManager_init w = (o, w') -> reconnected w w'.
Proof.
  unfold DatabaseManager_init, bind, connect. intros H.
  apply connect_attempts_reconnected in H.
  destruct H as (Hd & He & Hc & Hh & Hf & Hcd & Hs & evs & Hj & Hevs).
  repeat split; auto. exists evs. auto.
Qed.

Lemma DatabaseManager_init_session w w' :
  DatabaseManager_init w = (Return tt, w') -> session w' = durable w.
Proof.
  unfold DatabaseManager_init, bind, connect. intros H.
  pose proof (connect_attempts_reconnected _ _ _ _ H) as (Hd & _).
  apply connect_attempts_returns_handle in H as [[Hc Hs] | (Hall & _)].
  - rewrite Hs. exact Hd.
  - exfalso. unfold max_retries in Hall. cbn in Hall.
    inversion Hall as [|? ? _ Hall1]; subst.
    inversion Hall1 as [|? ? _ Hall2]; subst.
    inversion Hall2 as [|? ? Hlt _]; subst. lia.
Qed.

Lemma DatabaseManager_init_scripts w o w' :
  DatabaseManager_init w = (o, w') ->
  cursors w' = cursors w /\ rollbacks w' = rollbacks w.
Proof.
  unfold DatabaseManager_init, bind, connect. intros H.
  now apply connect_attempts_scripts in H.
Qed.

(** The ways [display_stock_stats] can go. *)
Lemma display_stock_stats_run p :
  match DatabaseManager_init (set_connection None (db p)) with
  | (Raise e, w1) =>
      Console.display_stock_stats p = (Raise e, with_db (restored p w1) p)
  | (Return _, w1) =>
      match cursor_answer w1 with
      | Fails msg =>
          Console.display_stock_stats p =
          (Return tt,
           {| db := restored p
                      (record (display_error_line msg) (cursor_called w1));
              stdout := stdout p;
              queries := queries p |})
      | Succeeds =>
          match next Succeeds (executes w1) with
          | (Succeeds, rest) =>
              Console.display_stock_stats p =
              (Return tt,
               {| db := restored p
                          (record CursorClose
                             (set_executes rest (cursor_called w1)));
                  stdout := stdout p ++ statistics_table (db p);
                  queries := queries p ++ [SelectProfitStatistics] |})
          | (Fails msg, rest) =>
              Console.display_stock_stats p =
              (Return tt,
               {| db := restored p
                          (record (display_error_line msg)
                             (set_executes rest (cursor_called w1)));
                  stdout := stdout p;
                  queries := queries p ++ [SelectProfitStatistics] |})
          end
      end
  end.
Proof.
  destruct (DatabaseManager_init (set_connection None (db p)))
    as [[[]|e] w1] eqn:Hinit.
  - pose proof (DatabaseManager_init_session _ _ Hinit) as Hs.
    cbn in Hs.
    destruct (cursor_answer w1) as [|cmsg] eqn:Hcur.
    + destruct (next Succeeds (executes w1)) as [[|msg] rest] eqn:Hnext.
      * unfold Console.display_stock_stats, local_manager, io_try_except,
          io_bind, lift, cursor_execute_query, print.
        cbn [db with_db stdout queries]. rewrite Hinit.
        cbn [db with_db stdout queries]. rewrite cursor_cases, Hcur.
        cbn [db with_db stdout queries cursor_called set_cursors record
               executes].
        rewrite Hnext.
        cbn [db with_db stdout queries session set_executes].
        rewrite print_stats_run.
        cbn [db with_db stdout queries cursor_close effect].
        unfold statistics_table, table_header, with_db.
        cbn [db stdout queries].
        change (session (cursor_called w1)) with (session w1).
        rewrite Hs. rewrite <- !app_assoc. reflexivity.
      * unfold Console.display_stock_stats, local_manager, io_try_except,
          io_bind, lift, cursor_execute_query, print.
        cbn [db with_db stdout queries]. rewrite Hinit.
        cbn [db with_db stdout queries]. rewrite cursor_cases, Hcur.
        cbn [db with_db stdout queries cursor_called set_cursors record
               executes].
        rewrite Hnext.
        cbn [db with_db stdout queries is_Error logging_error effect str].
        reflexivity.
    + unfold Console.display_stock_stats, local_manager, io_try_except,
        io_bind, lift.
      cbn [db with_db stdout queries]. rewrite Hinit.
      cbn [db with_db stdout queries]. rewrite cursor_cases, Hcur.
      cbn [db with_db stdout queries is_Error logging_error effect str].
      reflexivity.
  - pose proof (DatabaseManager_init_raises _ _ _ Hinit) as ->.
    unfold Console.display_stock_stats, local_manager, io_try_except,
      io_bind, lift.
    cbn [db with_db stdout queries]. rewrite Hinit.
    cbn [is_Error connect_failure]. reflexivity.
Qed.

(** X22: when the connection is made, [cursor()] returns and the query
    succeeds, [display_stock_stats] prints the title, the two rules and
    the header, then one line per row of the committed ProfitStatistics
    in the order of the query, and nothing else; it runs that one query
    and closes its cursor. *)
Theorem display_stock_stats_prints_table (p : process) (w1 : world) :
  DatabaseManager_init (set_connection None (db p)) = (Return tt, w1) ->
  cursor_answer w1 = Succeeds ->
  answer_at 0 (executes (db p)) = Succeeds ->
  fst (Console.display_stock_stats p) = Return tt /\
  stdout (snd (Console.display_stock_stats p)) =
    stdout p ++ statistics_table (db p) /\
  queries (snd (Console.display_stock_stats p)) =
    queries p ++ [SelectProfitStatistics] /\
  journal (db (snd (Console.display_stock_stats p))) =
    journal w1 ++ [Cursor; CursorClose].
Proof.
  intros Hinit Hcur Hans.
  pose proof (display_stock_stats_run p) as Hrun. rewrite Hinit in Hrun.
  pose proof (DatabaseManager_init_reconnected _ _ _ Hinit)
    as (_ & He & _).
  cbn in He. rewrite Hcur in Hrun.
  pose proof (next_answer_at (executes w1)) as Hn.
  rewrite <- He in Hans. rewrite Hans in Hn.
  destruct (next Succeeds (executes w1)) as [[|msg] rest];
    cbn in Hn; [|discriminate Hn].
  rewrite Hrun. cbn. rewrite <- app_assoc. auto.
Qed.

Lemma display_stock_stats_prints_table_witness :
  stdout (snd (Console.display_stock_stats (start analysed_world))) =
    stdout (start analysed_world)
    ++ statistics_table (db (start analysed_world)) /\
  length (statistics_table analysed_world) = 5%nat.
Proof.
  assert (Hinit : DatabaseManager_init
                    (set_connection None (db (start analysed_world))) =
                  (Return tt,
                   snd (DatabaseManager_init
                          (set_connection None (db (start analysed_world))))))
    by (vm_compute; reflexivity).
  assert (Hcur : cursor_answer
                   (snd (DatabaseManager_init
                           (set_connection None (db (start analysed_world)))))
                 = Succeeds)
    by (vm_compute; reflexivity).
  assert (Hans : answer_at 0 (executes (db (start analysed_world))) = Succeeds)
    by (vm_compute; reflexivity).
  destruct (display_stock_stats_prints_table (start analysed_world) _
              Hinit Hcur Hans) as (_ & Hout & _).
  split; [exact Hout|].
  vm_compute. reflexivity.
Defined.

(** X23: an [Error] raised by [cursor()] or by the query is caught inside
    [display_stock_stats]: the function returns normally, prints nothing
    and logs "Error displaying statistics: ..." with the message of that
    error.  In the first case no query is sent; in the second the cursor
    is left open, the [close] call being the last statement of the [try]
    body. *)
Theorem display_stock_stats_swallows_database_errors
    (p : process) (w1 : world) (msg : string) :
  DatabaseManager_init (set_connection None (db p)) = (Return tt, w1) ->
  (cursor_answer w1 = Fails msg ->
   fst (Console.display_stock_stats p) = Return tt /\
   stdout (snd (Console.display_stock_stats p)) = stdout p /\
   queries (snd (Console.display_stock_stats p)) = queries p /\
   journal (db (snd (Console.display_stock_stats p))) =
     journal w1 ++ [Cursor; display_error_line msg])
  /\ (cursor_answer w1 = Succeeds ->
      answer_at 0 (executes (db p)) = Fails msg ->
      fst (Console.display_stock_stats p) = Return tt /\
      stdout (snd (Console.display_stock_stats p)) = stdout p /\
      queries (snd (Console.display_stock_stats p)) =
        queries p ++ [SelectProfitStatistics] /\
      journal (db (snd (Console.display_stock_stats p))) =
        journal w1 ++ [Cursor; display_error_line msg]).
Proof.
  intros Hinit.
  pose proof (display_stock_stats_run p) as Hrun. rewrite Hinit in Hrun.
  pose proof (DatabaseManager_init_reconnected _ _ _ Hinit)
    as (_ & He & _).
  cbn in He.
  split.
  - intros Hcur. rewrite Hcur in Hrun. rewrite Hrun. cbn.
    rewrite <- app_assoc. auto.
  - intros Hcur Hans. rewrite Hcur in Hrun.
    pose proof (next_answer_at (executes w1)) as Hn.
    rewrite <- He in Hans. rewrite Hans in Hn.
    destruct (next Succeeds (executes w1)) as [[|msg'] rest];
      cbn in Hn; [discriminate Hn|].
    injection Hn as ->.
    rewrite Hrun. cbn. rewrite <- app_assoc. auto.
Qed.

Lemma display_stock_stats_swallows_database_errors_witness :
  (fst (Console.display_stock_stats
          (start (set_cursors [Fails "MySQL Connection not available."]
                    analysed_world))) = Return tt /\
   stdout (snd (Console.display_stock_stats
                  (start (set_cursors [Fails "MySQL Connection not available."]
                            analysed_world)))) =
     stdout (start (set_cursors [Fails "MySQL Connection not available."]
                      analysed_world)))
  /\ (fst (Console.display_stock_stats
             (start (set_executes [Fails "gone away"] analysed_world))) =
        Return tt /\
      stdout (snd (Console.display_stock_stats
                     (start (set_executes [Fails "gone away"]
                               analysed_world)))) =
        stdout (start (set_executes [Fails "gone away"] analysed_world))).
Proof.
  assert (Hinit1 :
            DatabaseManager_init
              (set_connection None
                 (db (start (set_cursors
                               [Fails "MySQL Connection not available."]
                               analysed_world)))) =
            (Return tt,
             snd (DatabaseManager_init
                    (set_connection None
                       (db (start (set_cursors
                                     [Fails "MySQL Connection not available."]
                                     analysed_world)))))))
    by (vm_compute; reflexivity).
  assert (Hinit2 :
            DatabaseManager_init
              (set_connection None
                 (db (start (set_executes [Fails "gone away"]
                               analysed_world)))) =
            (Return tt,
             snd (DatabaseManager_init
                    (set_connection None
                       (db (start (set_executes [Fails "gone away"]
                                     analysed_world)))))))
    by (vm_compute; reflexivity).
  split.
  - destruct (display_stock_stats_swallows_database_errors
                _ _ "MySQL Connection not available." Hinit1) as [H _].
    destruct (H eq_refl) as (Hret & Hout & _).
    split; [exact Hret | exact Hout].
  - destruct (display_stock_stats_swallows_database_errors
                _ _ "gone away" Hinit2) as [_ H].
    destruct (H eq_refl eq_refl) as (Hret & Hout & _).
    split; [exact Hret | exact Hout].
Defined.

(** X24: the only exception that leaves [display_stock_stats] is the
    plain [Exception] of [connect], which [except Error] does not catch;
    then nothing was printed and no query was run. *)
Theorem display_stock_stats_connection_failure (p : process) (e : exn) :
  fst (Console.display_stock_stats p) = Raise e ->
  e = connect_failure /\
  stdout (snd (Console.display_stock_stats p)) = stdout p /\
  queries (snd (Console.display_stock_stats p)) = queries p.
Proof.
  intros Hraise.
  pose proof (display_stock_stats_run p) as Hrun.
  destruct (DatabaseManager_init (set_connection None (db p)))
    as [[[]|e1] w1] eqn:Hinit.
  - destruct (cursor_answer w1);
      [destruct (next Succeeds (executes w1)) as [[|msg] rest]|];
      rewrite Hrun in Hraise; discriminate Hraise.
  - rewrite Hrun in *. cbn in *. injection Hraise as ->.
    apply DatabaseManager_init_raises in Hinit. auto.
Qed.

Lemma display_stock_stats_connection_failure_witness :
  stdout (snd (Console.display_stock_stats
                 (start (unreachable analysed_world)))) = [].
Proof.
  assert (Hraise : fst (Console.display_stock_stats
                          (start (unreachable analysed_world))) =
                   Raise connect_failure)
    by (vm_compute; reflexivity).
  destruct (display_stock_stats_connection_failure _ _ Hraise)
    as (_ & Hout & _).
  exact Hout.
Defined.

(** What every run of [display_stock_stats] leaves behind. *)
Lemma display_stock_stats_frame p :
  durable (db (snd (Console.display_stock_stats p))) = durable (db p) /\
  fetches (db (snd (Console.display_stock_stats p))) = fetches (db p) /\
  history (db (snd (Console.display_stock_stats p))) = history (db p) /\
  (exists evs,
     journal (db (snd (Console.display_stock_stats p))) =
       journal (db p) ++ evs /\
     Forall storage_event evs /\ inserts_of evs = []) /\
  ((fst (Console.display_stock_stats p) = Return tt /\
    stdout (snd (Console.display_stock_stats p)) =
      stdout p ++ statistics_table (db p))
   \/ (stdout (snd (Console.display_stock_stats p)) = stdout p /\
       (fst (Console.display_stock_stats p) = Return tt \/
        fst (Console.display_stock_stats p) = Raise connect_failure))).
Proof.
  pose proof (display_stock_stats_run p) as Hrun.
  destruct (DatabaseManager_init (set_connection None (db p)))
    as [[[]|e1] w1] eqn:Hinit;
    pose proof (DatabaseManager_init_reconnected _ _ _ Hinit)
      as (Hd & _ & _ & Hh & Hf & _ & _ & evs & Hj & Hevs);
    cbn in Hd, Hf, Hj, Hh;
    assert (Hi : inserts_of evs = [])
      by (clear - Hevs; induction Hevs as [|ev evs Hev _ IH];
          [reflexivity | destruct ev; simpl in *; tauto]);
    apply connection_event_storage in Hevs.
  - destruct (cursor_answer w1);
      [destruct (next Succeeds (executes w1)) as [[|msg] rest]|];
      rewrite Hrun; cbn; rewrite Hj; (repeat split; auto);
      try (eexists; rewrite <- !app_assoc; split; [reflexivity|]; split;
           [ apply Forall_app; split; [exact Hevs | repeat constructor]
           | rewrite inserts_of_app, Hi; reflexivity ]).
  - apply DatabaseManager_init_raises in Hinit as ->.
    rewrite Hrun; cbn. repeat split; auto.
    exists evs. auto.
Qed.

(** X25: [display_stock_stats] only reads.  Whatever happens, the
    committed tables are as before, the caller's connection and session
    are untouched, and the provider is not asked for anything. *)
Theorem display_stock_stats_reads_only (p : process) :
  durable (db (snd (Console.display_stock_stats p))) = durable (db p) /\
  session (db (snd (Console.display_stock_stats p))) = session (db p) /\
  connection (db (snd (Console.display_stock_stats p))) =
    connection (db p) /\
  fetches (db (snd (Console.display_stock_stats p))) = fetches (db p) /\
  histories_of (journal (db (snd (Console.display_stock_stats p)))) =
    histories_of (journal (db p)) /\
  inserts_of (journal (db (snd (Console.display_stock_stats p)))) =
    inserts_of (journal (db p)).
Proof.
  destruct (display_stock_stats_frame p)
    as (Hd & Hf & _ & (evs & Hj & Hevs & Hi) & _).
  split; [exact Hd|]. split; [|split; [|split; [exact Hf|]]].
  - unfold Console.display_stock_stats, local_manager.
    now destruct (io_try_except _ _ _ _).
  - unfold Console.display_stock_stats, local_manager.
    now destruct (io_try_except _ _ _ _).
  - rewrite Hj, histories_of_app, inserts_of_app, Hi.
    rewrite (histories_of_storage _ Hevs), !app_nil_r. auto.
Qed.

(** ** The main block *)

(** The ways the main block can go. *)
Lemma main_run stdin p :
  match DatabaseManager_init (db p) with
  | (Raise e, w1) => Console.main stdin p = (Raise e, with_db w1 p)
  | (Return _, w1) =>
      match cursor_answer w1 with
      | Fails msg =>
          Console.main stdin p =
          (Raise (Error msg), with_db (cursor_called w1) p)
      | Succeeds =>
          match next Succeeds (executes w1) with
          | (Fails msg, rest) =>
              Console.main stdin p =
              (Raise (Error msg),
               {| db := set_executes rest (cursor_called w1);
                  stdout := stdout p;
                  queries := queries p ++ [SelectDistinctTickers] |})
          | (Succeeds, rest) =>
              match stdin with
              | None =>
                  Console.main stdin p =
                  (Raise (EOFError "EOF when reading a line"),
                   {| db := listed rest w1;
                      stdout := stdout p ++
                                greeting
                                  (select_distinct_tickers (session w1));
                      queries := queries p ++ [SelectDistinctTickers] |})
              | Some user_input =>
                  match StockAnalyzer_init (listed rest w1) with
                  | (Raise e, w2) =>
                      Console.main stdin p =
                      (Raise e,
                       {| db := w2;
                          stdout := stdout p ++
                                    greeting
                                      (select_distinct_tickers (session w1));
                          queries := queries p ++ [SelectDistinctTickers] |})
                  | (Return _, w2) =>
                      match analyze_stocks
                              (select_tickers user_input
                                 (select_distinct_tickers (session w1)))
                              w2 with
                      | (Return (ok, msg), w3) =>
                          Console.main stdin p =
                          (if ok then Console.display_stock_stats
                           else io_ret tt)
                            {| db := w3;
                               stdout := stdout p ++
                                         greeting
                                           (select_distinct_tickers
                                              (session w1)) ++
                                         [msg];
                               queries :=
                                 queries p ++ [SelectDistinctTickers] |}
                      | (Raise e, w3) =>
                          Console.main stdin p =
                          (Raise e,
                           {| db := w3;
                              stdout := stdout p ++
                                        greeting
                                          (select_distinct_tickers
                                             (session w1));
                              queries :=
                                queries p ++ [SelectDistinctTickers] |})
                      end
                  end
              end
          end
      end
  end.
Proof.
  destruct (DatabaseManager_init (db p)) as [[[]|e] w1] eqn:Hinit.
  2: { unfold Console.main, io_bind, lift. rewrite Hinit. reflexivity. }
  destruct (cursor_answer w1) as [|cmsg] eqn:Hcur.
  2: { unfold Console.main, io_bind, lift. rewrite Hinit.
       cbn [db with_db stdout queries]. rewrite cursor_cases, Hcur.
       reflexivity. }
  destruct (next Succeeds (executes w1)) as [[|msg] rest] eqn:Hnext.
  2: { unfold Console.main, io_bind, lift, cursor_execute_query.
       rewrite Hinit.
       cbn [db with_db stdout queries]. rewrite cursor_cases, Hcur.
       cbn [db with_db stdout queries cursor_called set_cursors record
              executes].
       rewrite Hnext. reflexivity. }
  assert (Hstart :
            Console.main stdin p =
            io_bind (Console.input stdin Console.prompt)
              (fun user_input =>
                 io_bind (lift StockAnalyzer_init)
                   (fun _ =>
                      io_bind
                        (lift (analyze_stocks
                                 (select_tickers user_input
                                    (select_distinct_tickers (session w1)))))
                        (fun result =>
                           io_bind (print (snd result))
                             (fun _ =>
                                if fst result
                                then Console.display_stock_stats
                                else io_ret tt))))
              {| db := listed rest w1;
                 stdout := stdout p ++
                           [Console.available_line
                              (select_distinct_tickers (session w1))];
                 queries := queries p ++ [SelectDistinctTickers] |}).
  { unfold Console.main.
    unfold io_bind at 1. unfold lift at 1. rewrite Hinit.
    unfold io_bind at 1. unfold lift at 1.
    cbn [db with_db stdout queries]. rewrite cursor_cases, Hcur.
    unfold io_bind at 1. unfold cursor_execute_query at 1.
    cbn [db with_db stdout queries cursor_called set_cursors record
           executes].
    rewrite Hnext.
    unfold io_bind at 1.
    unfold io_bind at 1. unfold lift at 1.
    cbn [db with_db stdout queries cursor_close effect].
    unfold io_bind at 1. unfold print at 1.
    cbn [db with_db stdout queries session set_executes set_cursors
           record].
    reflexivity. }
  rewrite Hstart. clear Hstart.
  destruct stdin as [user_input|].
  2: { unfold Console.input, io_bind, print.
       cbn [db stdout queries]. unfold greeting.
       rewrite <- !app_assoc. reflexivity. }
  destruct (StockAnalyzer_init (listed rest w1)) as [[[]|e] w2] eqn:Han.
  2: { unfold Console.input, io_bind, print, io_ret, lift.
       cbn [db with_db stdout queries]. rewrite Han.
       unfold greeting, with_db. cbn [db stdout queries].
       rewrite <- !app_assoc. reflexivity. }
  destruct (analyze_stocks _ w2) as [[[ok msg]|e] w3] eqn:Hrun.
  - unfold Console.input, io_bind, print, io_ret, lift.
    cbn [db with_db stdout queries]. rewrite Han.
    cbn [db with_db stdout queries]. rewrite Hrun.
    cbn [db with_db stdout queries fst snd].
    unfold greeting. rewrite <- !app_assoc. reflexivity.
  - unfold Console.input, io_bind, print, io_ret, lift.
    cbn [db with_db stdout queries]. rewrite Han.
    cbn [db with_db stdout queries]. rewrite Hrun.
    unfold greeting, with_db. cbn [db stdout queries].
    rewrite <- !app_assoc. reflexivity.
Qed.

Lemma analyze_stocks_returns tickers w :
  exists ok msg, fst (analyze_stocks tickers w) = Return (ok, msg).
Proof.
  rewrite analyze_stocks_run.
  destruct (for_each_ticker tickers w) as [[[]|e] w1]; [|eauto].
  destruct (update_profit_statistics w1) as [[[]|e] w2]; eauto.
Qed.

(** X26: the main block has no handler of its own.  An [Error] raised by
    its call of [cursor()] or by its first query leaves the program as it
    is; by then nothing has been printed, nothing was asked of the
    provider and nothing was stored. *)
Theorem main_database_error_propagates
    (stdin : option string) (p : process) (w1 : world) (msg : string) :
  DatabaseManager_init (db p) = (Return tt, w1) ->
  cursor_answer w1 = Fails msg \/
  (cursor_answer w1 = Succeeds /\
   answer_at 0 (executes (db p)) = Fails msg) ->
  fst (Console.main stdin p) = Raise (Error msg) /\
  stdout (snd (Console.main stdin p)) = stdout p /\
  histories_of (journal (db (snd (Console.main stdin p)))) =
    histories_of (journal (db p)) /\
  durable (db (snd (Console.main stdin p))) = durable (db p).
Proof.
  intros Hinit Hfail.
  pose proof (main_run stdin p) as Hrun. rewrite Hinit in Hrun.
  pose proof (DatabaseManager_init_reconnected _ _ _ Hinit)
    as (Hd & He & _ & _ & _ & _ & _ & evs & Hj & Hevs).
  apply connection_event_storage, histories_of_storage in Hevs.
  destruct Hfail as [Hcur | [Hcur Hans]]; rewrite Hcur in Hrun.
  - rewrite Hrun. cbn. rewrite Hj, !histories_of_app, Hevs. cbn.
    rewrite !app_nil_r. auto.
  - pose proof (next_answer_at (executes w1)) as Hn.
    rewrite <- He in Hans. rewrite Hans in Hn.
    destruct (next Succeeds (executes w1)) as [[|msg'] rest];
      cbn in Hn; [discriminate Hn|].
    injection Hn as ->.
    rewrite Hrun. cbn. rewrite Hj, !histories_of_app, Hevs. cbn.
    rewrite !app_nil_r. auto.
Qed.

Lemma main_database_error_propagates_witness :
  fst (Console.main (Some "all")
         (start (set_cursors [Fails "MySQL Connection not available."]
                   stocked_world))) =
    Raise (Error "MySQL Connection not available.") /\
  stdout (snd (Console.main (Some "all")
                 (start (set_cursors [Fails "MySQL Connection not available."]
                           stocked_world)))) =
    stdout (start (set_cursors [Fails "MySQL Connection not available."]
                     stocked_world)).
Proof.
  assert (Hinit :
            DatabaseManager_init
              (db (start (set_cursors [Fails "MySQL Connection not available."]
                            stocked_world))) =
            (Return tt,
             snd (DatabaseManager_init
                    (db (start (set_cursors
                                  [Fails "MySQL Connection not available."]
                                  stocked_world))))))
    by (vm_compute; reflexivity).
  destruct (main_database_error_propagates (Some "all") _ _
              "MySQL Connection not available." Hinit (or_introl eq_refl))
    as (Hraise & Hout & _).
  split; [exact Hraise | exact Hout].
Defined.

(** X30: when standard input is at its end, [input()] raises [EOFError]
    and, the main block having no handler, the program ends with it: the
    available tickers and the prompt have been printed, nothing is
    analysed, nothing is asked of the provider and nothing is stored. *)
Theorem main_end_of_input (p : process) (w1 : world) :
  DatabaseManager_init (db p) = (Return tt, w1) ->
  cursor_answer w1 = Succeeds ->
  answer_at 0 (executes (db p)) = Succeeds ->
  fst (Console.main None p) = Raise (EOFError "EOF when reading a line") /\
  stdout (snd (Console.main None p)) =
    stdout p ++ greeting (select_distinct_tickers (durable (db p))) /\
  queries (snd (Console.main None p)) =
    queries p ++ [SelectDistinctTickers] /\
  histories_of (journal (db (snd (Console.main None p)))) =
    histories_of (journal (db p)) /\
  durable (db (snd (Console.main None p))) = durable (db p).
Proof.
  intros Hinit Hcur Hans.
  pose proof (main_run None p) as Hrun. rewrite Hinit in Hrun.
  pose proof (DatabaseManager_init_reconnected _ _ _ Hinit)
    as (Hd & He & _ & _ & _ & _ & _ & evs & Hj & Hevs).
  pose proof (DatabaseManager_init_session _ _ Hinit) as Hs.
  apply connection_event_storage, histories_of_storage in Hevs.
  rewrite Hcur, Hs in Hrun.
  pose proof (next_answer_at (executes w1)) as Hn.
  rewrite <- He in Hans. rewrite Hans in Hn.
  destruct (next Succeeds (executes w1)) as [[|msg'] rest];
    cbn in Hn; [|discriminate Hn].
  rewrite Hrun. cbn. rewrite Hj, !histories_of_app, Hevs. cbn.
  rewrite !app_nil_r. auto.
Qed.

Lemma main_end_of_input_witness :
  fst (Console.main None (start stocked_world)) =
    Raise (EOFError "EOF when reading a line") /\
  stdout (snd (Console.main None (start stocked_world))) =
    stdout (start stocked_world)
    ++ greeting (select_distinct_tickers (durable (db (start stocked_world)))).
Proof.
  assert (Hinit :
            DatabaseManager_init (db (start stocked_world)) =
            (Return tt, snd (DatabaseManager_init (db (start stocked_world)))))
    by (vm_compute; reflexivity).
  assert (Hcur : cursor_answer
                   (snd (DatabaseManager_init (db (start stocked_world))))
                 = Succeeds)
    by (vm_compute; reflexivity).
  assert (Hans : answer_at 0 (executes (db (start stocked_world))) = Succeeds)
    by (vm_compute; reflexivity).
  destruct (main_end_of_input _ _ Hinit Hcur Hans) as (Hraise & Hout & _).
  split; [exact Hraise | exact Hout].
Defined.

(** X27: a run of the main block that ends normally has printed the
    available tickers, the prompt and the message of the analysis, in
    that order, and after them either nothing or, only when the analysis
    reported success, the table of the statistics as the analysis
    committed them.  The analysis ran on the tickers selected from the
    answer and the committed tickers, on a fresh session. *)
Theorem main_output (user_input : string) (p : process) :
  fst (Console.main (Some user_input) p) = Return tt ->
  exists w ok msg shown,
    durable w = durable (db p) /\
    session w = durable (db p) /\
    fst (analyze_stocks
           (select_tickers user_input
              (select_distinct_tickers (durable (db p)))) w) =
      Return (ok, msg) /\
    stdout (snd (Console.main (Some user_input) p)) =
      stdout p ++ greeting (select_distinct_tickers (durable (db p)))
               ++ msg :: shown /\
    (shown = [] \/
     ok = true /\
     shown = statistics_table
               (snd (analyze_stocks
                       (select_tickers user_input
                          (select_distinct_tickers (durable (db p)))) w))).
Proof.
  intros Hret.
  pose proof (main_run (Some user_input) p) as Hrun.
  destruct (DatabaseManager_init (db p)) as [[[]|e1] w1] eqn:Hinit;
    [|rewrite Hrun in Hret; discriminate Hret].
  pose proof (DatabaseManager_init_reconnected _ _ _ Hinit) as (Hd & _).
  pose proof (DatabaseManager_init_session _ _ Hinit) as Hs.
  rewrite Hs in Hrun.
  destruct (cursor_answer w1);
    [|rewrite Hrun in Hret; discriminate Hret].
  destruct (next Succeeds (executes w1)) as [[|msg] rest];
    [|rewrite Hrun in Hret; discriminate Hret].
  destruct (StockAnalyzer_init (listed rest w1)) as [[[]|e2] w2] eqn:Han;
    [|rewrite Hrun in Hret; discriminate Hret].
  pose proof (DatabaseManager_init_reconnected _ _ _ Han) as (Hd2 & _).
  pose proof (DatabaseManager_init_session _ _ Han) as Hs2.
  cbn in Hd2, Hs2.
  destruct (analyze_stocks _ w2) as [[[ok msg]|e3] w3] eqn:Hrun2;
    [|rewrite Hrun in Hret; discriminate Hret].
  exists w2, ok, msg.
  destruct ok.
  - match type of Hrun with
    | _ = _ ?q =>
        destruct (display_stock_stats_frame q)
          as (_ & _ & _ & _ & [[_ Hout] | [Hout _]])
    end.
    + exists (statistics_table w3).
      rewrite Hrun, Hrun2, Hout. cbn.
      rewrite <- ?app_assoc. repeat split; auto; congruence.
    + exists []. rewrite Hrun, Hrun2, Hout. cbn.
      rewrite <- ?app_assoc. repeat split; auto; congruence.
  - exists []. rewrite Hrun, Hrun2. cbn.
    rewrite <- ?app_assoc. repeat split; auto; congruence.
Qed.

Lemma main_output_witness :
  exists w ok msg shown,
    durable w = durable (db (start stocked_world)) /\
    session w = durable (db (start stocked_world)) /\
    fst (analyze_stocks
           (select_tickers "all"
              (select_distinct_tickers (durable (db (start stocked_world)))))
           w) = Return (ok, msg) /\
    stdout (snd (Console.main (Some "all") (start stocked_world))) =
      stdout (start stocked_world)
      ++ greeting (select_distinct_tickers
                     (durable (db (start stocked_world))))
      ++ msg :: shown /\
    (shown = [] \/
     ok = true /\
     shown = statistics_table
               (snd (analyze_stocks
                       (select_tickers "all"
                          (select_distinct_tickers
                             (durable (db (start stocked_world))))) w))).
Proof.
  apply (main_output "all" (start stocked_world)).
  vm_compute. reflexivity.
Defined.

(** X28: the main block asks the provider only about the tickers
    selected from the user's answer, in their order and each at most
    once: its requests are a prefix of that list. *)
Theorem main_fetches_selected_tickers (user_input : string) (p : process) :
  exists k,
    (k <= length (select_tickers user_input
                    (select_distinct_tickers (durable (db p)))))%nat /\
    histories_of (journal (db (snd (Console.main (Some user_input) p)))) =
      histories_of (journal (db p))
      ++ take k (select_tickers user_input
                   (select_distinct_tickers (durable (db p)))).
Proof.
  pose proof (main_run (Some user_input) p) as Hrun.
  destruct (DatabaseManager_init (db p)) as [[[]|e1] w1] eqn:Hinit;
    pose proof (DatabaseManager_init_reconnected _ _ _ Hinit)
      as (_ & _ & _ & _ & _ & _ & _ & evs & Hj & Hevs);
    apply connection_event_storage, histories_of_storage in Hevs.
  - pose proof (DatabaseManager_init_session _ _ Hinit) as Hs.
    rewrite Hs in Hrun.
    destruct (cursor_answer w1).
    2: { exists 0%nat. split; [lia|]. rewrite Hrun. cbn.
         rewrite Hj. rewrite !histories_of_app, Hevs. cbn.
         now rewrite !app_nil_r. }
    destruct (next Succeeds (executes w1)) as [[|msg] rest].
    + destruct (StockAnalyzer_init (listed rest w1)) as [[[]|e2] w2] eqn:Han;
        pose proof (DatabaseManager_init_reconnected _ _ _ Han)
          as (_ & _ & _ & _ & _ & _ & _ & evs2 & Hj2 & Hevs2);
        apply connection_event_storage, histories_of_storage in Hevs2;
        cbn in Hj2.
      * set (tickers := select_tickers user_input
                          (select_distinct_tickers (durable (db p)))) in *.
        destruct (for_each_ticker_fetches tickers w2)
          as (k & Hk & Hjf & _).
        assert (Hja : histories_of (journal (snd (analyze_stocks tickers w2)))
                      = histories_of (journal w2) ++ take k tickers).
        { rewrite analyze_stocks_run.
          destruct (for_each_ticker tickers w2) as [[[]|e] w3];
            cbn [fst snd] in Hjf.
          - destruct (update_profit_statistics_frame w3)
              as (_ & _ & evs3 & Hju & Hevs3 & _).
            destruct (update_profit_statistics w3) as [[[]|e] w4];
              cbn [fst snd journal record] in *;
              rewrite Hju, !histories_of_app,
                (histories_of_storage _ Hevs3), Hjf;
              cbn; now rewrite ?app_nil_r.
          - cbn [fst snd journal record].
            rewrite histories_of_app, Hjf. cbn. now rewrite app_nil_r. }
        exists k. split; [exact Hk|].
        destruct (analyze_stocks tickers w2) as [[[ok msg]|e3] w3];
          cbn [snd] in Hja.
        -- rewrite Hrun. destruct ok.
           ++ match goal with
              | |- context [Console.display_stock_stats ?q] =>
                  destruct (display_stock_stats_frame q)
                    as (_ & _ & _ & (evs4 & Hj4 & Hevs4 & _) & _)
              end.
              rewrite Hj4, histories_of_app,
                (histories_of_storage _ Hevs4), app_nil_r.
              cbn [db]. rewrite Hja, Hj2, Hj.
              rewrite !histories_of_app, Hevs, Hevs2. cbn.
              now rewrite !app_nil_r.
           ++ cbn. rewrite Hja, Hj2, Hj.
              rewrite !histories_of_app, Hevs, Hevs2. cbn.
              now rewrite !app_nil_r.
        -- rewrite Hrun. cbn. rewrite Hja, Hj2, Hj.
           rewrite !histories_of_app, Hevs, Hevs2. cbn.
           now rewrite !app_nil_r.
      * exists 0%nat. split; [lia|]. rewrite Hrun. cbn.
        rewrite Hj2, Hj. rewrite !histories_of_app, Hevs, Hevs2. cbn.
        now rewrite !app_nil_r.
    + exists 0%nat. split; [lia|]. rewrite Hrun. cbn.
      rewrite Hj. rewrite !histories_of_app, Hevs. cbn.
      now rewrite !app_nil_r.
  - exists 0%nat. split; [lia|]. rewrite Hrun. cbn.
    rewrite Hj. rewrite !histories_of_app, Hevs. cbn.
    now rewrite !app_nil_r.
Qed.
